(** * Session-log repair (scripts/repair_sessions.py): model and properties

    A shallow embedding of the repair script: path normalisation, the
    identity extractor, the context-filtered scanner, identity
    rehydration, order-preserving de-duplication and the per-file
    orchestration, followed by the properties the specification states
    about them. *)

From Stdlib Require Import ZArith NArith Lia Bool Ascii String SpecFloat DecimalString.
From stdpp Require Import base decidable option list strings sorting.

Local Open Scope string_scope.
Local Open Scope list_scope.

(** ** Python strings

    A [str] is modelled as a [string] whose characters are the code points
    0..255.  On that alphabet [str.lower] is character-wise: it moves
    [A-Z] and the Latin-1 capitals (U+00C0..U+00DE, without the
    multiplication sign U+00D7) 32 code points up and leaves every other
    character alone. *)

Module PyStr.

Definition slash : ascii := "047"%char.
Definition bslash : ascii := "092"%char.
Definition qmark : ascii := "063"%char.

Definition lower_char (c : ascii) : ascii :=
  let n := N_of_ascii c in
  if ((65 <=? n) && (n <=? 90) || (192 <=? n) && (n <=? 222) && negb (n =? 215))%N
  then ascii_of_N (n + 32) else c.

(** [s.lower()] *)
Fixpoint lower (s : string) : string :=
  match s with
  | EmptyString => EmptyString
  | String c s' => String (lower_char c) (lower s')
  end.

(** [s.replace(old, new)] for one-character [old] and [new]. *)
Fixpoint replace (old new : ascii) (s : string) : string :=
  match s with
  | EmptyString => EmptyString
  | String c s' => String (if Ascii.eqb c old then new else c) (replace old new s')
  end.

(** [s.startswith(prefix)] *)
Fixpoint startswith (s prefix : string) {struct prefix} : bool :=
  match prefix, s with
  | EmptyString, _ => true
  | String _ _, EmptyString => false
  | String p prefix', String c s' => Ascii.eqb c p && startswith s' prefix'
  end.

(** [s[n:]] *)
Fixpoint slice_from (n : nat) (s : string) : string :=
  match n, s with
  | O, _ => s
  | S _, EmptyString => EmptyString
  | S n', String _ s' => slice_from n' s'
  end.

(** [s[:n]] *)
Fixpoint slice_to (n : nat) (s : string) : string :=
  match n, s with
  | O, _ => EmptyString
  | S _, EmptyString => EmptyString
  | S n', String c s' => String c (slice_to n' s')
  end.

(** [s.rstrip(c)] for a one-character argument. *)
Fixpoint rstrip (c : ascii) (s : string) : string :=
  match s with
  | EmptyString => EmptyString
  | String a s' =>
      match rstrip c s' with
      | EmptyString => if Ascii.eqb a c then EmptyString else String a EmptyString
      | r => String a r
      end
  end.

(** [c in s] for a one-character [c]. *)
Fixpoint has_char (c : ascii) (s : string) : bool :=
  match s with
  | EmptyString => false
  | String a s' => Ascii.eqb a c || has_char c s'
  end.

(** Truth value of a string: [bool(s)]. *)
Definition nonempty (s : string) : bool :=
  match s with EmptyString => false | String _ _ => true end.

End PyStr.

(** ** Path normaliser (lines 26-32) *)

(** The two verbatim prefixes of the loop, in the order of the tuple:
    slash-slash-question-slash and its backslash spelling. *)
Definition verbatim_prefix : string :=
  String PyStr.slash (String PyStr.slash (String PyStr.qmark (String PyStr.slash EmptyString))).
Definition verbatim_prefix_bs : string :=
  String PyStr.bslash (String PyStr.bslash (String PyStr.qmark (String PyStr.bslash EmptyString))).
Definition prefixes : list string := [verbatim_prefix; verbatim_prefix_bs].

(** One turn of the [for prefix in ...] loop. *)
Definition strip_prefix (s prefix : string) : string :=
  if PyStr.startswith (PyStr.lower s) (PyStr.lower prefix)
  then PyStr.slice_from (String.length prefix) s
  else s.

Definition normalize_cwd (raw : string) : string :=
  let s := PyStr.replace PyStr.bslash PyStr.slash raw in
  let s := fold_left strip_prefix prefixes s in
  let s := PyStr.rstrip PyStr.slash s in
  PyStr.lower s.

(** The normaliser as the specification words it: separators replaced, one
    verbatim prefix removed from the start, trailing separators removed,
    everything lower-cased. *)
Definition normalize_spec (p : string) : string :=
  let s := PyStr.replace PyStr.bslash PyStr.slash p in
  let s := if PyStr.startswith s verbatim_prefix then PyStr.slice_from 4 s else s in
  PyStr.lower (PyStr.rstrip PyStr.slash s).

(** ** JSON values, as [json.loads] returns them

    [None], [bool], [int], [float], [str], [list] and [dict]; a [dict] is an
    ordered mapping (insertion order, as Python keeps it), here the list of
    its items. *)

#[warnings="-register-all"]
Inductive json : Type :=
| JNull
| JBool (b : bool)
| JInt (n : Z)
| JFloat (f : spec_float)
| JStr (s : string)
| JList (xs : list json)
| JDict (items : list (string * json)).

(** Ordered dictionaries with string keys. *)
Module PyDict.
Section Ops.
Context {V : Type}.

(** [d.get(k)]: the value under [k], if any. *)
Fixpoint lookup (k : string) (d : list (string * V)) : option V :=
  match d with
  | [] => None
  | (k', v) :: d' => if String.eqb k' k then Some v else lookup k d'
  end.

(** [d[k] = v]: an existing key keeps its place, a new key goes last. *)
Fixpoint set (k : string) (v : V) (d : list (string * V)) : list (string * V) :=
  match d with
  | [] => [(k, v)]
  | (k', v') :: d' => if String.eqb k' k then (k', v) :: d' else (k', v') :: set k v d'
  end.

Definition keys (d : list (string * V)) : list string := map fst d.

(** The items whose key is not in [ks], in order. *)
Definition others (ks : list string) (d : list (string * V)) : list (string * V) :=
  List.filter (fun kv => negb (existsb (String.eqb (fst kv)) ks)) d.

End Ops.
End PyDict.

(** Exceptions the modelled code can raise, and results. *)
Inductive exn : Type :=
| AttributeError
| TypeError
| JSONDecodeError
| FileNotFoundError
| IndexError
| ValueError
| UnicodeEncodeError.

Inductive result (A : Type) : Type :=
| Ok (a : A)
| Raise (e : exn).
Arguments Ok {A} a.
Arguments Raise {A} e.

#[global] Instance result_ret : MRet result := fun A a => Ok a.
#[global] Instance result_bind : MBind result := fun A B f m =>
  match m with
  | Ok a => f a
  | Raise e => Raise e
  end.

(** [map f xs] for an [f] that may raise: stops at the first exception. *)
Fixpoint map_result {A B : Type} (f : A -> result B) (xs : list A) : result (list B) :=
  match xs with
  | [] => Ok []
  | x :: xs' => y ← f x; ys ← map_result f xs'; Ok (y :: ys)
  end.

(** [bool(v)] *)
Definition truthy (v : json) : bool :=
  match v with
  | JNull => false
  | JBool b => b
  | JInt n => negb (n =? 0)%Z
  | JFloat (S754_zero _) => false
  | JFloat _ => true
  | JStr s => PyStr.nonempty s
  | JList [] => false
  | JList (_ :: _) => true
  | JDict [] => false
  | JDict (_ :: _) => true
  end.

(** [o.get(k, default)]: only a [dict] has the method; a key bound to
    [null] yields [None], not the default. *)
Definition py_get (o : json) (k : string) (default : json) : result json :=
  match o with
  | JDict d => Ok (match PyDict.lookup k d with Some v => v | None => default end)
  | _ => Raise AttributeError
  end.

(** [o[k] = v] with a string key. *)
Definition py_setitem (o : json) (k : string) (v : json) : result json :=
  match o with
  | JDict d => Ok (JDict (PyDict.set k v d))
  | _ => Raise TypeError
  end.

(** [v == s] for a string literal [s]. *)
Definition py_eq_str (v : json) (s : string) : bool :=
  match v with
  | JStr t => String.eqb t s
  | _ => false
  end.

(** ** Log files

    A file is the sequence of its lines, each given by what [line.strip()]
    and [json.loads] make of it: blank, not parseable, or a document. *)
Inductive line : Type :=
| Blank
| Malformed
| Doc (obj : json).

(** The documents of a file, in order: what a tolerant reader (lines
    156-164) collects. *)
Fixpoint docs (fh : list line) : list json :=
  match fh with
  | [] => []
  | Doc obj :: fh' => obj :: docs fh'
  | _ :: fh' => docs fh'
  end.

(** ** Identity extractor (lines 35-55) *)

(** The [for line in fh] loop; falling out of it is the final
    [return None, None]. *)
Fixpoint extract_loop (fh : list line) : result (json * json) :=
  match fh with
  | [] => Ok (JNull, JNull)
  | Blank :: fh' => extract_loop fh'
  | Malformed :: _ => Raise JSONDecodeError
  | Doc obj :: fh' =>
      typ ← py_get obj "type" JNull;
      if py_eq_str typ "session_meta" then
        payload ← py_get obj "payload" (JDict []);
        meta ← py_get payload "meta" (JDict []);
        cwd ← py_get meta "cwd" JNull;
        cid ← py_get meta "id" JNull;
        Ok (cwd, cid)
      else extract_loop fh'
  end.

(** [None] for the file: it does not exist.  Any other exception is
    caught by [except Exception], which warns and falls through to
    [return None, None]. *)
Definition extract_cwd_and_id_from_jsonl (file : option (list line)) : json * json :=
  match file with
  | None => (JNull, JNull)
  | Some fh =>
      match extract_loop fh with
      | Ok r => r
      | Raise _ => (JNull, JNull)
      end
  end.

(** ** Timestamp prefix (lines 58-64) *)
Definition ts_prefix_from_name (name : string) : option string :=
  if negb (PyStr.startswith name "rollout-") then None
  else
    let core := PyStr.slice_from (String.length "rollout-") name in
    if (19 <=? String.length core)%nat then Some (PyStr.slice_to 19 core) else None.

(** ** Identity rehydration (lines 67-79) *)
Definition update_cwd_and_id (obj new_cwd new_cid : json) : result json :=
  typ ← py_get obj "type" JNull;
  payload ← py_get obj "payload" (JDict []);
  if py_eq_str typ "session_meta" then
    meta ← py_get payload "meta" (JDict []);
    meta ← py_setitem meta "cwd" new_cwd;
    meta ← py_setitem meta "id" new_cid;
    payload ← py_setitem payload "meta" meta;
    py_setitem obj "payload" payload
  else if py_eq_str typ "turn_context" then
    payload ← py_setitem payload "cwd" new_cwd;
    py_setitem obj "payload" payload
  else Ok obj.

(** ** Context-filtered scanner (lines 82-111) *)

Section Scanner.

(** [str(v)] of a value that is not a string is the interpreter's [repr],
    which is left abstract: the properties below hold whatever it prints. *)
Variable py_repr : json -> string.

Definition py_str (v : json) : string :=
  match v with
  | JStr s => s
  | _ => py_repr v
  end.

(** The cwd a document declares (lines 98-103), [None] when it is of
    neither kind. *)
Definition read_new_cwd (obj : json) : result json :=
  payload ← py_get obj "payload" (JDict []);
  typ ← py_get obj "type" JNull;
  if py_eq_str typ "session_meta" then
    meta ← py_get payload "meta" (JDict []);
    py_get meta "cwd" JNull
  else if py_eq_str typ "turn_context" then
    py_get payload "cwd" JNull
  else Ok JNull.

(** [current_cwd and current_cwd == target_cwd_norm] *)
Definition context_matches (current_cwd : option string) (target_cwd_norm : string) : bool :=
  match current_cwd with
  | None => false
  | Some c => PyStr.nonempty c && String.eqb c target_cwd_norm
  end.

(** The [for raw in fh] loop with its two locals. *)
Fixpoint collect_loop (target_cwd_norm : string) (fh : list line)
    (lines : list json) (current_cwd : option string) : result (list json) :=
  match fh with
  | [] => Ok lines
  | Blank :: fh' => collect_loop target_cwd_norm fh' lines current_cwd
  | Malformed :: fh' => collect_loop target_cwd_norm fh' lines current_cwd
  | Doc obj :: fh' =>
      new_cwd ← read_new_cwd obj;
      let current_cwd :=
        if truthy new_cwd then Some (normalize_cwd (py_str new_cwd)) else current_cwd in
      let lines :=
        if context_matches current_cwd target_cwd_norm then lines ++ [obj] else lines in
      collect_loop target_cwd_norm fh' lines current_cwd
  end.

(** A missing source file ([None]) is [FileNotFoundError], which is
    passed over; any other exception leaves the function. *)
Definition collect_cwd_filtered_lines (src : option (list line)) (target_cwd_norm : string)
    : result (list json) :=
  match src with
  | None => Ok []
  | Some fh => collect_loop target_cwd_norm fh [] None
  end.

End Scanner.

(** ** Merge and de-duplication (lines 114-123, 166) *)

#[global] Instance spec_float_eq_dec : EqDecision spec_float.
Proof. solve_decision. Defined.

Fixpoint json_eq_dec (x y : json) {struct x} : Decision (x = y).
Proof.
  refine (
    match x, y with
    | JNull, JNull => left eq_refl
    | JBool a, JBool b => cast_if (decide (a = b))
    | JInt a, JInt b => cast_if (decide (a = b))
    | JFloat a, JFloat b => cast_if (decide (a = b))
    | JStr a, JStr b => cast_if (decide (a = b))
    | JList a, JList b => cast_if (list_eq_dec (dec := json_eq_dec) a b)
    | JDict a, JDict b =>
        cast_if (list_eq_dec (dec := fun p q : string * json =>
           match decide (p.1 = q.1), json_eq_dec p.2 q.2 with
           | left _, left _ => left _
           | _, _ => right _
           end) a b)
    | _, _ => right _
    end); try congruence.
  all: try (destruct p, q; simpl in *; congruence).
Defined.
#[global] Instance json_eq_decision : EqDecision json := json_eq_dec.

(** Items in ascending key order (stable insertion sort), as
    [sort_keys=True] emits them. *)
Fixpoint insert_item (kv : string * json) (d : list (string * json)) : list (string * json) :=
  match d with
  | [] => [kv]
  | kv' :: d' =>
      if String.leb (fst kv) (fst kv') then kv :: d else kv' :: insert_item kv d'
  end.

Definition sort_items (d : list (string * json)) : list (string * json) :=
  foldr insert_item [] d.

(** [json.dumps(obj, sort_keys=True)].  The text is a one-to-one rendering
    of the value once the keys of every dictionary in it are put in
    ascending order, so that value stands for the text: two documents get
    the same key exactly when they get the same text. *)
Fixpoint dumps_sorted (obj : json) : json :=
  match obj with
  | JList xs => JList (map dumps_sorted xs)
  | JDict items => JDict (sort_items (map (fun kv => (fst kv, dumps_sorted (snd kv))) items))
  | _ => obj
  end.

Section Dedup.
Context {A K : Type} `{EqDecision K} (key : A -> K).

(** The loop of [dedup_preserve_order] with its locals [seen] (a set, used
    for membership only) and [out]. *)
Fixpoint dedup_loop (objs : list A) (seen : list K) (out : list A) : list A :=
  match objs with
  | [] => out
  | obj :: objs' =>
      if decide (key obj ∈ seen) then dedup_loop objs' seen out
      else dedup_loop objs' (key obj :: seen) (out ++ [obj])
  end.

End Dedup.

Definition dedup_preserve_order (objs : list json) : list json :=
  dedup_loop dumps_sorted objs [] [].

(** Line 166: [dedup_preserve_order(source_lines + existing)]. *)
Definition merge (source_lines existing : list json) : list json :=
  dedup_preserve_order (source_lines ++ existing).

(** ** Choice of the backup (lines 140-143) *)

(** [candidates.sort(key=lambda p: len(p.name), reverse=True)]: a stable
    sort into descending length; equal lengths keep their order. *)
Fixpoint insert_by_len (p : string) (sorted : list string) : list string :=
  match sorted with
  | [] => [p]
  | q :: sorted' =>
      if (String.length p <? String.length q)%nat then q :: insert_by_len p sorted'
      else p :: sorted
  end.

Definition sort_by_len_desc (candidates : list string) : list string :=
  foldr insert_by_len [] candidates.

Definition order_candidates (candidates : list string) : list string :=
  if (1 <? length candidates)%nat then sort_by_len_desc candidates else candidates.

(** ** Per-file repair (lines 126-175)

    The directory of the target file: what each name holds, and the names
    that match a pattern, in directory order.  A name is the last component
    of a path: it holds no separator. *)
Record filesystem : Type := {
  fs_read : string -> option (list line);
  fs_glob : string -> list string
}.

(** The directory in which the file [name] holds the documents [objs], one
    on each line, and every other file what it held.  Read again, each line
    is the document on it. *)
Definition fs_put (name : string) (objs : list json) (fs : filesystem) : filesystem :=
  {| fs_read := fun n => if String.eqb n name then Some (map Doc objs) else fs_read fs n;
     fs_glob := fs_glob fs |}.

(** The f-string of line 137. *)
Definition backup_pattern (ts_prefix : string) : string :=
  "rollout-" +:+ ts_prefix +:+ "-*.mixed.bak".

(** ["**" in s] *)
Fixpoint has_double_star (s : string) : bool :=
  match s with
  | EmptyString => false
  | String c s' =>
      Ascii.eqb c "*" && match s' with
                         | String c' _ => Ascii.eqb c' "*"
                         | EmptyString => false
                         end
      || has_double_star s'
  end.

(** [list(day_dir.glob(pattern))] (line 137), with [pathlib] as it is up to
    Python 3.12: a component of the pattern that holds [**] without being
    [**] is refused with a [ValueError] (Invalid pattern: '**' can only be
    an entire path component), whatever the directory holds.  The pattern
    of line 137 is one component, since a name holds no separator, and is
    not [**], since it begins with [rollout-]. *)
Definition glob (fs : filesystem) (pattern : string) : result (list string) :=
  if has_double_star pattern then Raise ValueError else Ok (fs_glob fs pattern).

Section Repair.
Variable py_repr : json -> string.

(** [encodable obj]: the text [json.dumps(obj, ensure_ascii=False)] can be
    encoded as UTF-8.  It cannot when a string of [obj] holds a lone
    surrogate, which [json.loads] returns for an escape such as [\ud800];
    [fh.write] then raises a [UnicodeEncodeError].  The strings of the
    model are over the code points 0..255, where every text can be
    encoded: the parameter stands for the documents with strings beyond
    them. *)
Variable encodable : json -> bool.

(** The loop of lines 172-174: [written] is what the file holds so far.  A
    document that cannot be encoded ends the loop by an exception, the
    documents before it written. *)
Fixpoint write_loop (merged written : list json) : result unit * list json :=
  match merged with
  | [] => (Ok tt, written)
  | obj :: merged' =>
      if encodable obj then write_loop merged' (written ++ [obj])
      else (Raise UnicodeEncodeError, written)
  end.

(** Lines 171-174: [open("w")] empties the file, the loop writes into it,
    and leaving the [with] block closes it, also when the loop raises. *)
Definition write_jsonl (jsonl_path : string) (merged : list json) (fs : filesystem)
    : result unit * filesystem :=
  let '(r, written) := write_loop merged [] in
  (r, fs_put jsonl_path written fs).

Definition process_jsonl (fs : filesystem) (jsonl_path : string) (dry_run : bool)
    : result bool * filesystem :=
  let '(target_cwd_raw, target_cid) := extract_cwd_and_id_from_jsonl (fs_read fs jsonl_path) in
  if negb (truthy target_cwd_raw) || negb (truthy target_cid) then (Ok false, fs)
  else
    let target_cwd_norm := normalize_cwd (py_str py_repr target_cwd_raw) in
    match ts_prefix_from_name jsonl_path with
    | None => (Ok false, fs)
    | Some ts_prefix =>
        if negb (PyStr.nonempty ts_prefix) then (Ok false, fs)
        else
          match glob fs (backup_pattern ts_prefix) with
          | Raise e => (Raise e, fs)
          | Ok [] => (Ok false, fs)
          | Ok candidates =>
              match order_candidates candidates with
              | [] => (Raise IndexError, fs)
              | src_path :: _ =>
                  match collect_cwd_filtered_lines py_repr (fs_read fs src_path) target_cwd_norm
                  with
                  | Raise e => (Raise e, fs)
                  | Ok [] => (Ok false, fs)
                  | Ok source_lines =>
                      match map_result
                              (fun obj => update_cwd_and_id obj target_cwd_raw target_cid)
                              source_lines with
                      | Raise e => (Raise e, fs)
                      | Ok source_lines =>
                          match fs_read fs jsonl_path with
                          | None => (Raise FileNotFoundError, fs)
                          | Some fh =>
                              let existing := docs fh in
                              let merged := merge source_lines existing in
                              if dry_run then (Ok true, fs)
                              else
                                match write_jsonl jsonl_path merged fs with
                                | (Raise e, fs') => (Raise e, fs')
                                | (Ok _, fs') => (Ok true, fs')
                                end
                          end
                      end
                  end
              end
          end
    end.

End Repair.

(** ** The data model of the specification

    The definitions below follow the specification's wording, not the
    code; the theorems compare the two. *)

(** A field of a mapping; nothing for a value that is no mapping. *)
Definition field (obj : json) (k : string) : option json :=
  match obj with
  | JDict d => PyDict.lookup k d
  | _ => None
  end.

(** The discriminator: the record's [type] is the string [kind]. *)
Definition is_kind (obj : json) (kind : string) : bool :=
  match field obj "type" with
  | Some (JStr t) => String.eqb t kind
  | _ => false
  end.

Definition mapping_or_absent (o : option json) : bool :=
  match o with
  | None | Some (JDict _) => true
  | Some _ => false
  end.

(** A Record: a mapping of named fields whose payload, where the kind
    gives it a meaning, is a mapping too, as is the identity block of a
    session-identity record (an absent payload or block reads as an empty
    one). *)
Definition is_record (obj : json) : bool :=
  match obj with
  | JDict d =>
      if is_kind obj "session_meta" then
        match PyDict.lookup "payload" d with
        | None => true
        | Some (JDict p) => mapping_or_absent (PyDict.lookup "meta" p)
        | Some _ => false
        end
      else if is_kind obj "turn_context" then mapping_or_absent (PyDict.lookup "payload" d)
      else true
  | _ => false
  end.

(** A Log file: every parseable line is a Record. *)
Definition is_log (fh : list line) : bool := forallb is_record (docs fh).

(** The cwd field a record carries: the identity block's of a
    session-identity record, the payload's of a context-switch record. *)
Definition carried_cwd (obj : json) : option json :=
  if is_kind obj "session_meta" then
    payload ← field obj "payload"; meta ← field payload "meta"; field meta "cwd"
  else if is_kind obj "turn_context" then
    payload ← field obj "payload"; field payload "cwd"
  else None.

(** The elements of [xs], in their order, that [keep] accepts; [keep] is
    given the elements before the one it judges. *)
Definition kept_when {A : Type} (keep : list A -> A -> bool) (xs : list A) : list A :=
  omap (fun i => x ← xs !! i; if keep (take i xs) x then Some x else None)
       (seq 0 (length xs)).

Section ScannerSpec.
Variable py_repr : json -> string.

(** The context a record declares: its carried cwd, normalised.  A cwd
    that is null or empty (false as a Python value) counts as not
    carried. *)
Definition declared_context (obj : json) : option string :=
  match carried_cwd obj with
  | Some v => if truthy v then Some (normalize_cwd (py_str py_repr v)) else None
  | None => None
  end.

(** The active context once the records [rs] have been read: what the
    most recent record carrying a cwd declares. *)
Definition active_context (rs : list json) : option string :=
  last (omap declared_context rs).

(** The scanner as the claim states it: a record is returned when the
    active context, once that record has been read, equals the target
    path. *)
Definition scan_claimed (target : string) (rs : list json) : list json :=
  kept_when (fun before r => bool_decide (active_context (before ++ [r]) = Some target)) rs.

(** The scanner with the guard of line 107: the active context equals
    the target path and is not the empty string. *)
Definition scan_spec (target : string) (rs : list json) : list json :=
  kept_when
    (fun before r =>
       bool_decide (active_context (before ++ [r]) = Some target) && PyStr.nonempty target) rs.

End ScannerSpec.

(** The identity extractor as the specification states it: unparseable
    lines are skipped, and the first session-identity record gives the
    pair. *)
Definition extract_spec (file : option (list line)) : json * json :=
  match file with
  | None => (JNull, JNull)
  | Some fh =>
      match List.find (fun obj => is_kind obj "session_meta") (docs fh) with
      | None => (JNull, JNull)
      | Some obj =>
          let meta := field obj "payload" ≫= (fun payload => field payload "meta") in
          (default JNull (meta ≫= (fun m => field m "cwd")),
           default JNull (meta ≫= (fun m => field m "id")))
      end
  end.

(** First occurrences, as the specification states de-duplication: a
    record is kept when no record before it has its key. *)
Definition first_occurrences {A K : Type} `{EqDecision K} (key : A -> K) (xs : list A) : list A :=
  kept_when (fun before x => negb (bool_decide (key x ∈ map key before))) xs.

(** The items of a mapping that may be absent; an absent one reads as
    empty. *)
Definition items_of (o : option json) : list (string * json) :=
  match o with
  | Some (JDict d) => d
  | _ => []
  end.

(** The value reached by following the fields [path] from [obj]. *)
Definition at_path (obj : json) (path : list string) : option json :=
  foldl (fun o k => o ≫= (fun v => field v k)) (Some obj) path.

(** The states of the per-file repair, in the order the specification
    lists them.  [ScanRaised] is not one of its states: it is the scan
    leaving by an exception, which ends the repair of the file without a
    verdict.  [Repaired merged] is reached when the first four stages pass:
    [merged] is what the fifth is to write. *)
Inductive repair_state : Type :=
| NoIdentity
| NoTimestamp
| NoCandidate
| NoMatchingRecords
| ScanRaised (e : exn)
| Repaired (merged : list json).

(** [not target_cwd_raw or not target_cid] *)
Definition identity_absent (identity : json * json) : bool :=
  negb (truthy (fst identity)) || negb (truthy (snd identity)).

(** The timestamp prefix of the name holds [**], so that the pattern made
    from it is one [glob] refuses. *)
Definition star_prefix (jsonl_path : string) : bool :=
  from_option has_double_star false (ts_prefix_from_name jsonl_path).

(** The documents of [merged] before the first that cannot be encoded:
    what a write of [merged] leaves in the file. *)
Fixpoint writable_prefix (encodable : json -> bool) (merged : list json) : list json :=
  match merged with
  | [] => []
  | obj :: merged' => if encodable obj then obj :: writable_prefix encodable merged' else []
  end.

(** A record with its identity overwritten; a value that is no Record is
    left as it is. *)
Definition rehydrate (new_cwd new_cid obj : json) : json :=
  match update_cwd_and_id obj new_cwd new_cid with
  | Ok obj' => obj'
  | Raise _ => obj
  end.

Section RepairSpec.
Variable py_repr : json -> string.

(** The transitions of the specification, the first failing stage giving
    the state.  The candidates are the names of the directory that match
    the pattern; whether [glob] accepts the pattern is not the
    specification's concern. *)
Definition repair_state_of (fs : filesystem) (jsonl_path : string) : repair_state :=
  let identity := extract_cwd_and_id_from_jsonl (fs_read fs jsonl_path) in
  if identity_absent identity then NoIdentity
  else
    match ts_prefix_from_name jsonl_path with
    | None => NoTimestamp
    | Some ts_prefix =>
        match order_candidates (fs_glob fs (backup_pattern ts_prefix)) with
        | [] => NoCandidate
        | src_path :: _ =>
            match collect_cwd_filtered_lines py_repr (fs_read fs src_path)
                    (normalize_cwd (py_str py_repr (fst identity))) with
            | Raise e => ScanRaised e
            | Ok [] => NoMatchingRecords
            | Ok source_lines =>
                Repaired (merge (map (rehydrate (fst identity) (snd identity)) source_lines)
                                (docs (default [] (fs_read fs jsonl_path))))
            end
        end
    end.

End RepairSpec.

(** ** Sample data: the end-to-end scenario of the specification *)

Definition session_meta (cwd cid : string) : json :=
  JDict [("type", JStr "session_meta");
         ("payload", JDict [("meta", JDict [("id", JStr cid); ("cwd", JStr cwd)])])].

Definition turn_context (cwd : string) : json :=
  JDict [("type", JStr "turn_context"); ("payload", JDict [("cwd", JStr cwd)])].

Definition data_record (n : Z) : json :=
  JDict [("type", JStr "response_item"); ("payload", JDict [("seq", JInt n)])].

Definition target_name : string := "rollout-2025-01-02T03-04-05-abc.jsonl".
Definition backup_name : string := "rollout-2025-01-02T03-04-05-abc.mixed.bak".
Definition backup_name_long : string := "rollout-2025-01-02T03-04-05-abc-copy.mixed.bak".

Definition sample_backup : list line :=
  [Doc (session_meta "/work/proj" "OLD"); Blank; Doc (data_record 1); Malformed;
   Doc (turn_context "/other"); Doc (data_record 2)].

(** A directory holding the target [target] and one backup [backup]. *)
Definition sample_fs (target backup : list line) : filesystem :=
  {| fs_read := fun n =>
       if String.eqb n target_name then Some target
       else if String.eqb n backup_name then Some backup
       else None;
     fs_glob := fun pat =>
       if String.eqb pat "rollout-2025-01-02T03-04-05-*.mixed.bak" then [backup_name] else [] |}.

(** A stand-in for [repr] where a closed example needs one; the samples
    carry string paths only, so it is never called on them. *)
Definition sample_repr (v : json) : string := "".

(** The samples are ASCII: every one of them can be encoded. *)
Definition all_encodable (obj : json) : bool := true.

(** A stand-in for a document with a lone surrogate: [bad] alone cannot be
    encoded. *)
Definition all_but (bad obj : json) : bool := negb (bool_decide (obj = bad)).

(** A one-character string holding the backslash. *)
Definition bs : string := String PyStr.bslash EmptyString.

(** What rehydration writes, and what it leaves alone, stated on the three
    mappings it passes through: the record, its payload, its identity
    block. *)
Definition rehydrated (obj new_cwd new_cid obj' : json) : Prop :=
  PyDict.others ["payload"] (items_of (Some obj')) =
    PyDict.others ["payload"] (items_of (Some obj)) /\
  if is_kind obj "session_meta" then
    at_path obj' ["payload"; "meta"; "cwd"] = Some new_cwd /\
    at_path obj' ["payload"; "meta"; "id"] = Some new_cid /\
    PyDict.others ["meta"] (items_of (field obj' "payload")) =
      PyDict.others ["meta"] (items_of (field obj "payload")) /\
    PyDict.others ["cwd"; "id"] (items_of (at_path obj' ["payload"; "meta"])) =
      PyDict.others ["cwd"; "id"] (items_of (at_path obj ["payload"; "meta"]))
  else if is_kind obj "turn_context" then
    at_path obj' ["payload"; "cwd"] = Some new_cwd /\
    PyDict.others ["cwd"] (items_of (field obj' "payload")) =
      PyDict.others ["cwd"] (items_of (field obj "payload"))
  else obj' = obj.

(** Two spellings of one record: the same fields in another order. *)
Definition record_ab : json := JDict [("a", JInt 1); ("b", JDict [("x", JNull); ("y", JBool true)])].
Definition record_ba : json := JDict [("b", JDict [("y", JBool true); ("x", JNull)]); ("a", JInt 1)].

(** Lines the extractor passes over: blank lines and mappings of another
    kind. *)
Definition passed_over (l : line) : Prop :=
  l = Blank \/ exists d, l = Doc (JDict d) /\ is_kind (JDict d) "session_meta" = false.

(** A target in the root directory, and a backup of it. *)
Definition root_target : list line := [Doc (session_meta "/" "T1")].
Definition root_backup : list line :=
  [Doc (session_meta "/" "OLD"); Doc (data_record 1); Doc (turn_context ""); Doc (data_record 2)].

(** Items compared by key, the order [sort_keys=True] sorts by. *)
Definition key_le (kv kv' : string * json) : Prop := String.le (fst kv) (fst kv').

(** A directory with two backups of the target's timestamp, listed the
    shorter name first. *)
Definition sample_fs2 (target backup backup_long : list line) : filesystem :=
  {| fs_read := fun n =>
       if String.eqb n target_name then Some target
       else if String.eqb n backup_name then Some backup
       else if String.eqb n backup_name_long then Some backup_long
       else None;
     fs_glob := fun pat =>
       if String.eqb pat "rollout-2025-01-02T03-04-05-*.mixed.bak"
       then [backup_name; backup_name_long] else [] |}.

(** ** The batch driver (lines 178-214) *)

(** [s.endswith(suffix)] *)
Definition endswith (s suffix : string) : bool :=
  (String.length suffix <=? String.length s)%nat &&
  String.eqb (PyStr.slice_from (String.length s - String.length suffix) s) suffix.

(** A path below the root: [path.parent] and [path.name]. *)
Record path : Type := {
  parent : string;
  name : string
}.

(** The sessions tree: whether the root exists, what [root.rglob] yields
    for a pattern, in the order it yields, and the directories by name. *)
Record tree : Type := {
  root_exists : bool;
  root_rglob : string -> list path;
  day_dir : string -> filesystem
}.

(** The tree with the directory [d] replaced. *)
Definition set_dir (d : string) (fs : filesystem) (t : tree) : tree :=
  {| root_exists := root_exists t;
     root_rglob := root_rglob t;
     day_dir := fun d' => if String.eqb d' d then fs else day_dir t d' |}.

(** [iter_jsonl_files(root)] *)
Definition iter_jsonl_files (t : tree) : list path :=
  List.filter (fun p => negb (endswith (name p) ".mixed.bak")) (root_rglob t "rollout-*.jsonl").

(** [str(n)] for a count. *)
Definition str_of_nat (n : nat) : string := NilZero.string_of_uint (Nat.to_uint n).

Section Batch.
Variable py_repr : json -> string.
Variable encodable : json -> bool.

(** [process_jsonl(jsonl, dry_run)] on a path of the tree. *)
Definition process_path (t : tree) (jsonl : path) (dry_run : bool) : result bool * tree :=
  let '(ok, fs') :=
    process_jsonl py_repr encodable (day_dir t (parent jsonl)) (name jsonl) dry_run in
  (ok, set_dir (parent jsonl) fs' t).

(** The loop of [main] with its counters [total] and [repaired]; an
    exception of [process_jsonl] leaves the loop and [main]. *)
Fixpoint main_loop (files : list path) (dry_run : bool) (t : tree) (total repaired : nat)
    : result (nat * nat) * tree :=
  match files with
  | [] => (Ok (total, repaired), t)
  | jsonl :: files' =>
      let total := total + 1 in
      match process_path t jsonl dry_run with
      | (Raise e, t') => (Raise e, t')
      | (Ok ok, t') =>
          main_loop files' dry_run t' total (if ok then repaired + 1 else repaired)
      end
  end.

(** [main()] after the arguments are parsed: the exit status, the lines
    printed on standard output, and the tree it leaves.  The diagnostics on
    standard error are not part of the model. *)
Definition main (dry_run : bool) (t : tree) : result Z * list string * tree :=
  if negb (root_exists t) then (Ok 1%Z, [], t)
  else
    match main_loop (iter_jsonl_files t) dry_run t 0 0 with
    | (Raise e, t') => (Raise e, [], t')
    | (Ok (total, repaired), t') =>
        (Ok 0%Z,
         ["Scanned " +:+ str_of_nat total +:+ " jsonl files; repaired " +:+ str_of_nat repaired],
         t')
    end.

End Batch.

(** A tree with one directory. *)
Definition sample_tree (fs : filesystem) (files : list path) : tree :=
  {| root_exists := true;
     root_rglob := fun pat => if String.eqb pat "rollout-*.jsonl" then files else [];
     day_dir := fun _ => fs |}.

(** A target whose name has [**] where the timestamp begins, alone in its
    directory: no name of the directory matches a pattern. *)
Definition star_name : string := "rollout-**25-01-02T03-04-05-abc.jsonl".
Definition star_fs (target : list line) : filesystem :=
  {| fs_read := fun n => if String.eqb n star_name then Some target else None;
     fs_glob := fun _ => [] |}.

(** * Properties *)

(** ** Strings *)

Module PyStrFacts.
Import PyStr.

Ltac by_char c := destruct c as [[] [] [] [] [] [] [] []]; vm_compute; reflexivity.

Lemma lower_char_idem c : lower_char (lower_char c) = lower_char c.
Proof. by_char c. Qed.

Lemma lower_char_is_slash c : Ascii.eqb (lower_char c) slash = Ascii.eqb c slash.
Proof. by_char c. Qed.

Lemma lower_char_is_qmark c : Ascii.eqb (lower_char c) qmark = Ascii.eqb c qmark.
Proof. by_char c. Qed.

Lemma lower_char_is_bslash c : Ascii.eqb (lower_char c) bslash = Ascii.eqb c bslash.
Proof. by_char c. Qed.

Lemma lower_idem s : lower (lower s) = lower s.
Proof. induction s as [|c s IH]; simpl; [done|]. by rewrite lower_char_idem, IH. Qed.

Lemma length_lower s : String.length (lower s) = String.length s.
Proof. induction s as [|c s IH]; simpl; congruence. Qed.

Lemma length_replace a b s : String.length (replace a b s) = String.length s.
Proof. induction s as [|c s IH]; simpl; congruence. Qed.

Lemma length_rstrip c s : String.length (rstrip c s) <= String.length s.
Proof.
  induction s as [|a s IH]; simpl; [lia|].
  destruct (rstrip c s); [destruct (Ascii.eqb a c)|]; simpl in *; lia.
Qed.

Lemma length_slice_from n s : String.length (slice_from n s) = String.length s - n.
Proof. revert s; induction n as [|n IH]; intros [|c s]; simpl; auto with lia. Qed.

Lemma length_startswith s p : startswith s p = true -> String.length p <= String.length s.
Proof.
  revert s; induction p as [|a p IH]; intros [|c s]; simpl; try lia; try discriminate.
  intros [_ H]%andb_prop. apply IH in H. lia.
Qed.

Lemma has_char_replace s : has_char bslash (replace bslash slash s) = false.
Proof.
  induction s as [|c s IH]; simpl; [done|]. rewrite IH, orb_false_r.
  destruct (Ascii.eqb c bslash) eqn:E; [reflexivity | exact E].
Qed.

Lemma replace_absent a b s : has_char a s = false -> replace a b s = s.
Proof.
  induction s as [|c s IH]; simpl; [done|].
  intros [-> H]%orb_false_elim. by rewrite IH.
Qed.

Lemma has_char_slice_from c n s : has_char c s = false -> has_char c (slice_from n s) = false.
Proof.
  revert s; induction n as [|n IH]; intros [|a s]; simpl; auto.
  intros [_ H]%orb_false_elim. auto.
Qed.

Lemma has_char_rstrip c a s : has_char c s = false -> has_char c (rstrip a s) = false.
Proof.
  induction s as [|x s IH]; simpl; [done|].
  intros [Hx H]%orb_false_elim. specialize (IH H).
  destruct (rstrip a s) eqn:E.
  - destruct (Ascii.eqb x a); simpl; [done|]. by rewrite Hx.
  - simpl in *. by rewrite Hx, IH.
Qed.

Lemma has_bslash_lower s : has_char bslash (lower s) = has_char bslash s.
Proof. induction s as [|c s IH]; simpl; [done|]. by rewrite lower_char_is_bslash, IH. Qed.

Lemma startswith_lower_verbatim s :
  startswith (lower s) verbatim_prefix = startswith s verbatim_prefix.
Proof.
  destruct s as [|c1 [|c2 [|c3 [|c4 s]]]]; simpl; try reflexivity;
    fold slash qmark;
    rewrite ?lower_char_is_slash, ?lower_char_is_qmark;
    first [reflexivity | by destruct s].
Qed.

Lemma startswith_bslash s :
  has_char bslash s = false -> startswith (lower s) verbatim_prefix_bs = false.
Proof.
  destruct s as [|c s]; simpl; [done|].
  intros [H _]%orb_false_elim. fold bslash. by rewrite lower_char_is_bslash, H.
Qed.

Lemma rstrip_lower s : rstrip slash (lower s) = lower (rstrip slash s).
Proof.
  induction s as [|c s IH]; simpl; [done|]. rewrite IH.
  destruct (rstrip slash s); simpl; [|done].
  rewrite lower_char_is_slash. by destruct (Ascii.eqb c slash).
Qed.

Lemma rstrip_idem c s : rstrip c (rstrip c s) = rstrip c s.
Proof.
  induction s as [|a s IH]; simpl; [done|].
  destruct (rstrip c s) as [|b r] eqn:E.
  - destruct (Ascii.eqb a c) eqn:Ea; simpl; [done|]. by rewrite Ea.
  - change (rstrip c (String a (String b r))) with
      (match rstrip c (String b r) with
       | EmptyString => if Ascii.eqb a c then EmptyString else String a EmptyString
       | r' => String a r'
       end).
    by rewrite IH.
Qed.

Lemma replace_lower s :
  replace bslash slash (lower s) = lower (replace bslash slash s).
Proof.
  induction s as [|c s IH]; simpl; [done|]. rewrite IH, lower_char_is_bslash.
  by destruct (Ascii.eqb c bslash).
Qed.

Lemma replace_replace_back s :
  replace bslash slash (replace slash bslash s) = replace bslash slash s.
Proof.
  induction s as [|c s IH]; simpl; [done|]. rewrite IH. f_equal.
  destruct (Ascii.eqb c slash) eqn:E1.
  - apply Ascii.eqb_eq in E1 as ->. reflexivity.
  - reflexivity.
Qed.

Lemma slice_from_lower n s : slice_from n (lower s) = lower (slice_from n s).
Proof. revert s; induction n as [|n IH]; intros [|c s]; simpl; auto. Qed.

End PyStrFacts.

(** ** Path normaliser *)

Example normalize_ex1 : normalize_cwd ("C:" +:+ bs +:+ "Foo" +:+ bs +:+ "Bar") = "c:/foo/bar".
Proof. reflexivity. Qed.
Example normalize_ex2 : normalize_cwd "c:/foo/bar/" = "c:/foo/bar".
Proof. reflexivity. Qed.
Example normalize_ex3 : normalize_cwd "//?///?/a" = "//?/a".
Proof. reflexivity. Qed.
Example normalize_ex4 : normalize_cwd (bs +:+ bs +:+ "?" +:+ bs +:+ "C:" +:+ bs +:+ "X") = "c:/x".
Proof. reflexivity. Qed.
Example normalize_ex5 : normalize_cwd "/" = "" /\ normalize_cwd bs = "" /\ normalize_cwd "//?/" = "".
Proof. repeat split. Qed.

(** The loop over the two prefixes amounts to removing the forward-slash
    prefix once: after the separators are replaced the backslash spelling
    cannot occur, and the prefix has no letters for [lower] to change. *)
Lemma normalize_cwd_unfold p : normalize_cwd p = normalize_spec p.
Proof.
  unfold normalize_cwd, normalize_spec. simpl fold_left.
  pose proof (PyStrFacts.has_char_replace p) as Hp.
  set (s := PyStr.replace PyStr.bslash PyStr.slash p) in *.
  unfold strip_prefix at 2.
  change (PyStr.lower verbatim_prefix) with verbatim_prefix.
  rewrite PyStrFacts.startswith_lower_verbatim.
  change (String.length verbatim_prefix) with 4.
  set (s1 := if PyStr.startswith s verbatim_prefix then PyStr.slice_from 4 s else s).
  assert (PyStr.has_char PyStr.bslash s1 = false) as H1.
  { unfold s1. destruct (PyStr.startswith s verbatim_prefix); [|done].
    by apply PyStrFacts.has_char_slice_from. }
  unfold strip_prefix.
  change (PyStr.lower verbatim_prefix_bs) with verbatim_prefix_bs.
  by rewrite PyStrFacts.startswith_bslash.
Qed.

Lemma normalize_no_bslash p : PyStr.has_char PyStr.bslash (normalize_cwd p) = false.
Proof.
  rewrite normalize_cwd_unfold. unfold normalize_spec.
  rewrite PyStrFacts.has_bslash_lower. apply PyStrFacts.has_char_rstrip.
  destruct (PyStr.startswith _ _).
  - apply PyStrFacts.has_char_slice_from, PyStrFacts.has_char_replace.
  - apply PyStrFacts.has_char_replace.
Qed.

Lemma normalize_rstrip p : PyStr.rstrip PyStr.slash (normalize_cwd p) = normalize_cwd p.
Proof.
  rewrite normalize_cwd_unfold. unfold normalize_spec.
  by rewrite PyStrFacts.rstrip_lower, PyStrFacts.rstrip_idem.
Qed.

Lemma normalize_lower p : PyStr.lower (normalize_cwd p) = normalize_cwd p.
Proof. rewrite normalize_cwd_unfold. apply PyStrFacts.lower_idem. Qed.

(** Normalising a normal form: only a second verbatim prefix is left to
    remove. *)
Lemma normalize_normal p :
  normalize_cwd (normalize_cwd p) =
  if PyStr.startswith (normalize_cwd p) verbatim_prefix
  then PyStr.lower (PyStr.rstrip PyStr.slash (PyStr.slice_from 4 (normalize_cwd p)))
  else normalize_cwd p.
Proof.
  rewrite (normalize_cwd_unfold (normalize_cwd p)). unfold normalize_spec.
  rewrite (PyStrFacts.replace_absent _ _ _ (normalize_no_bslash p)).
  destruct (PyStr.startswith (normalize_cwd p) verbatim_prefix); [done|].
  by rewrite normalize_rstrip, normalize_lower.
Qed.

Lemma normalize_of_lower p : normalize_cwd (PyStr.lower p) = normalize_cwd p.
Proof.
  rewrite !normalize_cwd_unfold. unfold normalize_spec.
  rewrite PyStrFacts.replace_lower, PyStrFacts.startswith_lower_verbatim.
  destruct (PyStr.startswith _ _).
  - by rewrite PyStrFacts.slice_from_lower, PyStrFacts.rstrip_lower, PyStrFacts.lower_idem.
  - by rewrite PyStrFacts.rstrip_lower, PyStrFacts.lower_idem.
Qed.

Lemma normalize_of_separators p :
  normalize_cwd (PyStr.replace PyStr.slash PyStr.bslash p) = normalize_cwd p /\
  normalize_cwd (PyStr.replace PyStr.bslash PyStr.slash p) = normalize_cwd p.
Proof.
  rewrite !normalize_cwd_unfold. unfold normalize_spec. split.
  - by rewrite PyStrFacts.replace_replace_back.
  - by rewrite (PyStrFacts.replace_absent _ _ _ (PyStrFacts.has_char_replace p)).
Qed.

Lemma normalize_strips_verbatim p :
  normalize_cwd (verbatim_prefix +:+ p) =
    PyStr.lower (PyStr.rstrip PyStr.slash (PyStr.replace PyStr.bslash PyStr.slash p)) /\
  normalize_cwd (verbatim_prefix_bs +:+ p) =
    PyStr.lower (PyStr.rstrip PyStr.slash (PyStr.replace PyStr.bslash PyStr.slash p)).
Proof.
  rewrite !normalize_cwd_unfold.
  unfold normalize_spec, verbatim_prefix, verbatim_prefix_bs. split; reflexivity.
Qed.

(** C4, as stated, fails: a path that carries the verbatim prefix twice
    loses one copy at each normalisation. *)
Lemma normalize_twice_differs :
  normalize_cwd "//?///?/a" = "//?/a" /\
  normalize_cwd (normalize_cwd "//?///?/a") = "a".
Proof. split; reflexivity. Qed.

(** C4 (amended): normalising a normal form returns it unchanged exactly
    when that normal form does not itself begin with the verbatim prefix,
    that is, unless the path carried the prefix more than once. *)
Theorem normalize_idempotent_iff (p : string) :
  normalize_cwd (normalize_cwd p) = normalize_cwd p <->
  PyStr.startswith (normalize_cwd p) verbatim_prefix = false.
Proof.
  rewrite normalize_normal.
  destruct (PyStr.startswith (normalize_cwd p) verbatim_prefix) eqn:E.
  - split; [|discriminate]. intros H. exfalso.
    apply PyStrFacts.length_startswith in E. change (String.length verbatim_prefix) with 4 in E.
    apply (f_equal String.length) in H.
    rewrite PyStrFacts.length_lower in H.
    pose proof (PyStrFacts.length_rstrip PyStr.slash (PyStr.slice_from 4 (normalize_cwd p))) as Hr.
    rewrite PyStrFacts.length_slice_from in Hr. lia.
  - split; reflexivity.
Qed.

(** C5: the normaliser replaces every backslash, removes a verbatim prefix
    in either spelling from the start, removes trailing separators and
    lower-cases the result; hence the result has no backslash, no trailing
    separator and no capital, and it does not depend on the case or on the
    separators of the input. *)
Theorem normalize_cwd_correct :
  (forall p, normalize_cwd p = normalize_spec p) /\
  (forall p, PyStr.has_char PyStr.bslash (normalize_cwd p) = false) /\
  (forall p, PyStr.rstrip PyStr.slash (normalize_cwd p) = normalize_cwd p) /\
  (forall p, PyStr.lower (normalize_cwd p) = normalize_cwd p) /\
  (forall p, normalize_cwd (PyStr.lower p) = normalize_cwd p) /\
  (forall p, normalize_cwd (PyStr.replace PyStr.slash PyStr.bslash p) = normalize_cwd p /\
             normalize_cwd (PyStr.replace PyStr.bslash PyStr.slash p) = normalize_cwd p) /\
  (forall p, normalize_cwd (verbatim_prefix +:+ p) =
               PyStr.lower (PyStr.rstrip PyStr.slash (PyStr.replace PyStr.bslash PyStr.slash p)) /\
             normalize_cwd (verbatim_prefix_bs +:+ p) =
               PyStr.lower (PyStr.rstrip PyStr.slash (PyStr.replace PyStr.bslash PyStr.slash p))) /\
  normalize_cwd ("C:" +:+ bs +:+ "Foo" +:+ bs +:+ "Bar") = normalize_cwd "c:/foo/bar/".
Proof.
  split; [exact normalize_cwd_unfold|].
  split; [exact normalize_no_bslash|].
  split; [exact normalize_rstrip|].
  split; [exact normalize_lower|].
  split; [exact normalize_of_lower|].
  split; [exact normalize_of_separators|].
  split; [exact normalize_strips_verbatim|].
  reflexivity.
Qed.

(** ** Dictionaries *)

Module PyDictFacts.
Section Facts.
Context {V : Type}.
Implicit Types (d : list (string * V)) (k : string) (v : V).

Lemma lookup_set_eq k v d : PyDict.lookup k (PyDict.set k v d) = Some v.
Proof.
  induction d as [|[k' v'] d IH]; simpl.
  - by rewrite String.eqb_refl.
  - destruct (String.eqb k' k) eqn:E; simpl; rewrite E; [done | exact IH].
Qed.

Lemma lookup_set_ne k k' v d :
  k <> k' -> PyDict.lookup k' (PyDict.set k v d) = PyDict.lookup k' d.
Proof.
  intros Hne. induction d as [|[k0 v0] d IH]; simpl.
  - by apply String.eqb_neq in Hne as ->.
  - destruct (String.eqb k0 k) eqn:E; simpl; [|by rewrite IH].
    apply String.eqb_eq in E as ->. by apply String.eqb_neq in Hne as ->.
Qed.

(** Writing a key of [ks] leaves the items outside [ks] as they were,
    values and order. *)
Lemma others_set ks k v d :
  existsb (String.eqb k) ks = true ->
  PyDict.others ks (PyDict.set k v d) = PyDict.others ks d.
Proof.
  intros Hk. unfold PyDict.others. induction d as [|[k0 v0] d IH]; simpl.
  - by rewrite Hk.
  - destruct (String.eqb k0 k) eqn:E; simpl; [|by rewrite IH].
    apply String.eqb_eq in E as ->. by rewrite Hk.
Qed.

(** An existing key keeps its place; a new one is put last. *)
Lemma keys_set k v d :
  PyDict.keys (PyDict.set k v d) =
  match PyDict.lookup k d with
  | Some _ => PyDict.keys d
  | None => PyDict.keys d ++ [k]
  end.
Proof.
  unfold PyDict.keys. induction d as [|[k0 v0] d IH]; simpl; [done|].
  destruct (String.eqb k0 k) eqn:E; simpl; [done|].
  rewrite IH. by destruct (PyDict.lookup k d).
Qed.

End Facts.
End PyDictFacts.

(** ** Python values *)

Lemma py_get_dict d k dflt : py_get (JDict d) k dflt = Ok (default dflt (PyDict.lookup k d)).
Proof. unfold py_get. by destruct (PyDict.lookup k d). Qed.

Lemma py_eq_str_kind d kind :
  py_eq_str (default JNull (PyDict.lookup "type" d)) kind = is_kind (JDict d) kind.
Proof.
  unfold is_kind, field. destruct (PyDict.lookup "type" d) as [[]|]; reflexivity.
Qed.

Ltac dict_simpl :=
  repeat first
    [ progress (cbn [at_path foldl mbind option_bind field items_of default from_option id])
    | rewrite PyDictFacts.lookup_set_eq
    | rewrite PyDictFacts.lookup_set_ne by discriminate
    | rewrite PyDictFacts.others_set by reflexivity
    | match goal with H : PyDict.lookup _ _ = _ |- _ => rewrite H end ].

(** ** Identity rehydration *)

Lemma update_cwd_and_id_effect obj new_cwd new_cid :
  is_record obj = true ->
  exists obj',
    update_cwd_and_id obj new_cwd new_cid = Ok obj' /\ rehydrated obj new_cwd new_cid obj'.
Proof.
  destruct obj as [| | | | | |d]; try discriminate.
  unfold is_record, update_cwd_and_id, rehydrated.
  rewrite !py_get_dict. cbn [mbind result_bind].
  rewrite !py_eq_str_kind.
  destruct (is_kind (JDict d) "session_meta") eqn:Ksm;
    [|destruct (is_kind (JDict d) "turn_context") eqn:Ktc].
  - destruct (PyDict.lookup "payload" d) as [[| | | | | |p]|] eqn:Ep; try discriminate.
    + intros Hm. simpl.
      destruct (PyDict.lookup "meta" p) as [[| | | | | |m]|] eqn:Em; try discriminate.
      * simpl. eexists; split; [reflexivity|]. repeat split; dict_simpl; try reflexivity.
      * simpl. eexists; split; [reflexivity|]. repeat split; dict_simpl; try reflexivity.
    + intros _. simpl. eexists; split; [reflexivity|]. repeat split; dict_simpl; try reflexivity.
  - destruct (PyDict.lookup "payload" d) as [[| | | | | |p]|] eqn:Ep; try discriminate.
    + intros _. simpl. eexists; split; [reflexivity|]. repeat split; dict_simpl; try reflexivity.
    + intros _. simpl. eexists; split; [reflexivity|]. repeat split; dict_simpl; try reflexivity.
  - intros _. eexists; split; [reflexivity|]. split; reflexivity.
Qed.

(** On a value that is no Record the assignment or the lookup raises. *)
Lemma update_cwd_and_id_raises obj new_cwd new_cid :
  is_record obj = false -> exists e, update_cwd_and_id obj new_cwd new_cid = Raise e.
Proof.
  destruct obj as [| | | | | |d]; try (intros _; eexists; reflexivity).
  unfold is_record, update_cwd_and_id.
  rewrite !py_get_dict. cbn [mbind result_bind].
  rewrite !py_eq_str_kind.
  destruct (is_kind (JDict d) "session_meta") eqn:Ksm;
    [|destruct (is_kind (JDict d) "turn_context") eqn:Ktc].
  - destruct (PyDict.lookup "payload" d) as [[| | | | | |p]|] eqn:Ep;
      try discriminate; try (intros _; eexists; reflexivity).
    simpl. destruct (PyDict.lookup "meta" p) as [[| | | | | |m]|] eqn:Em;
      try discriminate; intros _; eexists; reflexivity.
  - destruct (PyDict.lookup "payload" d) as [[| | | | | |p]|] eqn:Ep;
      try discriminate; intros _; eexists; reflexivity.
  - discriminate.
Qed.

(** C6: on every Record, rehydration returns a record in which a
    session-identity record has the identity block's cwd and id set to the
    replacements, a context-switch record has the payload cwd set, a record
    of any other kind is the record given; the fields of the record other
    than its payload, the fields of the payload other than the identity
    block (or the cwd), and the fields of the identity block other than cwd
    and id are the same items, in the same order, before and after. *)
Theorem update_cwd_and_id_frame (obj new_cwd new_cid : json) :
  is_record obj = true ->
  exists obj',
    update_cwd_and_id obj new_cwd new_cid = Ok obj' /\
    PyDict.others ["payload"] (items_of (Some obj')) =
      PyDict.others ["payload"] (items_of (Some obj)) /\
    if is_kind obj "session_meta" then
      at_path obj' ["payload"; "meta"; "cwd"] = Some new_cwd /\
      at_path obj' ["payload"; "meta"; "id"] = Some new_cid /\
      PyDict.others ["meta"] (items_of (field obj' "payload")) =
        PyDict.others ["meta"] (items_of (field obj "payload")) /\
      PyDict.others ["cwd"; "id"] (items_of (at_path obj' ["payload"; "meta"])) =
        PyDict.others ["cwd"; "id"] (items_of (at_path obj ["payload"; "meta"]))
    else if is_kind obj "turn_context" then
      at_path obj' ["payload"; "cwd"] = Some new_cwd /\
      PyDict.others ["cwd"] (items_of (field obj' "payload")) =
        PyDict.others ["cwd"] (items_of (field obj "payload"))
    else obj' = obj.
Proof. exact (update_cwd_and_id_effect obj new_cwd new_cid). Qed.

Example update_session_meta :
  update_cwd_and_id (session_meta "/work/proj" "OLD") (JStr "/Work/Proj") (JStr "T1")
  = Ok (session_meta "/Work/Proj" "T1").
Proof. reflexivity. Qed.

Lemma update_cwd_and_id_frame_witness :
  exists obj',
    update_cwd_and_id (session_meta "/work/proj" "OLD") (JStr "/Work/Proj") (JStr "T1") = Ok obj' /\
    at_path obj' ["payload"; "meta"; "id"] = Some (JStr "T1") /\
    field obj' "type" = Some (JStr "session_meta").
Proof.
  destruct (update_cwd_and_id_frame (session_meta "/work/proj" "OLD")
              (JStr "/Work/Proj") (JStr "T1") eq_refl) as (obj' & Hup & _ & _ & Hid & _).
  exists obj'. split; [exact Hup|]. split; [exact Hid|].
  vm_compute in Hup. injection Hup as <-. reflexivity.
Defined.

(** ** Selection by what came before *)

Lemma omap_ext_in {A B} (f g : A -> option B) (l : list A) :
  (forall x, x ∈ l -> f x = g x) -> omap f l = omap g l.
Proof.
  induction l as [|a l IH]; intros H; csimpl; [done|].
  rewrite (H a) by left. rewrite IH; [done|]. intros x Hx. apply H. by right.
Qed.

Lemma kept_when_nil {A} (keep : list A -> A -> bool) : kept_when keep [] = [].
Proof. reflexivity. Qed.

Lemma kept_when_snoc {A} (keep : list A -> A -> bool) (xs : list A) (x : A) :
  kept_when keep (xs ++ [x]) = kept_when keep xs ++ (if keep xs x then [x] else []).
Proof.
  unfold kept_when. rewrite length_app. simpl.
  replace (length xs + 1) with (S (length xs)) by lia.
  rewrite seq_S, omap_app. simpl. f_equal.
  - apply omap_ext_in. intros i Hi. apply elem_of_seq in Hi.
    rewrite lookup_app_l by lia. rewrite take_app_le by lia. reflexivity.
  - rewrite list_lookup_middle by done. simpl.
    rewrite take_app_length. by destruct (keep xs x).
Qed.

Section Scan.
Variable py_repr : json -> string.

Lemma read_new_cwd_record obj :
  is_record obj = true -> read_new_cwd obj = Ok (default JNull (carried_cwd obj)).
Proof.
  destruct obj as [| | | | | |d]; try discriminate.
  unfold is_record, read_new_cwd, carried_cwd.
  rewrite !py_get_dict. cbn [mbind result_bind]. rewrite !py_eq_str_kind.
  destruct (is_kind (JDict d) "session_meta"); [|destruct (is_kind (JDict d) "turn_context")].
  - simpl. destruct (PyDict.lookup "payload" d) as [[| | | | | |p]|]; try discriminate; [|done].
    simpl. destruct (PyDict.lookup "meta" p) as [[| | | | | |m]|]; try discriminate; [|done].
    intros _. simpl. by destruct (PyDict.lookup "cwd" m).
  - simpl. destruct (PyDict.lookup "payload" d) as [[| | | | | |p]|]; try discriminate; [|done].
    intros _. simpl. by destruct (PyDict.lookup "cwd" p).
  - done.
Qed.

Lemma read_new_cwd_raises obj :
  is_record obj = false -> read_new_cwd obj = Raise AttributeError.
Proof.
  destruct obj as [| | | | | |d]; try reflexivity.
  unfold is_record, read_new_cwd.
  rewrite !py_get_dict. cbn [mbind result_bind]. rewrite !py_eq_str_kind.
  destruct (is_kind (JDict d) "session_meta"); [|destruct (is_kind (JDict d) "turn_context")].
  - destruct (PyDict.lookup "payload" d) as [[| | | | | |p]|]; try discriminate; try reflexivity.
    simpl. destruct (PyDict.lookup "meta" p) as [[| | | | | |m]|]; try discriminate; reflexivity.
  - destruct (PyDict.lookup "payload" d) as [[| | | | | |p]|]; try discriminate; reflexivity.
  - discriminate.
Qed.

Lemma active_context_snoc rs r :
  active_context py_repr (rs ++ [r]) =
  match declared_context py_repr r with
  | Some c => Some c
  | None => active_context py_repr rs
  end.
Proof.
  unfold active_context. rewrite omap_app. simpl.
  destruct (declared_context py_repr r).
  - by rewrite last_snoc.
  - by rewrite app_nil_r.
Qed.

(** The update of [current_cwd] at line 104-105 is the declared context. *)
Lemma current_cwd_step obj current :
  (if truthy (default JNull (carried_cwd obj))
   then Some (normalize_cwd (py_str py_repr (default JNull (carried_cwd obj))))
   else current) =
  match declared_context py_repr obj with Some c => Some c | None => current end.
Proof.
  unfold declared_context. destruct (carried_cwd obj) as [v|]; simpl; [|done].
  by destruct (truthy v).
Qed.

Lemma context_matches_spec current target :
  context_matches current target =
  bool_decide (current = Some target) && PyStr.nonempty target.
Proof.
  unfold context_matches. destruct current as [c|]; [|done].
  destruct (String.eqb_spec c target) as [->|Hne].
  - case_bool_decide; [|done]. by rewrite andb_true_r.
  - case_bool_decide; [congruence|]. by rewrite andb_false_r.
Qed.

Lemma collect_loop_spec target fh read :
  is_log fh = true ->
  collect_loop py_repr target fh (scan_spec py_repr target read) (active_context py_repr read)
  = Ok (scan_spec py_repr target (read ++ docs fh)).
Proof.
  revert read. induction fh as [|[| |obj] fh IH]; intros read Hlog; simpl.
  - by rewrite app_nil_r.
  - by apply IH.
  - by apply IH.
  - unfold is_log in Hlog. simpl in Hlog. apply andb_prop in Hlog as [Hobj Hlog].
    rewrite (read_new_cwd_record _ Hobj). cbn [mbind result_bind].
    rewrite current_cwd_step, <- active_context_snoc, context_matches_spec.
    replace (read ++ obj :: docs fh) with ((read ++ [obj]) ++ docs fh)
      by (by rewrite <- app_assoc).
    rewrite <- (IH (read ++ [obj]) Hlog). f_equal.
    unfold scan_spec at 3. rewrite kept_when_snoc. fold (scan_spec py_repr target read).
    destruct (_ && _); [done | by rewrite app_nil_r].
Qed.

Lemma collect_loop_raises target fh lines current :
  is_log fh = false ->
  collect_loop py_repr target fh lines current = Raise AttributeError.
Proof.
  revert lines current. induction fh as [|[| |obj] fh IH]; intros lines current Hlog; simpl.
  - discriminate.
  - by apply IH.
  - by apply IH.
  - unfold is_log in Hlog. simpl in Hlog.
    destruct (is_record obj) eqn:Hobj.
    + rewrite (read_new_cwd_record _ Hobj). cbn [mbind result_bind]. by apply IH.
    + by rewrite (read_new_cwd_raises _ Hobj).
Qed.

Lemma collect_spec fh target :
  collect_cwd_filtered_lines py_repr (Some fh) target =
  if is_log fh then Ok (scan_spec py_repr target (docs fh)) else Raise AttributeError.
Proof.
  unfold collect_cwd_filtered_lines. destruct (is_log fh) eqn:Hlog.
  - exact (collect_loop_spec target fh [] Hlog).
  - by apply collect_loop_raises.
Qed.

End Scan.

(** ** De-duplication *)

Lemma kept_when_elem {A} (keep : list A -> A -> bool) (xs : list A) (x : A) :
  x ∈ kept_when keep xs -> x ∈ xs.
Proof.
  induction xs as [|y xs IH] using rev_ind; [by rewrite kept_when_nil|].
  rewrite kept_when_snoc, !elem_of_app. intros [H|H]; [left; auto|right].
  by destruct (keep xs y); [|apply elem_of_nil in H].
Qed.

Lemma kept_when_sublist {A} (keep : list A -> A -> bool) (xs : list A) :
  sublist (kept_when keep xs) xs.
Proof.
  induction xs as [|y xs IH] using rev_ind; [by rewrite kept_when_nil|].
  rewrite kept_when_snoc. apply sublist_app; [done|].
  destruct (keep xs y); [done|]. apply sublist_nil_l.
Qed.

Lemma kept_when_none {A} (keep : list A -> A -> bool) (xs : list A) :
  (forall before x, keep before x = false) -> kept_when keep xs = [].
Proof.
  intros H. induction xs as [|y xs IH] using rev_ind; [done|].
  by rewrite kept_when_snoc, IH, H.
Qed.

Section DedupFacts.
Context {A K : Type} `{EqDecision K} (key : A -> K).

Lemma first_occurrences_snoc xs x :
  first_occurrences key (xs ++ [x]) =
  first_occurrences key xs ++ (if decide (key x ∈ map key xs) then [] else [x]).
Proof.
  unfold first_occurrences. rewrite kept_when_snoc. f_equal.
  by case_bool_decide; case_decide.
Qed.

Lemma first_occurrences_keys xs k :
  k ∈ map key (first_occurrences key xs) <-> k ∈ map key xs.
Proof.
  induction xs as [|x xs IH] using rev_ind; [done|].
  rewrite first_occurrences_snoc, !map_app, !elem_of_app, IH.
  destruct (decide (key x ∈ map key xs)) as [Hin|Hin]; simpl; [|done].
  rewrite elem_of_nil, list_elem_of_singleton. split; [tauto|].
  intros [?| ->]; auto.
Qed.

Lemma first_occurrences_NoDup xs : NoDup (map key (first_occurrences key xs)).
Proof.
  induction xs as [|x xs IH] using rev_ind; [constructor|].
  rewrite first_occurrences_snoc, map_app. apply NoDup_app. split; [done|].
  destruct (decide (key x ∈ map key xs)) as [Hin|Hin]; simpl.
  - split; [|constructor]. intros ? _. apply not_elem_of_nil.
  - split; [|apply NoDup_singleton].
    intros k Hk ->%list_elem_of_singleton. by apply Hin, first_occurrences_keys.
Qed.

Lemma first_occurrences_id xs : NoDup (map key xs) -> first_occurrences key xs = xs.
Proof.
  induction xs as [|x xs IH] using rev_ind; [done|].
  rewrite map_app, NoDup_app. intros (Hxs & Hdisj & _).
  rewrite first_occurrences_snoc, IH by done.
  rewrite decide_False; [done|]. intros Hin. apply (Hdisj _ Hin). simpl. left.
Qed.

Lemma first_occurrences_idem xs :
  first_occurrences key (first_occurrences key xs) = first_occurrences key xs.
Proof. apply first_occurrences_id, first_occurrences_NoDup. Qed.

(** The loop, started after [read] with what [read] leaves in [seen] and
    [out], ends as first occurrences. *)
Lemma dedup_loop_spec objs read seen out :
  (forall k, k ∈ seen <-> k ∈ map key read) ->
  out = first_occurrences key read ->
  dedup_loop key objs seen out = first_occurrences key (read ++ objs).
Proof.
  revert read seen out. induction objs as [|obj objs IH]; intros read seen out Hseen ->; simpl.
  - by rewrite app_nil_r.
  - replace (read ++ obj :: objs) with ((read ++ [obj]) ++ objs) by (by rewrite <- app_assoc).
    destruct (decide (key obj ∈ seen)) as [Hin|Hin].
    + apply IH.
      * intros k. rewrite Hseen, map_app, elem_of_app. simpl.
        rewrite list_elem_of_singleton. split; [tauto|]. intros [?| ->]; [done|].
        by apply Hseen.
      * rewrite first_occurrences_snoc, decide_True by (by apply Hseen).
        by rewrite app_nil_r.
    + apply IH.
      * intros k. rewrite elem_of_cons, Hseen, map_app, elem_of_app. simpl.
        rewrite list_elem_of_singleton. tauto.
      * rewrite first_occurrences_snoc, decide_False; [done|]. by rewrite <- Hseen.
Qed.

Lemma dedup_loop_first_occurrences objs :
  dedup_loop key objs [] [] = first_occurrences key objs.
Proof. by apply (dedup_loop_spec objs [] [] []). Qed.

End DedupFacts.

(** ** Choice of the backup *)

Lemma head_insert_by_len p sorted :
  head (insert_by_len p sorted) =
  match head sorted with
  | None => Some p
  | Some q => if (String.length p <? String.length q)%nat then Some q else Some p
  end.
Proof. destruct sorted as [|q sorted]; simpl; [done|]. by destruct (_ <? _)%nat. Qed.

Lemma insert_by_len_perm p sorted : insert_by_len p sorted ≡ₚ p :: sorted.
Proof.
  induction sorted as [|q sorted IH]; simpl; [done|].
  destruct (_ <? _)%nat; [|done]. rewrite IH. apply Permutation_swap.
Qed.

Lemma sort_by_len_desc_perm cs : sort_by_len_desc cs ≡ₚ cs.
Proof.
  induction cs as [|p cs IH]; simpl; [done|].
  by rewrite insert_by_len_perm, IH.
Qed.

Lemma order_candidates_sort cs : order_candidates cs = sort_by_len_desc cs.
Proof. by destruct cs as [|p [|q cs]]. Qed.

(** The head of the sorted list is the first of the longest names. *)
Lemma sort_by_len_desc_head p cs :
  exists pre c post,
    p :: cs = pre ++ c :: post /\
    head (sort_by_len_desc (p :: cs)) = Some c /\
    Forall (fun x => String.length x < String.length c) pre /\
    Forall (fun x => String.length x <= String.length c) post.
Proof.
  revert p. induction cs as [|q cs IH]; intros p.
  - exists [], p, []. by repeat split.
  - destruct (IH q) as (pre & c & post & Heq & Hhd & Hpre & Hpost).
    change (sort_by_len_desc (p :: q :: cs))
      with (insert_by_len p (sort_by_len_desc (q :: cs))).
    rewrite head_insert_by_len, Hhd.
    destruct (String.length p <? String.length c)%nat eqn:E.
    + apply Nat.ltb_lt in E. exists (p :: pre), c, post.
      rewrite Heq. repeat split; [|done]. by constructor.
    + apply Nat.ltb_ge in E. exists [], p, (q :: cs).
      repeat split; [constructor|]. rewrite Heq. apply Forall_app. split.
      * eapply Forall_impl; [exact Hpre|]. simpl. lia.
      * constructor; [done|]. eapply Forall_impl; [exact Hpost|]. simpl. lia.
Qed.

(** The first of the longest names comes first. *)
Lemma sort_by_len_desc_first_longest pre c post :
  Forall (fun x => String.length x < String.length c) pre ->
  Forall (fun x => String.length x <= String.length c) post ->
  head (sort_by_len_desc (pre ++ c :: post)) = Some c.
Proof.
  intros Hpre Hpost. induction Hpre as [|x pre Hx _ IH].
  - change (sort_by_len_desc ([] ++ c :: post)) with (insert_by_len c (sort_by_len_desc post)).
    rewrite head_insert_by_len.
    destruct (head (sort_by_len_desc post)) as [q|] eqn:Hq; [|done].
    assert (q ∈ post) as Hin.
    { rewrite <- (sort_by_len_desc_perm post).
      destruct (sort_by_len_desc post); [discriminate|]. injection Hq as ->. by left. }
    rewrite Forall_forall in Hpost. specialize (Hpost q Hin).
    by apply Nat.ltb_ge in Hpost as ->.
  - change (sort_by_len_desc ((x :: pre) ++ c :: post))
      with (insert_by_len x (sort_by_len_desc (pre ++ c :: post))).
    rewrite head_insert_by_len, IH. by apply Nat.ltb_lt in Hx as ->.
Qed.

Lemma order_candidates_longest cs c :
  c ∈ cs ->
  (forall x, x ∈ cs -> x <> c -> String.length x < String.length c) ->
  head (order_candidates cs) = Some c.
Proof.
  intros Hc Hlong. rewrite order_candidates_sort.
  destruct cs as [|p cs]; [by apply elem_of_nil in Hc|].
  destruct (sort_by_len_desc_head p cs) as (pre & c0 & post & Heq & Hhd & Hpre & Hpost).
  rewrite Hhd. f_equal. destruct (decide (c0 = c)) as [|Hne]; [done|]. exfalso.
  assert (c0 ∈ p :: cs) as Hc0 by (rewrite Heq, elem_of_app, elem_of_cons; auto).
  specialize (Hlong c0 Hc0 Hne).
  rewrite Heq in Hc. apply elem_of_app in Hc as [Hc|Hc].
  - rewrite Forall_forall in Hpre. specialize (Hpre c Hc). lia.
  - apply elem_of_cons in Hc as [Hc|Hc]; [congruence|].
    rewrite Forall_forall in Hpost. specialize (Hpost c Hc). lia.
Qed.

(** ** Per-file repair *)

Lemma length_slice_to n s :
  String.length (PyStr.slice_to n s) = Nat.min n (String.length s).
Proof. revert s; induction n as [|n IH]; intros [|c s]; simpl; auto. Qed.

Lemma ts_prefix_length name ts :
  ts_prefix_from_name name = Some ts -> String.length ts = 19.
Proof.
  unfold ts_prefix_from_name. destruct (negb _); [discriminate|].
  set (core := PyStr.slice_from _ name).
  destruct (19 <=? String.length core)%nat eqn:E; [|discriminate].
  apply Nat.leb_le in E. pose proof (length_slice_to 19 core) as Hl. revert Hl.
  generalize (PyStr.slice_to 19 core). intros r Hl [= <-]. lia.
Qed.

Lemma ts_prefix_nonempty name ts :
  ts_prefix_from_name name = Some ts -> PyStr.nonempty ts = true.
Proof. intros H%ts_prefix_length. by destruct ts. Qed.

Lemma is_log_records fh : is_log fh = true -> Forall (fun r => is_record r = true) (docs fh).
Proof. unfold is_log. rewrite forallb_forall, Forall_forall. intros H x Hx. by apply H, list_elem_of_In. Qed.

Section RepairFacts.
Variable py_repr : json -> string.
Variable encodable : json -> bool.

Lemma collect_ok_records src target ls :
  collect_cwd_filtered_lines py_repr src target = Ok ls ->
  Forall (fun r => is_record r = true) ls.
Proof.
  destruct src as [fh|]; [|by intros [= <-]].
  rewrite collect_spec. destruct (is_log fh) eqn:Hlog; [|discriminate].
  intros [= <-]. apply is_log_records in Hlog. rewrite Forall_forall in *.
  intros x Hx. apply Hlog. eapply kept_when_elem, Hx.
Qed.

Lemma map_result_update new_cwd new_cid ls :
  Forall (fun r => is_record r = true) ls ->
  map_result (fun obj => update_cwd_and_id obj new_cwd new_cid) ls
  = Ok (map (rehydrate new_cwd new_cid) ls).
Proof.
  induction 1 as [|obj ls Hobj _ IH]; simpl; [done|].
  unfold rehydrate at 1.
  destruct (update_cwd_and_id_effect obj new_cwd new_cid Hobj) as (obj' & -> & _).
  cbn [mbind result_bind]. by rewrite IH.
Qed.

Lemma has_double_star_app_dash s rest :
  has_double_star (s +:+ String "-" rest) = has_double_star s || has_double_star (String "-" rest).
Proof.
  induction s as [|c s IH]; [done|].
  change (String c s +:+ String "-" rest) with (String c (s +:+ String "-" rest)).
  cbn [has_double_star]. rewrite IH. destruct s as [|c' s]; [|by rewrite orb_assoc].
  cbn [String.append has_double_star]. change ("" +:+ String "-" rest) with (String "-" rest).
  cbn [has_double_star]. by rewrite !andb_false_r.
Qed.

(** [glob] refuses the pattern of line 137 exactly when the prefix holds
    [**]. *)
Lemma has_double_star_pattern ts : has_double_star (backup_pattern ts) = has_double_star ts.
Proof.
  unfold backup_pattern.
  change ("rollout-" +:+ ts +:+ "-*.mixed.bak")
    with (String "r" (String "o" (String "l" (String "l" (String "o" (String "u"
           (String "t" (String "-" (ts +:+ String "-" "*.mixed.bak"))))))))).
  cbn [has_double_star Ascii.eqb Bool.eqb andb orb].
  rewrite has_double_star_app_dash.
  replace (has_double_star (String "-" "*.mixed.bak")) with false by reflexivity.
  rewrite orb_false_r.
  destruct ts as [|c ts]; [reflexivity|].
  change (String c ts +:+ String "-" "*.mixed.bak")
    with (String c (ts +:+ String "-" "*.mixed.bak")).
  reflexivity.
Qed.

Lemma glob_spec fs ts :
  glob fs (backup_pattern ts) =
  if has_double_star ts then Raise ValueError else Ok (fs_glob fs (backup_pattern ts)).
Proof. unfold glob. by rewrite has_double_star_pattern. Qed.

Lemma glob_ok fs ts cs :
  glob fs (backup_pattern ts) = Ok cs ->
  has_double_star ts = false /\ cs = fs_glob fs (backup_pattern ts).
Proof. rewrite glob_spec. destruct (has_double_star ts); [discriminate|]. by intros [= <-]. Qed.

Lemma glob_raise fs ts e :
  glob fs (backup_pattern ts) = Raise e -> has_double_star ts = true /\ e = ValueError.
Proof. rewrite glob_spec. destruct (has_double_star ts); [|discriminate]. by intros [= <-]. Qed.

Lemma star_prefix_ts name ts :
  ts_prefix_from_name name = Some ts -> star_prefix name = has_double_star ts.
Proof. unfold star_prefix. by intros ->. Qed.

Lemma write_loop_spec merged written :
  write_loop encodable merged written =
  (if forallb encodable merged then Ok tt else Raise UnicodeEncodeError,
   written ++ writable_prefix encodable merged).
Proof.
  revert written. induction merged as [|obj merged IH]; intros written; simpl.
  - by rewrite app_nil_r.
  - destruct (encodable obj); simpl; [|by rewrite app_nil_r].
    by rewrite IH, <- app_assoc.
Qed.

Lemma write_jsonl_spec name merged fs :
  write_jsonl encodable name merged fs =
  (if forallb encodable merged then Ok tt else Raise UnicodeEncodeError,
   fs_put name (writable_prefix encodable merged) fs).
Proof. unfold write_jsonl. by rewrite write_loop_spec. Qed.

Lemma writable_prefix_all merged :
  forallb encodable merged = true -> writable_prefix encodable merged = merged.
Proof.
  induction merged as [|obj merged IH]; [done|]. simpl.
  intros [-> H]%andb_prop. by rewrite IH.
Qed.

(** A write that fails stops at the first document that cannot be
    encoded. *)
Lemma writable_prefix_stops merged :
  forallb encodable merged = false ->
  exists obj rest,
    merged = writable_prefix encodable merged ++ obj :: rest /\
    encodable obj = false /\
    forallb encodable (writable_prefix encodable merged) = true.
Proof.
  induction merged as [|obj merged IH]; [done|]. simpl.
  destruct (encodable obj) eqn:Hobj; simpl.
  - intros (obj' & rest & Hm & Hobj' & Hall)%IH. exists obj', rest.
    split; [by rewrite <- Hm|]. split; [done|]. by rewrite Hobj.
  - intros _. by exists obj, merged.
Qed.

(** The states and what the code does in each.  The code calls [glob]
    before it has a candidate: with a prefix that holds [**] it raises
    where the specification finds no candidate or goes on. *)
Lemma process_jsonl_states fs jsonl_path dry_run :
  process_jsonl py_repr encodable fs jsonl_path dry_run =
  match repair_state_of py_repr fs jsonl_path with
  | NoIdentity | NoTimestamp => (Ok false, fs)
  | NoCandidate | NoMatchingRecords =>
      if star_prefix jsonl_path then (Raise ValueError, fs) else (Ok false, fs)
  | ScanRaised e =>
      if star_prefix jsonl_path then (Raise ValueError, fs) else (Raise e, fs)
  | Repaired merged =>
      if star_prefix jsonl_path then (Raise ValueError, fs)
      else if dry_run then (Ok true, fs)
      else (if forallb encodable merged then Ok true else Raise UnicodeEncodeError,
            fs_put jsonl_path (writable_prefix encodable merged) fs)
  end.
Proof.
  unfold process_jsonl, repair_state_of, identity_absent, star_prefix.
  destruct (fs_read fs jsonl_path) as [fh|] eqn:Hread; [|reflexivity].
  destruct (extract_cwd_and_id_from_jsonl (Some fh)) as [cwd cid]. simpl fst; simpl snd.
  destruct (negb (truthy cwd) || negb (truthy cid)); [reflexivity|].
  destruct (ts_prefix_from_name jsonl_path) as [ts|] eqn:Hts; [|reflexivity].
  rewrite (ts_prefix_nonempty _ _ Hts). cbn [negb from_option].
  rewrite glob_spec.
  destruct (has_double_star ts).
  { destruct (order_candidates _) as [|src rest]; [done|].
    by destruct (collect_cwd_filtered_lines _ _ _) as [[|r rs]|e]. }
  destruct (fs_glob fs (backup_pattern ts)) as [|p cs]; [reflexivity|].
  destruct (sort_by_len_desc_head p cs) as (_ & src_path & _ & _ & Hhd & _).
  rewrite <- order_candidates_sort in Hhd.
  destruct (order_candidates (p :: cs)) as [|src_path' rest]; [discriminate|].
  clear Hhd src_path.
  destruct (collect_cwd_filtered_lines py_repr (fs_read fs src_path') _) as [ls|e] eqn:Hscan;
    [|reflexivity].
  apply collect_ok_records in Hscan.
  destruct ls as [|r ls]; [reflexivity|].
  rewrite (map_result_update _ _ _ Hscan). simpl default.
  destruct dry_run; [done|]. rewrite write_jsonl_spec.
  by destruct (forallb encodable _).
Qed.

End RepairFacts.

(** ** The claims about the scanner *)

Example scan_scenario :
  collect_cwd_filtered_lines sample_repr (Some sample_backup) (normalize_cwd "/Work/Proj/")
  = Ok [session_meta "/work/proj" "OLD"; data_record 1].
Proof. reflexivity. Qed.

Example scan_missing_file target :
  collect_cwd_filtered_lines sample_repr None target = Ok [].
Proof. reflexivity. Qed.

Example scan_not_a_record :
  collect_cwd_filtered_lines sample_repr (Some [Doc (JList [])]) "/work/proj"
  = Raise AttributeError.
Proof. reflexivity. Qed.

(** C1, as stated, fails for the target path that is the empty string (the
    normal form of the root directory): the record that declares that very
    context has an active context equal to the target, and the scanner does
    not return it. *)
Lemma scan_claimed_differs :
  normalize_cwd "/" = "" /\
  active_context sample_repr [session_meta "/" "S"] = Some (normalize_cwd "/") /\
  scan_claimed sample_repr (normalize_cwd "/") [session_meta "/" "S"] = [session_meta "/" "S"] /\
  collect_cwd_filtered_lines sample_repr (Some [Doc (session_meta "/" "S")]) (normalize_cwd "/")
  = Ok [].
Proof. repeat split; vm_compute; reflexivity. Qed.

(** C1 (amended): on a backup log whose parseable lines are Records, for
    every target path, the scanner returns exactly the parseable records
    whose active context (the normalised cwd of the most recent
    session-identity or context-switch record that carries a non-empty
    cwd, inherited by the records that carry none) equals the target path
    and is not the empty string at the moment the record is read, in the
    original order, the record that sets the context included. *)
Theorem collect_cwd_filtered_lines_spec
    (py_repr : json -> string) (fh : list line) (target : string) :
  is_log fh = true ->
  collect_cwd_filtered_lines py_repr (Some fh) target
  = Ok (scan_spec py_repr target (docs fh)).
Proof. intros Hlog. by rewrite collect_spec, Hlog. Qed.

Lemma collect_cwd_filtered_lines_spec_witness :
  collect_cwd_filtered_lines sample_repr (Some sample_backup) "/work/proj"
  = Ok [session_meta "/work/proj" "OLD"; data_record 1].
Proof.
  exact (collect_cwd_filtered_lines_spec sample_repr sample_backup "/work/proj" eq_refl).
Defined.

(** ** The sorted-keys serialisation does not depend on the order of the keys *)

Lemma insert_item_perm kv d : insert_item kv d ≡ₚ kv :: d.
Proof.
  induction d as [|kv' d IH]; simpl; [done|].
  destruct (String.leb _ _); [done|]. rewrite IH. apply Permutation_swap.
Qed.

Lemma sort_items_perm d : sort_items d ≡ₚ d.
Proof.
  induction d as [|kv d IH]; simpl; [done|]. by rewrite insert_item_perm, IH.
Qed.

Lemma insert_item_sorted kv d :
  StronglySorted key_le d -> StronglySorted key_le (insert_item kv d).
Proof.
  induction 1 as [|kv' d Hd IH Hall]; simpl.
  - repeat constructor.
  - destruct (String.leb (fst kv) (fst kv')) eqn:E.
    + constructor; [by constructor|]. constructor; [by apply Is_true_true|].
      eapply Forall_impl; [exact Hall|]. intros x Hx. unfold key_le in *.
      etrans; [|exact Hx]. by apply Is_true_true.
    + constructor; [done|].
      rewrite insert_item_perm. constructor; [|done].
      unfold key_le, String.le. destruct (total String.le (fst kv) (fst kv')) as [H|H]; [|done].
      unfold String.le in H. by rewrite E in H.
Qed.

Lemma sort_items_sorted d : StronglySorted key_le (sort_items d).
Proof.
  induction d as [|kv d IH]; simpl; [constructor|]. by apply insert_item_sorted.
Qed.

Lemma items_functional (d : list (string * json)) k v1 v2 :
  NoDup (PyDict.keys d) -> (k, v1) ∈ d -> (k, v2) ∈ d -> v1 = v2.
Proof.
  unfold PyDict.keys. induction d as [|[k' v'] d IH]; intros Hnd H1 H2.
  - by apply elem_of_nil in H1.
  - cbn [map fst] in Hnd. apply NoDup_cons in Hnd as [Hk Hnd].
    apply elem_of_cons in H1 as [H1|H1], H2 as [H2|H2].
    + congruence.
    + injection H1 as <- <-. exfalso. apply Hk.
      by apply (list_elem_of_fmap_2' fst _ (k, v2)).
    + injection H2 as <- <-. exfalso. apply Hk.
      by apply (list_elem_of_fmap_2' fst _ (k, v1)).
    + by apply IH.
Qed.

Lemma sort_items_perm_eq d d' :
  NoDup (PyDict.keys d) -> d ≡ₚ d' -> sort_items d = sort_items d'.
Proof.
  intros Hnd Hperm.
  apply (StronglySorted_unique_strong key_le); [|apply sort_items_sorted..|].
  - intros [k1 v1] [k2 v2] H1 H2 Hle Hge.
    rewrite sort_items_perm in H1. rewrite sort_items_perm, <- Hperm in H2.
    assert (k1 = k2) as <- by (by apply (anti_symm String.le)).
    f_equal. by apply (items_functional d k1).
  - by rewrite !sort_items_perm.
Qed.

(** Two dictionaries with the same items in different orders get the
    same key. *)
Lemma dumps_sorted_perm d d' :
  NoDup (PyDict.keys d) -> d ≡ₚ d' -> dumps_sorted (JDict d) = dumps_sorted (JDict d').
Proof.
  intros Hnd Hperm. simpl. f_equal. apply sort_items_perm_eq.
  - unfold PyDict.keys in *. by rewrite map_map.
  - by apply Permutation_map.
Qed.

(** ** The claims about merge and de-duplication *)

Lemma dedup_first_occurrences xs :
  dedup_preserve_order xs = first_occurrences dumps_sorted xs.
Proof. apply dedup_loop_first_occurrences. Qed.

Example dumps_sorted_order : record_ab <> record_ba /\ dumps_sorted record_ab = dumps_sorted record_ba.
Proof. split; [discriminate | reflexivity]. Qed.

Lemma dedup_five (a b c a' b' : json) :
  dumps_sorted a' = dumps_sorted a ->
  dumps_sorted b' = dumps_sorted b ->
  dumps_sorted a <> dumps_sorted b ->
  dumps_sorted a <> dumps_sorted c ->
  dumps_sorted b <> dumps_sorted c ->
  dedup_preserve_order [a; b; a'; c; b'] = [a; b; c].
Proof.
  intros Ha Hb Hab Hac Hbc. unfold dedup_preserve_order. simpl. rewrite Ha, Hb.
  repeat first
    [ rewrite decide_True by (rewrite ?elem_of_cons; auto)
    | rewrite decide_False
        by (rewrite ?elem_of_cons, elem_of_nil; intuition congruence) ].
  reflexivity.
Qed.

(** C2: the merge is the de-duplication of the source records followed by
    the existing ones, and de-duplication keeps exactly the first
    occurrences under equality of the sorted-keys serialisation: the
    result is the sub-sequence of the records no earlier record shares its
    key with; its keys are pairwise distinct and are those of the input;
    a record appended to the input is appended to the output when its key
    is new and dropped otherwise.  In particular [A, B, A, C, B] gives
    [A, B, C].  The key of a record does not depend on the order of its
    fields. *)
Theorem merge_first_occurrences :
  (forall source existing,
     merge source existing = first_occurrences dumps_sorted (source ++ existing)) /\
  (forall xs, sublist (dedup_preserve_order xs) xs) /\
  (forall xs, NoDup (map dumps_sorted (dedup_preserve_order xs))) /\
  (forall xs k, k ∈ map dumps_sorted (dedup_preserve_order xs) <-> k ∈ map dumps_sorted xs) /\
  (forall xs x,
     dedup_preserve_order (xs ++ [x]) =
     dedup_preserve_order xs ++
       (if decide (dumps_sorted x ∈ map dumps_sorted xs) then [] else [x])) /\
  (forall a b c a' b',
     dumps_sorted a' = dumps_sorted a -> dumps_sorted b' = dumps_sorted b ->
     dumps_sorted a <> dumps_sorted b -> dumps_sorted a <> dumps_sorted c ->
     dumps_sorted b <> dumps_sorted c ->
     dedup_preserve_order [a; b; a'; c; b'] = [a; b; c]) /\
  (forall d d',
     NoDup (PyDict.keys d) -> d ≡ₚ d' -> dumps_sorted (JDict d) = dumps_sorted (JDict d')) /\
  merge [record_ab; data_record 1; record_ba] [data_record 2; data_record 1]
  = [record_ab; data_record 1; data_record 2].
Proof.
  split; [intros; apply dedup_first_occurrences|].
  split; [intros; rewrite dedup_first_occurrences; apply kept_when_sublist|].
  split; [intros; rewrite dedup_first_occurrences; apply first_occurrences_NoDup|].
  split; [intros; rewrite dedup_first_occurrences; apply first_occurrences_keys|].
  split; [intros; rewrite !dedup_first_occurrences; apply first_occurrences_snoc|].
  split; [exact dedup_five|].
  split; [exact dumps_sorted_perm | reflexivity].
Qed.

(** C9: merging an already de-duplicated sequence with the empty sequence,
    on either side, gives that sequence back, element for element. *)
Theorem merge_idempotent (xs : list json) :
  merge (dedup_preserve_order xs) [] = dedup_preserve_order xs /\
  merge [] (dedup_preserve_order xs) = dedup_preserve_order xs.
Proof.
  unfold merge. rewrite app_nil_r, app_nil_l, !dedup_first_occurrences.
  split; apply first_occurrences_idem.
Qed.

(** ** The claim about the choice of the backup *)

Example order_candidates_ex :
  order_candidates ["rollout-T-a.mixed.bak"; "rollout-T-abc.mixed.bak"; "rollout-T-b.mixed.bak";
                    "rollout-T-xyz.mixed.bak"]
  = ["rollout-T-abc.mixed.bak"; "rollout-T-xyz.mixed.bak"; "rollout-T-a.mixed.bak";
     "rollout-T-b.mixed.bak"].
Proof. reflexivity. Qed.

(** The repair reads the backup with the longer name: here it alone holds
    records of the target's context. *)
Example repair_takes_longest_name :
  let fs := sample_fs2 [Doc (session_meta "/work/proj" "T1")]
              [Doc (session_meta "/other" "OLD"); Doc (data_record 7)] sample_backup in
  process_jsonl sample_repr all_encodable fs target_name true = (Ok true, fs) /\
  process_jsonl sample_repr all_encodable fs target_name false
  = (Ok true, fs_put target_name [session_meta "/work/proj" "T1"; data_record 1] fs).
Proof. split; reflexivity. Qed.

(** C8: of the candidates [glob] returns, the repair takes the first, in
    the order returned, among those with the longest name: every candidate
    before it is strictly shorter, none after it is longer.  Hence a
    candidate strictly longer than all the others is the one taken, and a
    tie goes to the candidate returned first.  The sort only permutes the
    candidates.  What the repair does is settled by that candidate: it
    scans it and no other, and returns not-repaired, raises, or merges and
    writes as that scan decides. *)
Theorem order_candidates_first_longest :
  (forall p cs,
     exists pre c post,
       p :: cs = pre ++ c :: post /\
       head (order_candidates (p :: cs)) = Some c /\
       Forall (fun x => String.length x < String.length c) pre /\
       Forall (fun x => String.length x <= String.length c) post) /\
  (forall cs c,
     c ∈ cs ->
     (forall x, x ∈ cs -> x <> c -> String.length x < String.length c) ->
     head (order_candidates cs) = Some c) /\
  (forall cs, order_candidates cs ≡ₚ cs) /\
  (forall (py_repr : json -> string) (encodable : json -> bool)
          (fs : filesystem) (jsonl_path : string) (dry_run : bool) ts pre c post,
     let identity := extract_cwd_and_id_from_jsonl (fs_read fs jsonl_path) in
     identity_absent identity = false ->
     ts_prefix_from_name jsonl_path = Some ts ->
     glob fs (backup_pattern ts) = Ok (pre ++ c :: post) ->
     Forall (fun x => String.length x < String.length c) pre ->
     Forall (fun x => String.length x <= String.length c) post ->
     process_jsonl py_repr encodable fs jsonl_path dry_run =
     match collect_cwd_filtered_lines py_repr (fs_read fs c)
             (normalize_cwd (py_str py_repr (fst identity))) with
     | Raise e => (Raise e, fs)
     | Ok [] => (Ok false, fs)
     | Ok source_lines =>
         if dry_run then (Ok true, fs)
         else
           match write_jsonl encodable jsonl_path
                   (merge (map (rehydrate (fst identity) (snd identity)) source_lines)
                          (docs (default [] (fs_read fs jsonl_path)))) fs with
           | (Raise e, fs') => (Raise e, fs')
           | (Ok _, fs') => (Ok true, fs')
           end
     end).
Proof.
  split; [|split; [|split]].
  - intros p cs. rewrite order_candidates_sort. apply sort_by_len_desc_head.
  - exact order_candidates_longest.
  - intros cs. rewrite order_candidates_sort. apply sort_by_len_desc_perm.
  - intros py_repr encodable fs jsonl_path dry_run ts pre c post identity
           Hid Hts [Hstar Hcs]%glob_ok Hpre Hpost.
    pose proof (sort_by_len_desc_first_longest pre c post Hpre Hpost) as Hhd.
    rewrite <- order_candidates_sort, Hcs in Hhd.
    rewrite process_jsonl_states. unfold repair_state_of. fold identity.
    rewrite Hid, Hts, (star_prefix_ts _ _ Hts), Hstar.
    destruct (order_candidates _) as [|src rest]; [discriminate|].
    injection Hhd as ->.
    destruct (collect_cwd_filtered_lines _ _ _) as [[|r rs]|e]; try done.
    destruct dry_run; [done|]. rewrite write_jsonl_spec.
    by destruct (forallb encodable _).
Qed.

(** ** The claim about the identity extractor *)

Example extract_scenario :
  extract_cwd_and_id_from_jsonl
    (Some [Blank; Doc (data_record 0); Doc (session_meta "/work/proj" "T1");
           Doc (session_meta "/other" "T2")])
  = (JStr "/work/proj", JStr "T1").
Proof. reflexivity. Qed.

Example extract_missing_file : extract_cwd_and_id_from_jsonl None = (JNull, JNull).
Proof. reflexivity. Qed.

(** Where only such lines come before it, the first session-identity
    record gives the pair, whatever follows it. *)
Lemma extract_first_session_meta before sm after :
  Forall passed_over before ->
  is_record sm = true ->
  is_kind sm "session_meta" = true ->
  extract_cwd_and_id_from_jsonl (Some (before ++ Doc sm :: after))
  = (default JNull (at_path sm ["payload"; "meta"; "cwd"]),
     default JNull (at_path sm ["payload"; "meta"; "id"])).
Proof.
  intros Hbefore Hrec Hkind. unfold extract_cwd_and_id_from_jsonl.
  destruct sm as [| | | | | |d]; try discriminate.
  induction Hbefore as [|l before [->|(d' & -> & Hd)] _ IH]; cbn [app extract_loop].
  - rewrite !py_get_dict. cbn [mbind result_bind]. rewrite py_eq_str_kind, Hkind.
    unfold is_record in Hrec. rewrite Hkind in Hrec.
    destruct (PyDict.lookup "payload" d) as [[| | | | | |p]|] eqn:Ep; try discriminate.
    + simpl. destruct (PyDict.lookup "meta" p) as [[| | | | | |m]|] eqn:Em; try discriminate.
      * simpl. dict_simpl. reflexivity.
      * simpl. dict_simpl. reflexivity.
    + simpl. dict_simpl. reflexivity.
  - exact IH.
  - rewrite !py_get_dict. cbn [mbind result_bind]. rewrite py_eq_str_kind, Hd. exact IH.
Qed.

(** With no session-identity record, and nothing but blank lines and
    mappings, the pair is absent. *)
Lemma extract_no_session_meta fh :
  Forall passed_over fh -> extract_cwd_and_id_from_jsonl (Some fh) = (JNull, JNull).
Proof.
  unfold extract_cwd_and_id_from_jsonl.
  induction 1 as [|l fh [->|(d & -> & Hd)] _ IH]; cbn [extract_loop]; [done | exact IH |].
  rewrite !py_get_dict. cbn [mbind result_bind]. by rewrite py_eq_str_kind, Hd.
Qed.

(** On a log without unparseable lines the extractor is the
    specification's. *)
Lemma extract_agrees fh :
  Forall (fun l => l <> Malformed) fh ->
  is_log fh = true ->
  extract_cwd_and_id_from_jsonl (Some fh) = extract_spec (Some fh).
Proof.
  unfold extract_cwd_and_id_from_jsonl, extract_spec, is_log.
  induction 1 as [|l fh Hl _ IH]; [done|].
  destruct l as [| |obj]; [exact IH | done |].
  cbn [docs forallb extract_loop List.find]. intros [Hrec Hlog]%andb_prop.
  destruct obj as [| | | | | |d]; try discriminate.
  rewrite !py_get_dict. cbn [mbind result_bind]. rewrite py_eq_str_kind.
  unfold is_record in Hrec.
  destruct (is_kind (JDict d) "session_meta"); [|by apply IH].
  cbn [field].
  destruct (PyDict.lookup "payload" d) as [[| | | | | |p]|]; try discriminate; [|done].
  cbn [default from_option id mbind option_bind field].
  rewrite !py_get_dict. cbn [mbind result_bind].
  destruct (PyDict.lookup "meta" p) as [[| | | | | |m]|]; try discriminate; [|done].
  cbn [default from_option id mbind option_bind field].
  by rewrite !py_get_dict.
Qed.

(** C3 at the failing input: a line that does not parse, followed by the
    session-identity record.  The specification's extractor skips the line
    and finds the pair; the code's [json.loads] raises on it, the handler of
    line 53 catches the exception, and the function returns the absent
    pair. *)
Theorem extract_stops_at_malformed_line :
  extract_spec (Some [Malformed; Doc (session_meta "/work/proj" "T1")])
  = (JStr "/work/proj", JStr "T1") /\
  extract_loop [Malformed; Doc (session_meta "/work/proj" "T1")] = Raise JSONDecodeError /\
  extract_cwd_and_id_from_jsonl (Some [Malformed; Doc (session_meta "/work/proj" "T1")])
  = (JNull, JNull).
Proof. repeat split. Qed.

(** The tolerant readers of the same file do skip such a line. *)
Example scan_skips_malformed_line :
  collect_cwd_filtered_lines sample_repr
    (Some [Malformed; Doc (session_meta "/work/proj" "T1")]) "/work/proj"
  = Ok [session_meta "/work/proj" "T1"] /\
  docs [Malformed; Doc (session_meta "/work/proj" "T1")] = [session_meta "/work/proj" "T1"].
Proof. split; reflexivity. Qed.

(** ** The claims about the per-file repair *)

Section RepairClaims.
Variable py_repr : json -> string.
Variable encodable : json -> bool.

Lemma repair_state_no_identity fs name :
  identity_absent (extract_cwd_and_id_from_jsonl (fs_read fs name)) = true ->
  repair_state_of py_repr fs name = NoIdentity.
Proof. unfold repair_state_of. by intros ->. Qed.

Lemma process_jsonl_stage_failures fs name dry_run :
  let identity := extract_cwd_and_id_from_jsonl (fs_read fs name) in
  let verdict := process_jsonl py_repr encodable fs name dry_run in
  (identity_absent identity = true -> verdict = (Ok false, fs)) /\
  (ts_prefix_from_name name = None -> verdict = (Ok false, fs)) /\
  (forall ts e,
     identity_absent identity = false ->
     ts_prefix_from_name name = Some ts ->
     glob fs (backup_pattern ts) = Raise e ->
     verdict = (Raise e, fs)) /\
  (forall ts,
     ts_prefix_from_name name = Some ts ->
     glob fs (backup_pattern ts) = Ok [] ->
     verdict = (Ok false, fs)) /\
  (forall ts cs src,
     ts_prefix_from_name name = Some ts ->
     glob fs (backup_pattern ts) = Ok cs ->
     head (order_candidates cs) = Some src ->
     collect_cwd_filtered_lines py_repr (fs_read fs src)
       (normalize_cwd (py_str py_repr (fst identity))) = Ok [] ->
     verdict = (Ok false, fs)).
Proof.
  intros identity verdict. subst verdict. rewrite process_jsonl_states.
  unfold repair_state_of. fold identity.
  destruct (identity_absent identity); [by repeat split|].
  split; [discriminate|].
  split; [by intros ->|].
  split; [|split].
  - intros ts e _ Hts [Hstar ->]%glob_raise. rewrite Hts, (star_prefix_ts _ _ Hts), Hstar.
    destruct (order_candidates _) as [|c cs]; [done|].
    by destruct (collect_cwd_filtered_lines _ _ _) as [[|r rs]|e].
  - intros ts Hts [Hstar Hcs]%glob_ok. rewrite Hts, (star_prefix_ts _ _ Hts), Hstar, <- Hcs.
    reflexivity.
  - intros ts cs src Hts [Hstar ->]%glob_ok Hhd Hscan.
    rewrite Hts, (star_prefix_ts _ _ Hts), Hstar.
    destruct (order_candidates _) as [|c cs]; [done|].
    simpl in Hhd. injection Hhd as ->. by rewrite Hscan.
Qed.

Lemma process_jsonl_success fs name dry_run :
  let identity := extract_cwd_and_id_from_jsonl (fs_read fs name) in
  fst (process_jsonl py_repr encodable fs name dry_run) = Ok true <->
  identity_absent identity = false /\
  exists ts cs src r rs,
    ts_prefix_from_name name = Some ts /\
    glob fs (backup_pattern ts) = Ok cs /\
    head (order_candidates cs) = Some src /\
    collect_cwd_filtered_lines py_repr (fs_read fs src)
      (normalize_cwd (py_str py_repr (fst identity))) = Ok (r :: rs) /\
    (dry_run = true \/
     forallb encodable
       (merge (map (rehydrate (fst identity) (snd identity)) (r :: rs))
              (docs (default [] (fs_read fs name)))) = true).
Proof.
  intros identity. rewrite process_jsonl_states.
  unfold repair_state_of. fold identity.
  destruct (identity_absent identity).
  { split; [discriminate | by intros [? _]]. }
  destruct (ts_prefix_from_name name) as [ts|] eqn:Hts.
  2:{ split; [discriminate|]. by intros (_ & ts' & cs & src & r & rs & ? & _). }
  rewrite (star_prefix_ts _ _ Hts), <- (has_double_star_pattern ts).
  destruct (has_double_star (backup_pattern ts)) eqn:Hstar.
  { split.
    - destruct (order_candidates _) as [|c cs]; [discriminate|].
      by destruct (collect_cwd_filtered_lines _ _ _) as [[|r rs]|e].
    - intros (_ & ts' & cs & src & r & rs & [= <-] & Hglob & _).
      unfold glob in Hglob. by rewrite Hstar in Hglob. }
  assert (glob fs (backup_pattern ts) = Ok (fs_glob fs (backup_pattern ts))) as Hglob.
  { unfold glob. by rewrite Hstar. }
  destruct (order_candidates _) as [|c cs] eqn:Hoc.
  { split; [discriminate|]. intros (_ & ts' & cs & src & r & rs & [= <-] & Hglob' & Hhd & _).
    rewrite Hglob in Hglob'. injection Hglob' as <-. by rewrite Hoc in Hhd. }
  assert (forall ts' cs' src,
            Some ts = Some ts' -> glob fs (backup_pattern ts') = Ok cs' ->
            head (order_candidates cs') = Some src -> src = c) as Hsrc.
  { intros ts' cs' src [= <-] Hglob' Hhd. rewrite Hglob in Hglob'. injection Hglob' as <-.
    rewrite Hoc in Hhd. by injection Hhd. }
  destruct (collect_cwd_filtered_lines _ _ _) as [[|r rs]|e] eqn:Hscan.
  - split; [discriminate|].
    intros (_ & ts' & cs' & src & r & rs & Hts' & Hglob' & Hhd & Hscan' & _).
    rewrite (Hsrc _ _ _ Hts' Hglob' Hhd), Hscan in Hscan'. discriminate.
  - split.
    + intros Hok. split; [done|]. exists ts, (fs_glob fs (backup_pattern ts)), c, r, rs.
      rewrite Hoc. repeat split; try done.
      destruct dry_run; [by left | right]. simpl in Hok.
      by destruct (forallb encodable _).
    + intros (_ & ts' & cs' & src & r' & rs' & Hts' & Hglob' & Hhd & Hscan' & Hwrite).
      rewrite (Hsrc _ _ _ Hts' Hglob' Hhd), Hscan in Hscan'. injection Hscan' as <- <-.
      destruct dry_run; [done|]. destruct Hwrite as [|Hwrite]; [done|]. cbn [fst].
      by rewrite Hwrite.
  - split; [discriminate|].
    intros (_ & ts' & cs' & src & r & rs & Hts' & Hglob' & Hhd & Hscan' & _).
    rewrite (Hsrc _ _ _ Hts' Hglob' Hhd), Hscan in Hscan'. discriminate.
Qed.

(** The directory is changed by the write only, and the write changes the
    target only: it leaves in it the merged documents, or those of them
    before the first that cannot be encoded. *)
Lemma process_jsonl_no_write fs name dry_run :
  snd (process_jsonl py_repr encodable fs name dry_run) = fs \/
  dry_run = false /\
  exists merged,
    repair_state_of py_repr fs name = Repaired merged /\
    star_prefix name = false /\
    process_jsonl py_repr encodable fs name dry_run
    = (if forallb encodable merged then Ok true else Raise UnicodeEncodeError,
       fs_put name (writable_prefix encodable merged) fs).
Proof.
  rewrite process_jsonl_states.
  destruct (repair_state_of py_repr fs name) as [| | | | e|merged]; simpl; auto;
    destruct (star_prefix name) eqn:Hstar; simpl; auto.
  destruct dry_run; auto. right. split; [done|]. by exists merged.
Qed.

End RepairClaims.

Section EmptyTarget.
Variable py_repr : json -> string.

Lemma context_matches_empty current : context_matches current "" = false.
Proof.
  destruct current as [c|]; [|done]. simpl.
  destruct c; [done|]. reflexivity.
Qed.

Lemma context_matches_empty_context target : context_matches (Some "") target = false.
Proof. reflexivity. Qed.

Lemma scan_spec_empty rs : scan_spec py_repr "" rs = [].
Proof. apply kept_when_none. intros before x. apply andb_false_r. Qed.

Lemma collect_empty_target src :
  collect_cwd_filtered_lines py_repr src "" =
  if from_option is_log true src then Ok [] else Raise AttributeError.
Proof.
  destruct src as [fh|]; [|done]. rewrite collect_spec. simpl.
  by rewrite scan_spec_empty.
Qed.

Lemma declared_context_empty_cwd obj v :
  carried_cwd obj = Some v -> truthy v = false -> declared_context py_repr obj = None.
Proof. unfold declared_context. by intros -> ->. Qed.

Lemma repair_state_empty_target fs name :
  normalize_cwd (py_str py_repr (fst (extract_cwd_and_id_from_jsonl (fs_read fs name)))) = "" ->
  match repair_state_of py_repr fs name with
  | Repaired _ => False
  | NoMatchingRecords | NoIdentity | NoTimestamp | NoCandidate => True
  | ScanRaised e => e = AttributeError
  end.
Proof.
  intros Hn. unfold repair_state_of.
  destruct (identity_absent _); [done|].
  destruct (ts_prefix_from_name name); [|done].
  destruct (order_candidates _) as [|src rest]; [done|].
  rewrite Hn, collect_empty_target. by destruct (from_option is_log true _).
Qed.

End EmptyTarget.

(** The end-to-end scenario: the backup's session-identity record is
    rehydrated and, being then the target's own record, kept once; the data
    record read under the target's context follows; the records read under
    the other context are left out. *)
Example repair_scenario :
  let fs := sample_fs [Doc (session_meta "/work/proj" "T1")] sample_backup in
  process_jsonl sample_repr all_encodable fs target_name false
  = (Ok true, fs_put target_name [session_meta "/work/proj" "T1"; data_record 1] fs) /\
  process_jsonl sample_repr all_encodable fs target_name true = (Ok true, fs).
Proof. split; reflexivity. Qed.

(** The same repair where the data record cannot be encoded: the dry run
    reports success; the run that writes raises, and leaves in the target
    the one document written before the data record. *)
Example repair_write_fails :
  let fs := sample_fs [Doc (session_meta "/work/proj" "T1")] sample_backup in
  process_jsonl sample_repr (all_but (data_record 1)) fs target_name true = (Ok true, fs) /\
  process_jsonl sample_repr (all_but (data_record 1)) fs target_name false
  = (Raise UnicodeEncodeError, fs_put target_name [session_meta "/work/proj" "T1"] fs).
Proof. split; reflexivity. Qed.

Example repair_no_identity :
  let fs := sample_fs [Doc (data_record 0)] sample_backup in
  process_jsonl sample_repr all_encodable fs target_name false = (Ok false, fs).
Proof. reflexivity. Qed.

Example repair_no_timestamp :
  let fs := sample_fs [Doc (session_meta "/work/proj" "T1")] sample_backup in
  process_jsonl sample_repr all_encodable fs "rollout-short.jsonl" false = (Ok false, fs).
Proof. reflexivity. Qed.

(** The stages of the repair, in their order.  It returns not-repaired,
    leaving the directory as it was, as soon as the target's identity is
    absent (a cwd or id that is missing, null or empty), or its name gives
    no timestamp prefix (which, when there is one, has 19 characters), or
    [glob] returns no candidate, or the scan of the chosen candidate
    returns no record.  Where [glob] raises, which it does exactly for a
    prefix that holds [**], the repair raises and the directory stays as it
    was.  It reports success exactly when every stage succeeds, the write
    included unless the run is a dry run.  The directory is changed by the
    write only: the target then holds the merged documents, or, the write
    failing, those before the first that cannot be encoded. *)
Theorem process_jsonl_stages
    (py_repr : json -> string) (encodable : json -> bool)
    (fs : filesystem) (jsonl_path : string) (dry_run : bool) :
  let identity := extract_cwd_and_id_from_jsonl (fs_read fs jsonl_path) in
  let verdict := process_jsonl py_repr encodable fs jsonl_path dry_run in
  (identity_absent identity = true -> verdict = (Ok false, fs)) /\
  (ts_prefix_from_name jsonl_path = None -> verdict = (Ok false, fs)) /\
  (forall ts, ts_prefix_from_name jsonl_path = Some ts -> String.length ts = 19) /\
  (forall ts,
     glob fs (backup_pattern ts) =
     if has_double_star ts then Raise ValueError else Ok (fs_glob fs (backup_pattern ts))) /\
  (forall ts e,
     identity_absent identity = false ->
     ts_prefix_from_name jsonl_path = Some ts ->
     glob fs (backup_pattern ts) = Raise e ->
     verdict = (Raise e, fs)) /\
  (forall ts,
     ts_prefix_from_name jsonl_path = Some ts ->
     glob fs (backup_pattern ts) = Ok [] ->
     verdict = (Ok false, fs)) /\
  (forall ts cs src,
     ts_prefix_from_name jsonl_path = Some ts ->
     glob fs (backup_pattern ts) = Ok cs ->
     head (order_candidates cs) = Some src ->
     collect_cwd_filtered_lines py_repr (fs_read fs src)
       (normalize_cwd (py_str py_repr (fst identity))) = Ok [] ->
     verdict = (Ok false, fs)) /\
  (fst verdict = Ok true <->
   identity_absent identity = false /\
   exists ts cs src r rs,
     ts_prefix_from_name jsonl_path = Some ts /\
     glob fs (backup_pattern ts) = Ok cs /\
     head (order_candidates cs) = Some src /\
     collect_cwd_filtered_lines py_repr (fs_read fs src)
       (normalize_cwd (py_str py_repr (fst identity))) = Ok (r :: rs) /\
     (dry_run = true \/
      forallb encodable
        (merge (map (rehydrate (fst identity) (snd identity)) (r :: rs))
               (docs (default [] (fs_read fs jsonl_path)))) = true)) /\
  (snd verdict = fs \/
   dry_run = false /\
   exists merged,
     repair_state_of py_repr fs jsonl_path = Repaired merged /\
     star_prefix jsonl_path = false /\
     verdict = (if forallb encodable merged then Ok true else Raise UnicodeEncodeError,
                fs_put jsonl_path (writable_prefix encodable merged) fs)) /\
  verdict =
    match repair_state_of py_repr fs jsonl_path with
    | NoIdentity | NoTimestamp => (Ok false, fs)
    | NoCandidate | NoMatchingRecords =>
        if star_prefix jsonl_path then (Raise ValueError, fs) else (Ok false, fs)
    | ScanRaised e =>
        if star_prefix jsonl_path then (Raise ValueError, fs) else (Raise e, fs)
    | Repaired merged =>
        if star_prefix jsonl_path then (Raise ValueError, fs)
        else if dry_run then (Ok true, fs)
        else (if forallb encodable merged then Ok true else Raise UnicodeEncodeError,
              fs_put jsonl_path (writable_prefix encodable merged) fs)
    end.
Proof.
  intros identity verdict.
  destruct (process_jsonl_stage_failures py_repr encodable fs jsonl_path dry_run)
    as (H1 & H2 & H3 & H4 & H5).
  split; [exact H1|]. split; [exact H2|].
  split; [intros ts; apply ts_prefix_length|].
  split; [intros ts; apply glob_spec|].
  split; [exact H3|]. split; [exact H4|]. split; [exact H5|].
  split; [apply process_jsonl_success|].
  split; [apply process_jsonl_no_write|].
  apply process_jsonl_states.
Qed.

(** In the same directory a name without [**] gets its verdict: no
    candidate, not repaired. *)
Example repair_no_candidate :
  let fs := star_fs [Doc (session_meta "/work/proj" "T1")] in
  let fs' := {| fs_read := fun n =>
                  if String.eqb n target_name then fs_read fs star_name else None;
                fs_glob := fs_glob fs |} in
  process_jsonl sample_repr all_encodable fs' target_name false = (Ok false, fs').
Proof. reflexivity. Qed.

(** C7 at the failing input: a target with an identity whose name has [**]
    where the timestamp begins, and no backup in its directory.  The name
    gives a prefix of 19 characters, no name of the directory matches the
    pattern made from it, and the specification's transitions end in the
    no-candidate state, which is a not-repaired verdict.  The code's
    [glob] refuses the pattern: the repair raises a [ValueError] and
    returns nothing, dry run or not. *)
Theorem process_jsonl_raises_on_star_prefix :
  let fs := star_fs [Doc (session_meta "/work/proj" "T1")] in
  extract_cwd_and_id_from_jsonl (fs_read fs star_name) = (JStr "/work/proj", JStr "T1") /\
  ts_prefix_from_name star_name = Some "**25-01-02T03-04-05" /\
  fs_glob fs (backup_pattern "**25-01-02T03-04-05") = [] /\
  repair_state_of sample_repr fs star_name = NoCandidate /\
  glob fs (backup_pattern "**25-01-02T03-04-05") = Raise ValueError /\
  process_jsonl sample_repr all_encodable fs star_name false = (Raise ValueError, fs) /\
  process_jsonl sample_repr all_encodable fs star_name true = (Raise ValueError, fs).
Proof. repeat split. Qed.

(** ** The claim about a target in the root directory *)

(** With a target in the root directory and no backup beside it the
    repair ends in the no-candidate state, not in the no-matching-records
    state: the scanner is not reached. *)
Lemma empty_target_no_candidate :
  let fs := {| fs_read := fun n => if String.eqb n target_name then Some root_target else None;
               fs_glob := fun _ => [] |} in
  normalize_cwd (py_str sample_repr (fst (extract_cwd_and_id_from_jsonl (fs_read fs target_name))))
  = "" /\
  repair_state_of sample_repr fs target_name = NoCandidate /\
  process_jsonl sample_repr all_encodable fs target_name false = (Ok false, fs).
Proof. repeat split. Qed.

(** C10 (amended): when the target's working directory normalises to the
    empty string, the scanner is called with the empty target and returns
    no record for any backup whose parseable lines are Records: the empty
    string, which a record can declare as context (the root directory
    does), never passes the match test, and a cwd that is empty does not
    change the active context.  So the repair never reports success and
    never writes; when an identity and a timestamp prefix are found and
    [glob] returns a candidate, it ends with no matching records. *)
Theorem empty_target_never_repaired
    (py_repr : json -> string) (encodable : json -> bool)
    (fs : filesystem) (jsonl_path : string) (dry_run : bool) :
  let identity := extract_cwd_and_id_from_jsonl (fs_read fs jsonl_path) in
  normalize_cwd (py_str py_repr (fst identity)) = "" ->
  (normalize_cwd "/" = "" /\ normalize_cwd bs = "") /\
  (forall src rs, collect_cwd_filtered_lines py_repr src "" = Ok rs -> rs = []) /\
  (forall src,
     from_option is_log true src = true -> collect_cwd_filtered_lines py_repr src "" = Ok []) /\
  (forall current, context_matches current "" = false) /\
  (forall target, context_matches (Some "") target = false) /\
  declared_context py_repr (session_meta "/" "S") = Some "" /\
  (forall obj v,
     carried_cwd obj = Some v -> truthy v = false -> declared_context py_repr obj = None) /\
  fst (process_jsonl py_repr encodable fs jsonl_path dry_run) <> Ok true /\
  snd (process_jsonl py_repr encodable fs jsonl_path dry_run) = fs /\
  (forall ts cs src,
     identity_absent identity = false ->
     ts_prefix_from_name jsonl_path = Some ts ->
     glob fs (backup_pattern ts) = Ok cs ->
     head (order_candidates cs) = Some src ->
     from_option is_log true (fs_read fs src) = true ->
     repair_state_of py_repr fs jsonl_path = NoMatchingRecords /\
     process_jsonl py_repr encodable fs jsonl_path dry_run = (Ok false, fs)).
Proof.
  intros identity Hn.
  split; [by split|].
  split. { intros src rs. rewrite collect_empty_target. destruct (from_option _ _ _); congruence. }
  split. { intros src Hlog. by rewrite collect_empty_target, Hlog. }
  split; [apply context_matches_empty|].
  split; [apply context_matches_empty_context|].
  split; [reflexivity|].
  split; [apply declared_context_empty_cwd|].
  pose proof (repair_state_empty_target py_repr fs jsonl_path Hn) as Hstate.
  rewrite process_jsonl_states.
  split; [|split].
  - by destruct (repair_state_of py_repr fs jsonl_path), (star_prefix jsonl_path).
  - by destruct (repair_state_of py_repr fs jsonl_path), (star_prefix jsonl_path).
  - intros ts cs src Hid Hts [Hstar ->]%glob_ok Hhd Hlog.
    assert (repair_state_of py_repr fs jsonl_path = NoMatchingRecords) as ->.
    { unfold repair_state_of. fold identity. rewrite Hid, Hts.
      destruct (order_candidates _) as [|c cs]; [done|].
      simpl in Hhd. injection Hhd as ->.
      by rewrite Hn, collect_empty_target, Hlog. }
    by rewrite (star_prefix_ts _ _ Hts), Hstar.
Qed.

Lemma empty_target_never_repaired_witness :
  let fs := sample_fs root_target root_backup in
  process_jsonl sample_repr all_encodable fs target_name false = (Ok false, fs).
Proof.
  intros fs.
  destruct (empty_target_never_repaired sample_repr all_encodable fs target_name false eq_refl)
    as (_ & _ & _ & _ & _ & _ & _ & _ & _ & H).
  exact (proj2 (H "2025-01-02T03-04-05" [backup_name] backup_name
                  eq_refl eq_refl eq_refl eq_refl eq_refl)).
Defined.

(** * Further properties of the code *)

(** ** Strings: prefixes and slices *)

Lemma append_cons c s t : String c s +:+ t = String c (s +:+ t).
Proof. reflexivity. Qed.

Lemma startswith_append p r : PyStr.startswith (p +:+ r) p = true.
Proof.
  induction p as [|c p IH]; [done|].
  rewrite append_cons. cbn [PyStr.startswith]. by rewrite Ascii.eqb_refl, IH.
Qed.

Lemma startswith_split s p :
  PyStr.startswith s p = true -> s = p +:+ PyStr.slice_from (String.length p) s.
Proof.
  revert s. induction p as [|c p IH]; intros s; [done|].
  destruct s as [|a s]; cbn [PyStr.startswith]; [discriminate|].
  intros [Ha Hs]%andb_prop. apply Ascii.eqb_eq in Ha as ->.
  rewrite append_cons. cbn [String.length PyStr.slice_from]. f_equal. by apply IH.
Qed.

Lemma slice_from_append p r : PyStr.slice_from (String.length p) (p +:+ r) = r.
Proof. induction p as [|c p IH]; [by destruct r|]. rewrite append_cons. exact IH. Qed.

Lemma slice_to_append p r : PyStr.slice_to (String.length p) (p +:+ r) = p.
Proof.
  induction p as [|c p IH]; [by destruct r|].
  rewrite append_cons. cbn [String.length PyStr.slice_to]. by rewrite IH.
Qed.

Lemma slice_to_from n s : PyStr.slice_to n s +:+ PyStr.slice_from n s = s.
Proof.
  revert s. induction n as [|n IH]; intros [|c s]; try reflexivity.
  cbn [PyStr.slice_to PyStr.slice_from]. by rewrite append_cons, IH.
Qed.

Lemma length_append s t : String.length (s +:+ t) = String.length s + String.length t.
Proof. induction s as [|c s IH]; [done|]. rewrite append_cons. simpl. by rewrite IH. Qed.

(** ** The timestamp prefix *)

(** X1: a name has a timestamp prefix exactly when it is the marker
    [rollout-], 19 characters, and any rest; the prefix is those 19
    characters. *)
Theorem ts_prefix_from_name_iff (name ts : string) :
  ts_prefix_from_name name = Some ts <->
  String.length ts = 19 /\ exists rest, name = "rollout-" +:+ ts +:+ rest.
Proof.
  unfold ts_prefix_from_name. split.
  - destruct (PyStr.startswith name "rollout-") eqn:Hs; [|discriminate]. cbn [negb].
    apply startswith_split in Hs.
    set (core := PyStr.slice_from (String.length "rollout-") name) in *.
    destruct (19 <=? String.length core)%nat eqn:E; [|discriminate].
    apply Nat.leb_le in E.
    pose proof (length_slice_to 19 core) as Hl.
    pose proof (slice_to_from 19 core) as Hc. rewrite Hs. revert Hl Hc.
    generalize (PyStr.slice_to 19 core). intros r Hl Hc [= <-]. split; [lia|].
    exists (PyStr.slice_from 19 core). by rewrite Hc.
  - intros [Hlen [rest ->]]. rewrite startswith_append. cbn [negb].
    rewrite slice_from_append. rewrite length_append, Hlen.
    replace (19 <=? 19 + String.length rest)%nat with true
      by (symmetry; apply Nat.leb_le; lia).
    rewrite <- Hlen. by rewrite slice_to_append.
Qed.

(** ** Selection by what came before, continued *)

Lemma kept_when_ext {A} (keep1 keep2 : list A -> A -> bool) (xs : list A) :
  (forall i x, xs !! i = Some x -> keep1 (take i xs) x = keep2 (take i xs) x) ->
  kept_when keep1 xs = kept_when keep2 xs.
Proof.
  intros H. unfold kept_when. apply omap_ext_in. intros i _.
  destruct (xs !! i) as [x|] eqn:E; [|done]. simpl. by rewrite (H i x E).
Qed.

Lemma kept_when_app {A} (keep : list A -> A -> bool) (xs ys : list A) :
  kept_when keep (xs ++ ys) =
  kept_when keep xs ++ kept_when (fun before y => keep (xs ++ before) y) ys.
Proof.
  induction ys as [|y ys IH] using rev_ind.
  - by rewrite kept_when_nil, !app_nil_r.
  - by rewrite app_assoc, !kept_when_snoc, IH, app_assoc.
Qed.

Lemma kept_when_const {A} (b : bool) (xs : list A) :
  kept_when (fun _ _ => b) xs = if b then xs else [].
Proof.
  induction xs as [|x xs IH] using rev_ind; [by destruct b|].
  rewrite kept_when_snoc, IH. destruct b; [done|]. reflexivity.
Qed.

(** ** The scanner *)

Section ScanMore.
Variable py_repr : json -> string.

Lemma docs_app fh1 fh2 : docs (fh1 ++ fh2) = docs fh1 ++ docs fh2.
Proof.
  induction fh1 as [|[| |obj] fh1 IH]; simpl; [done | exact IH | exact IH |].
  by rewrite IH.
Qed.

Lemma docs_map_Doc rs : docs (map Doc rs) = rs.
Proof. induction rs as [|r rs IH]; simpl; [done|]. by rewrite IH. Qed.

Lemma active_context_normal rs c :
  active_context py_repr rs = Some c -> exists p, c = normalize_cwd p.
Proof.
  unfold active_context. intros H%last_Some_elem_of.
  apply list_elem_of_omap in H as (r & _ & Hr).
  unfold declared_context in Hr. destruct (carried_cwd r) as [v|]; [|discriminate].
  destruct (truthy v); [|discriminate]. injection Hr as <-. eauto.
Qed.

Lemma active_context_undeclared rs tail :
  Forall (fun r => declared_context py_repr r = None) tail ->
  active_context py_repr (rs ++ tail) = active_context py_repr rs.
Proof.
  induction tail as [|r tail IH] using rev_ind; intros H; [by rewrite app_nil_r|].
  apply Forall_app in H as [Htail Hr]. inversion Hr as [|? ? Hr' _]; subst.
  by rewrite app_assoc, active_context_snoc, Hr', IH.
Qed.

Lemma scan_spec_app target rs tail :
  Forall (fun r => declared_context py_repr r = None) tail ->
  scan_spec py_repr target (rs ++ tail) =
  scan_spec py_repr target rs ++
    (if context_matches (active_context py_repr rs) target then tail else []).
Proof.
  intros Htail. unfold scan_spec at 1. rewrite kept_when_app. f_equal.
  rewrite <- kept_when_const. apply kept_when_ext. intros i y Hy.
  rewrite context_matches_spec, <- app_assoc.
  rewrite active_context_undeclared; [done|].
  apply Forall_app. split.
  - apply Forall_take. exact Htail.
  - constructor; [|constructor]. rewrite Forall_forall in Htail.
    apply Htail. by eapply list_elem_of_lookup_2.
Qed.

Lemma scan_spec_no_declaration target rs :
  Forall (fun r => declared_context py_repr r <> Some target) rs ->
  scan_spec py_repr target rs = [].
Proof.
  intros Hno. unfold scan_spec.
  rewrite (kept_when_ext _ (fun _ _ => false)); [by rewrite kept_when_const|].
  intros i r Hr. apply andb_false_intro1, bool_decide_eq_false_2.
  intros H%last_Some_elem_of. apply list_elem_of_omap in H as (r' & Hin & Hd).
  rewrite Forall_forall in Hno. apply (Hno r'); [|done].
  apply elem_of_app in Hin as [Hin|Hin].
  - apply elem_of_take in Hin as (j & Hj & _). by eapply list_elem_of_lookup_2.
  - apply list_elem_of_singleton in Hin as ->. by eapply list_elem_of_lookup_2.
Qed.

End ScanMore.

(** X2: the scanner's result depends on the documents of the file only:
    blank lines and lines that do not parse change nothing, wherever they
    stand. *)
Theorem collect_ignores_unparsed (py_repr : json -> string) (fh : list line) (target : string) :
  collect_cwd_filtered_lines py_repr (Some fh) target
  = collect_cwd_filtered_lines py_repr (Some (map Doc (docs fh))) target.
Proof. rewrite !collect_spec. unfold is_log. by rewrite docs_map_Doc. Qed.

(** X3: what the scanner returns is a sub-sequence of the documents of the
    file, in their order, and every returned document is a Record: it adds
    nothing, reorders nothing and repeats nothing. *)
Theorem collect_subsequence
    (py_repr : json -> string) (src : option (list line)) (target : string) (rs : list json) :
  collect_cwd_filtered_lines py_repr src target = Ok rs ->
  sublist rs (docs (default [] src)) /\ Forall (fun r => is_record r = true) rs.
Proof.
  intros H. split; [|by eapply collect_ok_records].
  destruct src as [fh|]; [|injection H as <-; constructor].
  rewrite collect_spec in H. destruct (is_log fh); [|discriminate].
  injection H as <-. apply kept_when_sublist.
Qed.

Lemma collect_subsequence_witness :
  sublist [session_meta "/work/proj" "OLD"; data_record 1] (docs sample_backup) /\
  Forall (fun r => is_record r = true) [session_meta "/work/proj" "OLD"; data_record 1].
Proof.
  exact (collect_subsequence sample_repr (Some sample_backup) "/work/proj" _ eq_refl).
Defined.

(** X4: the target is compared as it is given: the scanner returns a
    record only for a target that is a non-empty normal form (no
    backslash, no trailing separator, no capital).  A caller that passes a
    path it has not normalised gets nothing. *)
Theorem collect_needs_normal_target
    (py_repr : json -> string) (src : option (list line)) (target : string)
    (r : json) (rs : list json) :
  collect_cwd_filtered_lines py_repr src target = Ok (r :: rs) ->
  PyStr.nonempty target = true /\
  PyStr.lower target = target /\
  PyStr.rstrip PyStr.slash target = target /\
  PyStr.has_char PyStr.bslash target = false.
Proof.
  intros H. destruct src as [fh|]; [|discriminate].
  rewrite collect_spec in H. destruct (is_log fh); [|discriminate].
  injection H as H.
  assert (r ∈ scan_spec py_repr target (docs fh)) as Hr by (rewrite H; left).
  unfold scan_spec, kept_when in Hr.
  apply list_elem_of_omap in Hr as (i & _ & Hi).
  destruct (docs fh !! i) as [x|]; [|discriminate]. simpl in Hi.
  destruct (bool_decide _ && _) eqn:E; [|discriminate].
  apply andb_prop in E as [Hc Hne]. apply bool_decide_eq_true_1 in Hc.
  apply active_context_normal in Hc as [p ->].
  split; [done|].
  split; [apply normalize_lower|]. split; [apply normalize_rstrip | apply normalize_no_bslash].
Qed.

Lemma collect_needs_normal_target_witness :
  PyStr.nonempty "/work/proj" = true /\
  PyStr.lower "/work/proj" = "/work/proj" /\
  PyStr.rstrip PyStr.slash "/work/proj" = "/work/proj" /\
  PyStr.has_char PyStr.bslash "/work/proj" = false.
Proof.
  exact (collect_needs_normal_target sample_repr (Some sample_backup) "/work/proj" _ _ eq_refl).
Defined.

Example collect_target_not_normalised :
  collect_cwd_filtered_lines sample_repr (Some sample_backup) "/Work/Proj/" = Ok [].
Proof. reflexivity. Qed.

(** X5: a log in which no record declares the target context yields no
    record, whatever else it declares. *)
Theorem collect_no_declaration
    (py_repr : json -> string) (fh : list line) (target : string) :
  is_log fh = true ->
  Forall (fun r => declared_context py_repr r <> Some target) (docs fh) ->
  collect_cwd_filtered_lines py_repr (Some fh) target = Ok [].
Proof.
  intros Hlog Hno. rewrite collect_spec, Hlog. by rewrite scan_spec_no_declaration.
Qed.

Lemma collect_no_declaration_witness :
  collect_cwd_filtered_lines sample_repr (Some sample_backup) "/elsewhere" = Ok [].
Proof.
  apply (collect_no_declaration sample_repr sample_backup "/elsewhere" eq_refl).
  repeat constructor; discriminate.
Defined.

(** X6: records that declare no context are taken or left as a block:
    appended to a log, they are all returned when the context active at the
    end of the log is the (non-empty) target, and none of them otherwise;
    what the log itself yields is unchanged. *)
Theorem collect_inherits_block
    (py_repr : json -> string) (fh tail : list line) (target : string) :
  is_log (fh ++ tail) = true ->
  Forall (fun r => declared_context py_repr r = None) (docs tail) ->
  exists rs,
    collect_cwd_filtered_lines py_repr (Some fh) target = Ok rs /\
    collect_cwd_filtered_lines py_repr (Some (fh ++ tail)) target =
      Ok (rs ++ if context_matches (active_context py_repr (docs fh)) target
                then docs tail else []).
Proof.
  intros Hlog Htail. rewrite !collect_spec, Hlog.
  unfold is_log in *. rewrite docs_app, forallb_app in Hlog.
  apply andb_prop in Hlog as [-> _].
  eexists. split; [reflexivity|]. by rewrite docs_app, scan_spec_app.
Qed.

Lemma collect_inherits_block_witness :
  exists rs,
    collect_cwd_filtered_lines sample_repr (Some [Doc (session_meta "/work/proj" "OLD")])
      "/work/proj" = Ok rs /\
    collect_cwd_filtered_lines sample_repr
      (Some ([Doc (session_meta "/work/proj" "OLD")] ++ [Doc (data_record 1); Doc (data_record 2)]))
      "/work/proj" = Ok (rs ++ [data_record 1; data_record 2]).
Proof.
  apply (collect_inherits_block sample_repr [Doc (session_meta "/work/proj" "OLD")]
           [Doc (data_record 1); Doc (data_record 2)] "/work/proj" eq_refl).
  repeat constructor.
Defined.

(** ** Merge and de-duplication *)

Section DedupMore.
Context {A K : Type} `{EqDecision K} (key : A -> K).

Lemma first_occurrences_app xs ys :
  first_occurrences key (xs ++ ys) =
  first_occurrences key xs ++
  first_occurrences key (filter (fun y => key y ∉ map key xs) ys).
Proof.
  induction ys as [|y ys IH] using rev_ind.
  - by rewrite filter_nil, !app_nil_r.
  - rewrite app_assoc, first_occurrences_snoc, IH, filter_app, <- app_assoc. f_equal.
    rewrite map_app, filter_cons, filter_nil.
    destruct (decide (key y ∉ map key xs)) as [Hy|Hy].
    + rewrite first_occurrences_snoc. f_equal.
      destruct (decide (key y ∈ map key xs ++ map key ys)) as [Hin|Hin].
      * rewrite decide_True; [done|].
        apply elem_of_app in Hin as [Hin|Hin]; [done|].
        apply list_elem_of_fmap in Hin as (y' & Hk & Hy').
        apply list_elem_of_fmap. exists y'. split; [done|].
        apply list_elem_of_filter. split; [|done]. by rewrite <- Hk.
      * rewrite decide_False; [done|]. intros Hin'. apply Hin, elem_of_app. right.
        apply list_elem_of_fmap in Hin' as (y' & Hk & Hy').
        apply list_elem_of_filter in Hy' as [_ Hy'].
        apply list_elem_of_fmap. by exists y'.
    + rewrite app_nil_r. rewrite decide_True; [by rewrite app_nil_r|].
      apply elem_of_app. left. by apply dec_stable.
Qed.

Lemma first_occurrences_cons x xs :
  first_occurrences key (x :: xs) =
  x :: first_occurrences key (filter (fun y => key y <> key x) xs).
Proof.
  change (x :: xs) with ([x] ++ xs). rewrite first_occurrences_app.
  change (first_occurrences key [x]) with [x]. simpl. f_equal. f_equal.
  apply list_filter_iff. intros y. simpl. rewrite list_elem_of_singleton. done.
Qed.

Lemma first_occurrences_length xs :
  length (first_occurrences key xs) <= length xs.
Proof. apply sublist_length, kept_when_sublist. Qed.

End DedupMore.

Example merge_scenario :
  merge [session_meta "/work/proj" "T1"; data_record 1]
        [data_record 1; session_meta "/work/proj" "T1"; data_record 2]
  = [session_meta "/work/proj" "T1"; data_record 1; data_record 2].
Proof. reflexivity. Qed.

(** X7: the merge begins with the de-duplicated source records, as they
    are, and goes on with the existing records only so far as their key is
    not a source record's (these de-duplicated in turn): a recovered record
    is never displaced or dropped in favour of an existing one. *)
Theorem merge_source_first (source existing : list json) :
  merge source existing =
  dedup_preserve_order source ++
  dedup_preserve_order
    (filter (fun y => dumps_sorted y ∉ map dumps_sorted source) existing).
Proof. unfold merge. rewrite !dedup_first_occurrences. apply first_occurrences_app. Qed.

(** X8: de-duplication never lengthens its input, returns the empty
    sequence for the empty input only, and begins with the first record of
    its input. *)
Theorem dedup_preserve_order_bounds (objs : list json) :
  length (dedup_preserve_order objs) <= length objs /\
  (dedup_preserve_order objs = [] <-> objs = []) /\
  head (dedup_preserve_order objs) = head objs.
Proof.
  rewrite dedup_first_occurrences. split; [apply first_occurrences_length|].
  destruct objs as [|x xs]; [by split|].
  rewrite first_occurrences_cons. by split.
Qed.

(** ** Identity rehydration *)

Section DictMore.
Context {V : Type}.
Implicit Types (d : list (string * V)) (k : string) (v : V).

Lemma set_set k v1 v2 d : PyDict.set k v2 (PyDict.set k v1 d) = PyDict.set k v2 d.
Proof.
  induction d as [|[k0 v0] d IH]; simpl.
  - by rewrite String.eqb_refl.
  - destruct (String.eqb k0 k) eqn:E; simpl; rewrite E; [done|]. by rewrite IH.
Qed.

Lemma set_swap k k' v1 v2 v' d :
  k <> k' ->
  PyDict.set k v2 (PyDict.set k' v' (PyDict.set k v1 d)) = PyDict.set k' v' (PyDict.set k v2 d).
Proof.
  intros Hne. assert (String.eqb k k' = false) as Hkk' by (by apply String.eqb_neq).
  induction d as [|[k0 v0] d IH].
  - cbn [PyDict.set]. rewrite Hkk'. cbn [PyDict.set]. by rewrite String.eqb_refl.
  - cbn [PyDict.set]. destruct (String.eqb k0 k) eqn:E.
    + apply String.eqb_eq in E as ->. cbn [PyDict.set]. rewrite Hkk'.
      cbn [PyDict.set]. by rewrite String.eqb_refl.
    + cbn [PyDict.set]. destruct (String.eqb k0 k') eqn:E'; cbn [PyDict.set]; rewrite E.
      * by rewrite set_set.
      * by rewrite IH.
Qed.

Lemma lookup_others ks k d :
  existsb (String.eqb k) ks = false ->
  PyDict.lookup k (PyDict.others ks d) = PyDict.lookup k d.
Proof.
  intros Hk. unfold PyDict.others. induction d as [|[k0 v0] d IH]; simpl; [done|].
  destruct (String.eqb k0 k) eqn:E.
  - apply String.eqb_eq in E as ->. rewrite Hk. simpl. by rewrite String.eqb_refl.
  - destruct (negb _); simpl; [by rewrite E|]. exact IH.
Qed.

End DictMore.

Lemma field_items obj k : field obj k = PyDict.lookup k (items_of (Some obj)).
Proof. by destruct obj. Qed.

(** The kind of a record is not touched. *)
Lemma rehydrated_kind obj new_cwd new_cid obj' kind :
  rehydrated obj new_cwd new_cid obj' -> is_kind obj' kind = is_kind obj kind.
Proof.
  intros [Hframe _]. unfold is_kind. rewrite !field_items.
  rewrite <- (lookup_others ["payload"] "type" (items_of (Some obj'))) by reflexivity.
  rewrite Hframe. by rewrite lookup_others.
Qed.

Lemma at_path_cons obj k rest :
  at_path obj (k :: rest) =
  match field obj k with
  | Some v => at_path v rest
  | None => None
  end.
Proof.
  unfold at_path. cbn [foldl mbind option_bind].
  destruct (field obj k) as [v|]; [done|]. simpl.
  induction rest as [|k' rest IH]; [done | exact IH].
Qed.

Lemma at_path_payload_dict obj k rest v :
  at_path obj ("payload" :: k :: rest) = Some v ->
  exists d p, obj = JDict d /\ PyDict.lookup "payload" d = Some (JDict p) /\
              at_path (JDict p) (k :: rest) = Some v.
Proof.
  rewrite at_path_cons. destruct obj as [| | | | | |d]; try discriminate. cbn [field].
  destruct (PyDict.lookup "payload" d) as [pl|] eqn:Ep; [|discriminate].
  rewrite at_path_cons. destruct pl as [| | | | | |p]; try discriminate.
  rewrite <- at_path_cons. intros H. by exists d, p.
Qed.

Lemma rehydrated_record obj new_cwd new_cid obj' :
  is_record obj = true -> rehydrated obj new_cwd new_cid obj' -> is_record obj' = true.
Proof.
  intros Hrec Hre. pose proof (rehydrated_kind _ _ _ _ "session_meta" Hre) as Ksm.
  pose proof (rehydrated_kind _ _ _ _ "turn_context" Hre) as Ktc.
  destruct Hre as [_ Hre].
  destruct (is_kind obj "session_meta") eqn:E1; [|destruct (is_kind obj "turn_context") eqn:E2].
  - destruct Hre as (Hcwd & _).
    apply at_path_payload_dict in Hcwd as (d' & p' & -> & Hp & Hcwd).
    unfold is_record. rewrite Ksm, Hp.
    rewrite at_path_cons in Hcwd. cbn [field] in Hcwd.
    destruct (PyDict.lookup "meta" p') as [[| | | | | |m']|] eqn:Em; try done;
      rewrite ?Em, ?at_path_cons in Hcwd; discriminate.
  - destruct Hre as (Hcwd & _).
    apply at_path_payload_dict in Hcwd as (d' & p' & -> & Hp & Hcwd).
    unfold is_record. by rewrite Ksm, Ktc, Hp.
  - by subst obj'.
Qed.

Lemma carried_cwd_at_path obj :
  carried_cwd obj =
  if is_kind obj "session_meta" then at_path obj ["payload"; "meta"; "cwd"]
  else if is_kind obj "turn_context" then at_path obj ["payload"; "cwd"]
  else None.
Proof.
  unfold carried_cwd. rewrite !at_path_cons.
  destruct (is_kind obj "session_meta"); [|destruct (is_kind obj "turn_context")]; [| |done].
  - destruct (field obj "payload") as [p|]; [|done]. simpl. rewrite !at_path_cons.
    destruct (field p "meta") as [m|]; [|done]. simpl. rewrite !at_path_cons.
    by destruct (field m "cwd").
  - destruct (field obj "payload") as [p|]; [|done]. simpl. rewrite !at_path_cons.
    by destruct (field p "cwd").
Qed.

Lemma read_new_cwd_rehydrated obj new_cwd new_cid obj' :
  is_record obj = true ->
  rehydrated obj new_cwd new_cid obj' ->
  read_new_cwd obj' =
  Ok (if is_kind obj "session_meta" || is_kind obj "turn_context" then new_cwd
      else default JNull (carried_cwd obj)).
Proof.
  intros Hrec Hre. rewrite read_new_cwd_record by (by eapply rehydrated_record).
  f_equal. rewrite carried_cwd_at_path.
  rewrite (rehydrated_kind _ _ _ _ "session_meta" Hre), (rehydrated_kind _ _ _ _ "turn_context" Hre).
  destruct Hre as [_ Hre].
  destruct (is_kind obj "session_meta") eqn:E1; [|destruct (is_kind obj "turn_context") eqn:E2].
  - destruct Hre as (Hcwd & _). by rewrite Hcwd.
  - destruct Hre as (Hcwd & _). by rewrite Hcwd.
  - subst obj'. simpl. rewrite carried_cwd_at_path. by rewrite E1, E2.
Qed.

Lemma is_kind_set_payload d v kind :
  is_kind (JDict (PyDict.set "payload" v d)) kind = is_kind (JDict d) kind.
Proof. unfold is_kind, field. by rewrite PyDictFacts.lookup_set_ne by discriminate. Qed.

Ltac dict_simpl2 :=
  repeat first
    [ progress (cbn [default from_option id mbind result_bind])
    | rewrite py_get_dict
    | rewrite py_eq_str_kind
    | rewrite is_kind_set_payload
    | rewrite PyDictFacts.lookup_set_eq
    | rewrite PyDictFacts.lookup_set_ne by discriminate
    | rewrite set_set
    | rewrite (set_swap "cwd" "id") by discriminate
    | match goal with H : is_kind _ _ = _ |- _ => rewrite H end ].

Lemma update_cwd_and_id_twice obj c1 i1 c2 i2 :
  is_record obj = true ->
  exists o1 o2,
    update_cwd_and_id obj c1 i1 = Ok o1 /\
    update_cwd_and_id o1 c2 i2 = Ok o2 /\
    update_cwd_and_id obj c2 i2 = Ok o2.
Proof.
  destruct obj as [| | | | | |d]; try discriminate.
  unfold is_record, update_cwd_and_id.
  rewrite !py_get_dict. cbn [mbind result_bind]. rewrite !py_eq_str_kind.
  destruct (is_kind (JDict d) "session_meta") eqn:Ksm;
    [|destruct (is_kind (JDict d) "turn_context") eqn:Ktc].
  - destruct (PyDict.lookup "payload" d) as [[| | | | | |p]|] eqn:Ep; try discriminate.
    + simpl. destruct (PyDict.lookup "meta" p) as [[| | | | | |m]|] eqn:Em; try discriminate;
        intros _; simpl; eexists _, _; (split; [reflexivity|]);
        dict_simpl2; simpl; dict_simpl2; split; reflexivity.
    + intros _. simpl. eexists _, _. split; [reflexivity|].
      dict_simpl2. simpl. dict_simpl2. split; reflexivity.
  - destruct (PyDict.lookup "payload" d) as [[| | | | | |p]|] eqn:Ep; try discriminate;
      intros _; simpl; eexists _, _; (split; [reflexivity|]);
      dict_simpl2; simpl; dict_simpl2; split; reflexivity.
  - intros _. exists (JDict d), (JDict d). split; [reflexivity|].
    dict_simpl2. split; reflexivity.
Qed.

(** X9: rehydrating a Record twice is rehydrating it once with the last
    identity: the first replacement leaves no trace, and rehydrating again
    with the same identity changes nothing. *)
Theorem update_cwd_and_id_last_wins (obj c1 i1 c2 i2 : json) :
  is_record obj = true ->
  exists o1 o2,
    update_cwd_and_id obj c1 i1 = Ok o1 /\
    update_cwd_and_id o1 c2 i2 = Ok o2 /\
    update_cwd_and_id obj c2 i2 = Ok o2.
Proof. apply update_cwd_and_id_twice. Qed.

Lemma update_cwd_and_id_last_wins_witness :
  exists o1 o2,
    update_cwd_and_id (session_meta "/a" "OLD") (JStr "/b") (JStr "MID") = Ok o1 /\
    update_cwd_and_id o1 (JStr "/work/proj") (JStr "T1") = Ok o2 /\
    update_cwd_and_id (session_meta "/a" "OLD") (JStr "/work/proj") (JStr "T1") = Ok o2.
Proof.
  exact (update_cwd_and_id_last_wins (session_meta "/a" "OLD") (JStr "/b") (JStr "MID")
           (JStr "/work/proj") (JStr "T1") eq_refl).
Defined.

(** X10: what rehydration writes is what the readers read back.  The
    scanner's reading of a rehydrated session-identity or context-switch
    record (lines 98-103) is the new cwd, and the identity extractor,
    given a file that begins with a rehydrated session-identity record,
    returns the new cwd and id, whatever follows. *)
Theorem rehydrate_read_back (obj new_cwd new_cid : json) :
  is_record obj = true ->
  is_kind obj "session_meta" || is_kind obj "turn_context" = true ->
  exists obj',
    update_cwd_and_id obj new_cwd new_cid = Ok obj' /\
    read_new_cwd obj' = Ok new_cwd /\
    (is_kind obj "session_meta" = true ->
     forall rest,
       extract_cwd_and_id_from_jsonl (Some (Doc obj' :: rest)) = (new_cwd, new_cid)).
Proof.
  intros Hrec Hkind.
  destruct (update_cwd_and_id_effect obj new_cwd new_cid Hrec) as (obj' & Hup & Hre).
  exists obj'. split; [exact Hup|]. split.
  - by rewrite (read_new_cwd_rehydrated _ _ _ _ Hrec Hre), Hkind.
  - intros Ksm rest. change (Doc obj' :: rest) with ([] ++ Doc obj' :: rest).
    rewrite (extract_first_session_meta [] obj' rest); [| constructor | | ].
    + destruct Hre as [_ Hre]. rewrite Ksm in Hre. destruct Hre as (-> & -> & _). done.
    + by eapply rehydrated_record.
    + by rewrite (rehydrated_kind _ _ _ _ _ Hre).
Qed.

Lemma rehydrate_read_back_witness :
  exists obj',
    update_cwd_and_id (session_meta "/a" "OLD") (JStr "/work/proj") (JStr "T1") = Ok obj' /\
    read_new_cwd obj' = Ok (JStr "/work/proj") /\
    extract_cwd_and_id_from_jsonl (Some [Doc obj'; Malformed])
    = (JStr "/work/proj", JStr "T1").
Proof.
  destruct (rehydrate_read_back (session_meta "/a" "OLD") (JStr "/work/proj") (JStr "T1")
              eq_refl eq_refl) as (obj' & H1 & H2 & H3).
  exists obj'. split; [exact H1|]. split; [exact H2|]. exact (H3 eq_refl [Malformed]).
Defined.

(** X11: rehydration keeps a Record a Record and leaves its kind alone, so
    that its result can be scanned, extracted from and rehydrated again
    without an exception. *)
Theorem update_cwd_and_id_keeps_record (obj new_cwd new_cid : json) :
  is_record obj = true ->
  exists obj',
    update_cwd_and_id obj new_cwd new_cid = Ok obj' /\
    is_record obj' = true /\
    forall kind, is_kind obj' kind = is_kind obj kind.
Proof.
  intros Hrec.
  destruct (update_cwd_and_id_effect obj new_cwd new_cid Hrec) as (obj' & Hup & Hre).
  exists obj'. split; [exact Hup|]. split; [by eapply rehydrated_record|].
  intros kind. by eapply rehydrated_kind.
Qed.

Lemma update_cwd_and_id_keeps_record_witness :
  exists obj',
    update_cwd_and_id (turn_context "/a") (JStr "/work/proj") (JStr "T1") = Ok obj' /\
    is_record obj' = true /\
    forall kind, is_kind obj' kind = is_kind (turn_context "/a") kind.
Proof.
  exact (update_cwd_and_id_keeps_record (turn_context "/a") (JStr "/work/proj") (JStr "T1")
           eq_refl).
Defined.

(** ** The key of a record and its kind *)

Lemma lookup_insert_item k kv (d : list (string * json)) :
  PyDict.lookup k (insert_item kv d) = PyDict.lookup k (kv :: d).
Proof.
  destruct kv as [k0 v0]. induction d as [|[k1 v1] d IH]; [done|].
  cbn [insert_item fst]. destruct (String.leb k0 k1) eqn:E; [done|].
  assert (String.eqb k0 k1 = false) as Hne.
  { apply String.eqb_neq. intros ->. pose proof (reflexivity (R := String.le) k1) as Hr.
    unfold String.le in Hr. by rewrite E in Hr. }
  cbn [PyDict.lookup] in *. destruct (String.eqb k1 k) eqn:E1.
  - apply String.eqb_eq in E1 as ->. by rewrite Hne.
  - exact IH.
Qed.

Lemma lookup_sort_items k (d : list (string * json)) :
  PyDict.lookup k (sort_items d) = PyDict.lookup k d.
Proof.
  induction d as [|[k0 v0] d IH]; [done|].
  cbn [sort_items foldr]. rewrite lookup_insert_item. cbn [PyDict.lookup].
  by rewrite <- IH.
Qed.

Lemma lookup_map_values (f : json -> json) k (d : list (string * json)) :
  PyDict.lookup k (map (fun kv => (fst kv, f (snd kv))) d) = f <$> PyDict.lookup k d.
Proof.
  induction d as [|[k0 v0] d IH]; [done|]. simpl. by destruct (String.eqb k0 k).
Qed.

Lemma is_kind_dumps_sorted obj kind : is_kind (dumps_sorted obj) kind = is_kind obj kind.
Proof.
  destruct obj as [| | | | | |d]; try reflexivity.
  unfold is_kind. cbn [dumps_sorted field].
  rewrite lookup_sort_items, lookup_map_values.
  by destruct (PyDict.lookup "type" d) as [[]|].
Qed.

(** Records with the same key are of the same kind. *)
Lemma same_key_same_kind a b kind :
  dumps_sorted a = dumps_sorted b -> is_kind a kind = is_kind b kind.
Proof. intros H. by rewrite <- (is_kind_dumps_sorted a), H, is_kind_dumps_sorted. Qed.

(** ** The identity extractor *)

Lemma is_record_dict obj : is_record obj = true -> exists d, obj = JDict d.
Proof. destruct obj; try discriminate. eauto. Qed.

(** When the extractor finds a cwd, the file is made of lines it passes
    over, then the session-identity record that gives the pair. *)
Lemma extract_loop_inv fh c i :
  extract_loop fh = Ok (c, i) ->
  truthy c = true ->
  exists before sm after,
    fh = before ++ Doc sm :: after /\
    Forall passed_over before /\
    is_record sm = true /\
    is_kind sm "session_meta" = true.
Proof.
  induction fh as [|[| |obj] fh IH]; cbn [extract_loop].
  - by intros [= <- <-].
  - intros H Hc. destruct (IH H Hc) as (before & sm & after & -> & Hb & Hr & Hk).
    exists (Blank :: before), sm, after. split; [done|]. split; [|done].
    constructor; [by left | done].
  - discriminate.
  - destruct obj as [| | | | | |d]; try discriminate.
    rewrite !py_get_dict. cbn [mbind result_bind]. rewrite py_eq_str_kind.
    destruct (is_kind (JDict d) "session_meta") eqn:Ksm.
    + intros H _. exists [], (JDict d), fh. split; [done|]. split; [constructor|].
      split; [|done]. unfold is_record. rewrite Ksm.
      destruct (PyDict.lookup "payload" d) as [[| | | | | |p]|]; try discriminate; [|done].
      cbn [default from_option id] in H. rewrite py_get_dict in H.
      cbn [mbind result_bind] in H.
      by destruct (PyDict.lookup "meta" p) as [[| | | | | |m]|].
    + intros H Hc. destruct (IH H Hc) as (before & sm & after & -> & Hb & Hr & Hk).
      exists (Doc (JDict d) :: before), sm, after. split; [done|]. split; [|done].
      constructor; [|done]. right. by exists d.
Qed.

Lemma passed_over_record r :
  is_record r = true -> is_kind r "session_meta" = false -> passed_over (Doc r).
Proof. intros [d ->]%is_record_dict Hk. right. by exists d. Qed.

(** The first record of a kind, if there is one. *)
Lemma first_of_kind kind (rs : list json) :
  Forall (fun r => is_kind r kind = false) rs \/
  exists rs1 x rs2,
    rs = rs1 ++ x :: rs2 /\ Forall (fun r => is_kind r kind = false) rs1 /\
    is_kind x kind = true.
Proof.
  induction rs as [|r rs IH]; [left; constructor|].
  destruct (is_kind r kind) eqn:E.
  - right. exists [], r, rs. by repeat split.
  - destruct IH as [IH|(rs1 & x & rs2 & -> & H1 & Hx)].
    + left. by constructor.
    + right. exists (r :: rs1), x, rs2. repeat split; [|done]. by constructor.
Qed.

(** De-duplication keeps the first session-identity record, and nothing
    but what came before it comes before it. *)
Lemma first_occurrences_first_sm (before : list json) (x : json) (after : list json) :
  Forall (fun r => is_kind r "session_meta" = false) before ->
  is_kind x "session_meta" = true ->
  exists kept after',
    first_occurrences dumps_sorted (before ++ x :: after) = kept ++ x :: after' /\
    sublist kept before.
Proof.
  intros Hb Hx. rewrite first_occurrences_app, filter_cons.
  rewrite decide_True.
  - rewrite first_occurrences_cons. eexists _, _. split; [reflexivity|].
    apply kept_when_sublist.
  - intros (r & Hk & Hr)%list_elem_of_fmap.
    rewrite Forall_forall in Hb. specialize (Hb r Hr).
    by rewrite (same_key_same_kind _ _ _ Hk), Hb in Hx.
Qed.

(** ** The repair of one file *)

Lemma filter_all {A} (P : A -> Prop) `{forall x, Decision (P x)} (l : list A) :
  Forall P l -> filter P l = l.
Proof.
  induction 1 as [|x l Hx _ IH]; [done|].
  by rewrite filter_cons, decide_True, IH.
Qed.

Lemma filter_none {A} (P : A -> Prop) `{forall x, Decision (P x)} (l : list A) :
  Forall (fun x => ~ P x) l -> filter P l = [].
Proof.
  induction 1 as [|x l Hx _ IH]; [done|].
  by rewrite filter_cons, decide_False, IH.
Qed.

(** Merging the same source again into the merged sequence changes
    nothing. *)
Lemma first_occurrences_absorb {A K : Type} `{EqDecision K} (key : A -> K) (xs ys : list A) :
  first_occurrences key (xs ++ first_occurrences key (xs ++ ys))
  = first_occurrences key (xs ++ ys).
Proof.
  rewrite (first_occurrences_app key xs ys).
  rewrite (first_occurrences_app key xs (_ ++ _)). f_equal.
  rewrite filter_app, filter_none, filter_all, app_nil_l.
  - apply first_occurrences_idem.
  - apply Forall_forall. intros x Hx Hin.
    assert (key x ∈ map key (first_occurrences key (filter (fun y => key y ∉ map key xs) ys)))
      as Hk by (apply list_elem_of_fmap; eauto).
    apply (proj1 (first_occurrences_keys key _ _)), list_elem_of_fmap in Hk as (y & Hy & Hy').
    apply list_elem_of_filter in Hy' as [Hy' _]. apply Hy'. by rewrite <- Hy.
  - apply Forall_forall. intros x Hx Hnot. apply Hnot.
    apply (first_occurrences_keys key xs), list_elem_of_fmap. eauto.
Qed.

Lemma first_occurrences_elem {A K : Type} `{EqDecision K} (key : A -> K) (xs : list A) x :
  x ∈ first_occurrences key xs -> x ∈ xs.
Proof. apply kept_when_elem. Qed.

Section RepairMore.
Variable py_repr : json -> string.
Variable encodable : json -> bool.

(** What a successful repair went through. *)
Lemma process_jsonl_true_inv fs name dry_run fs' :
  process_jsonl py_repr encodable fs name dry_run = (Ok true, fs') ->
  exists fh c i ts src rest r rs,
    fs_read fs name = Some fh /\
    extract_cwd_and_id_from_jsonl (Some fh) = (c, i) /\
    truthy c = true /\ truthy i = true /\
    ts_prefix_from_name name = Some ts /\
    has_double_star ts = false /\
    order_candidates (fs_glob fs (backup_pattern ts)) = src :: rest /\
    collect_cwd_filtered_lines py_repr (fs_read fs src) (normalize_cwd (py_str py_repr c))
    = Ok (r :: rs) /\
    (dry_run = true \/
     forallb encodable (merge (map (rehydrate c i) (r :: rs)) (docs fh)) = true) /\
    fs' = if dry_run then fs
          else fs_put name (merge (map (rehydrate c i) (r :: rs)) (docs fh)) fs.
Proof.
  rewrite process_jsonl_states. unfold repair_state_of, identity_absent.
  destruct (fs_read fs name) as [fh|] eqn:Hread; [|discriminate].
  destruct (extract_cwd_and_id_from_jsonl (Some fh)) as [c i] eqn:Hid.
  cbn [fst snd default from_option id].
  destruct (truthy c) eqn:Hc; [|discriminate].
  destruct (truthy i) eqn:Hi; [|discriminate]. cbn [negb orb].
  destruct (ts_prefix_from_name name) as [ts|] eqn:Hts; [|discriminate].
  rewrite (star_prefix_ts _ _ Hts).
  destruct (has_double_star ts) eqn:Hstar.
  { destruct (order_candidates _) as [|src rest]; [discriminate|].
    by destruct (collect_cwd_filtered_lines _ _ _) as [[|r rs]|e]. }
  destruct (order_candidates _) as [|src rest] eqn:Hoc; [discriminate|].
  destruct (collect_cwd_filtered_lines _ _ _) as [[|r rs]|e] eqn:Hscan; try discriminate.
  destruct dry_run.
  - intros [= <-]. exists fh, c, i, ts, src, rest, r, rs. repeat split; try done. by left.
  - destruct (forallb encodable _) eqn:Hall; [|discriminate].
    rewrite (writable_prefix_all _ _ Hall). intros [= <-].
    exists fh, c, i, ts, src, rest, r, rs. repeat split; try done. by right.
Qed.

Lemma process_jsonl_true_intro fs name dry_run fh c i ts src rest r rs :
  fs_read fs name = Some fh ->
  extract_cwd_and_id_from_jsonl (Some fh) = (c, i) ->
  truthy c = true -> truthy i = true ->
  ts_prefix_from_name name = Some ts ->
  has_double_star ts = false ->
  order_candidates (fs_glob fs (backup_pattern ts)) = src :: rest ->
  collect_cwd_filtered_lines py_repr (fs_read fs src) (normalize_cwd (py_str py_repr c))
  = Ok (r :: rs) ->
  dry_run = true \/
  forallb encodable (merge (map (rehydrate c i) (r :: rs)) (docs fh)) = true ->
  process_jsonl py_repr encodable fs name dry_run
  = (Ok true, if dry_run then fs
              else fs_put name (merge (map (rehydrate c i) (r :: rs)) (docs fh)) fs).
Proof.
  intros Hread Hid Hc Hi Hts Hstar Hoc Hscan Hwrite.
  rewrite process_jsonl_states. unfold repair_state_of, identity_absent.
  rewrite Hread, Hid. cbn [fst snd default from_option id].
  rewrite Hc, Hi, Hts, Hoc, Hscan, (star_prefix_ts _ _ Hts), Hstar. cbn [negb orb].
  destruct dry_run; [done|]. destruct Hwrite as [|Hall]; [done|].
  by rewrite Hall, (writable_prefix_all _ _ Hall).
Qed.

Lemma fs_put_read name objs fs : fs_read (fs_put name objs fs) name = Some (map Doc objs).
Proof. simpl. by rewrite String.eqb_refl. Qed.

Lemma fs_put_read_ne name objs fs n :
  n <> name -> fs_read (fs_put name objs fs) n = fs_read fs n.
Proof. intros Hne. simpl. by apply String.eqb_neq in Hne as ->. Qed.

Lemma rehydrate_spec c i obj :
  is_record obj = true ->
  update_cwd_and_id obj c i = Ok (rehydrate c i obj) /\
  rehydrated obj c i (rehydrate c i obj) /\
  is_record (rehydrate c i obj) = true.
Proof.
  intros Hrec. unfold rehydrate.
  destruct (update_cwd_and_id_effect obj c i Hrec) as (obj' & -> & Hre).
  split; [done|]. split; [done|]. by eapply rehydrated_record.
Qed.

Lemma rehydrate_records c i ls :
  Forall (fun r => is_record r = true) ls ->
  Forall (fun r => is_record r = true) (map (rehydrate c i) ls).
Proof. intros H. apply Forall_map. eapply Forall_impl; [exact H|]. intros r Hr. by apply rehydrate_spec. Qed.

Lemma rehydrate_spec_rehydrated c i obj :
  is_record obj = true -> rehydrated obj c i (rehydrate c i obj).
Proof. intros H. by apply rehydrate_spec. Qed.

(** The identity a file gives when it gives one: that of its first
    session-identity record, with only passed-over lines before it. *)
Lemma extract_inv fh c i :
  extract_cwd_and_id_from_jsonl (Some fh) = (c, i) ->
  truthy c = true ->
  exists before sm after,
    fh = before ++ Doc sm :: after /\
    Forall passed_over before /\
    is_record sm = true /\
    is_kind sm "session_meta" = true /\
    at_path sm ["payload"; "meta"; "cwd"] = Some c /\
    default JNull (at_path sm ["payload"; "meta"; "id"]) = i.
Proof.
  intros Hid Hc.
  assert (extract_loop fh = Ok (c, i)) as Hloop.
  { unfold extract_cwd_and_id_from_jsonl in Hid.
    destruct (extract_loop fh) as [p|e]; [by rewrite Hid|].
    injection Hid as <- <-. discriminate. }
  destruct (extract_loop_inv fh c i Hloop Hc) as (before & sm & after & -> & Hb & Hr & Hk).
  exists before, sm, after. repeat split; try done.
  - rewrite (extract_first_session_meta before sm after Hb Hr Hk) in Hid.
    injection Hid as Hcwd _.
    destruct (at_path sm ["payload"; "meta"; "cwd"]) as [v|]; simpl in Hcwd; [by rewrite Hcwd|].
    by rewrite <- Hcwd in Hc.
  - rewrite (extract_first_session_meta before sm after Hb Hr Hk) in Hid.
    by injection Hid as _ Hcid.
Qed.

Lemma passed_over_kinds before :
  Forall passed_over before ->
  Forall (fun r => passed_over (Doc r)) (docs before) /\
  Forall (fun r => is_kind r "session_meta" = false) (docs before).
Proof.
  induction 1 as [|l fh [->|(d & -> & Hd)] _ [IH1 IH2]]; simpl; [by split | by split |].
  split; constructor; try done. right. by exists d.
Qed.

Lemma Forall_sublist_of {A} (P : A -> Prop) (l1 l2 : list A) :
  sublist l1 l2 -> Forall P l2 -> Forall P l1.
Proof.
  rewrite !Forall_forall. intros Hsub H x Hx. eapply H, elem_of_sublist; eauto.
Qed.

(** The merged sequence gives the identity the target gave: its first
    session-identity record is a rehydrated one or the target's own. *)
Lemma extract_merged fh c i ls :
  extract_cwd_and_id_from_jsonl (Some fh) = (c, i) ->
  truthy c = true ->
  Forall (fun r => is_record r = true) ls ->
  extract_cwd_and_id_from_jsonl
    (Some (map Doc (merge (map (rehydrate c i) ls) (docs fh)))) = (c, i).
Proof.
  intros Hid Hc Hls.
  destruct (extract_inv fh c i Hid Hc)
    as (before & sm & after & -> & Hb & Hr & Hk & Hcwd & Hcid).
  destruct (passed_over_kinds before Hb) as [Hpo Hkinds].
  unfold merge. rewrite dedup_first_occurrences.
  rewrite docs_app. cbn [docs].
  pose proof (rehydrate_records c i ls Hls) as HR.
  destruct (first_of_kind "session_meta" (map (rehydrate c i) ls))
    as [Hnone|(rs1 & x & rs2 & Hsplit & Hrs1 & Hx)].
  - rewrite app_assoc.
    destruct (first_occurrences_first_sm (map (rehydrate c i) ls ++ docs before) sm (docs after))
      as (kept & after' & -> & Hsub); [by apply Forall_app | done |].
    rewrite map_app. cbn [map].
    rewrite (extract_first_session_meta _ sm _); [by rewrite Hcwd, Hcid | | done | done].
    apply Forall_map. eapply Forall_sublist_of; [exact Hsub|].
    apply Forall_app. split; [|done].
    rewrite Forall_forall in *. intros r Hin. apply passed_over_record; auto.
  - rewrite Hsplit, <- app_assoc. cbn [app].
    destruct (first_occurrences_first_sm rs1 x (rs2 ++ docs before ++ sm :: docs after))
      as (kept & after' & -> & Hsub); [done | done |].
    rewrite map_app. cbn [map].
    assert (x ∈ map (rehydrate c i) ls) as Hxin.
    { rewrite Hsplit, elem_of_app, elem_of_cons. auto. }
    apply list_elem_of_fmap in Hxin as (x0 & -> & Hx0).
    rewrite Forall_forall in Hls. specialize (Hls x0 Hx0).
    destruct (rehydrate_spec c i x0 Hls) as (_ & Hre & Hrec').
    rewrite (extract_first_session_meta _ _ _); [ | | done | done].
    + destruct Hre as [_ Hre].
      rewrite <- (rehydrated_kind _ _ _ _ "session_meta" (rehydrate_spec_rehydrated c i x0 Hls)) in Hre.
      rewrite Hx in Hre. destruct Hre as (-> & -> & _). done.
    + apply Forall_map. eapply Forall_sublist_of; [exact Hsub|].
      rewrite Hsplit in HR. apply Forall_app in HR as [HR1 _].
      rewrite Forall_forall in *. intros r Hin. apply passed_over_record; auto.
Qed.

Lemma order_candidates_elem cs src rest :
  order_candidates cs = src :: rest -> src ∈ cs.
Proof.
  rewrite order_candidates_sort. intros Hoc.
  rewrite <- (sort_by_len_desc_perm cs), Hoc. by left.
Qed.

Lemma collect_ok_some src target r rs :
  collect_cwd_filtered_lines py_repr src target = Ok (r :: rs) ->
  exists backup, src = Some backup /\ is_log backup = true /\
                 sublist (r :: rs) (docs backup).
Proof.
  destruct src as [backup|]; [|discriminate].
  rewrite collect_spec. destruct (is_log backup) eqn:Hlog; [|discriminate].
  intros [= H]. exists backup. split; [done|]. split; [done|].
  rewrite <- H. apply kept_when_sublist.
Qed.

End RepairMore.

(** The merged sequence, merged again with the same source, is itself. *)
Lemma merge_absorb (source existing : list json) :
  merge source (docs (map Doc (merge source existing))) = merge source existing.
Proof.
  rewrite docs_map_Doc. unfold merge.
  by rewrite !dedup_first_occurrences, first_occurrences_absorb.
Qed.

(** What each state of the repair tells of the directory. *)
Lemma repair_state_cases (py_repr : json -> string) (fs : filesystem) (name : string) :
  let identity := extract_cwd_and_id_from_jsonl (fs_read fs name) in
  match repair_state_of py_repr fs name with
  | NoIdentity => identity_absent identity = true
  | NoTimestamp => identity_absent identity = false /\ ts_prefix_from_name name = None
  | NoCandidate =>
      identity_absent identity = false /\
      exists ts, ts_prefix_from_name name = Some ts /\
                 order_candidates (fs_glob fs (backup_pattern ts)) = []
  | NoMatchingRecords =>
      identity_absent identity = false /\
      exists ts src,
        ts_prefix_from_name name = Some ts /\
        head (order_candidates (fs_glob fs (backup_pattern ts))) = Some src /\
        collect_cwd_filtered_lines py_repr (fs_read fs src)
          (normalize_cwd (py_str py_repr (fst identity))) = Ok []
  | ScanRaised e =>
      identity_absent identity = false /\
      exists ts src backup,
        ts_prefix_from_name name = Some ts /\
        head (order_candidates (fs_glob fs (backup_pattern ts))) = Some src /\
        fs_read fs src = Some backup /\
        is_log backup = false /\
        e = AttributeError
  | Repaired merged =>
      identity_absent identity = false /\
      exists ts src r rs,
        ts_prefix_from_name name = Some ts /\
        head (order_candidates (fs_glob fs (backup_pattern ts))) = Some src /\
        collect_cwd_filtered_lines py_repr (fs_read fs src)
          (normalize_cwd (py_str py_repr (fst identity))) = Ok (r :: rs) /\
        merged = merge (map (rehydrate (fst identity) (snd identity)) (r :: rs))
                       (docs (default [] (fs_read fs name)))
  end.
Proof.
  intros identity. unfold repair_state_of. fold identity.
  destruct (identity_absent identity); [done|].
  destruct (ts_prefix_from_name name) as [ts|]; [|done].
  destruct (order_candidates _) as [|src rest] eqn:Hoc; [by eauto|].
  destruct (collect_cwd_filtered_lines _ _ _) as [[|r rs]|e] eqn:Hscan.
  - split; [done|]. exists ts, src. by rewrite Hoc.
  - split; [done|]. exists ts, src, r, rs. by rewrite Hoc.
  - split; [done|]. destruct (fs_read fs src) as [backup|] eqn:Hb; [|discriminate].
    rewrite collect_spec in Hscan. destruct (is_log backup) eqn:Hl; [discriminate|].
    injection Hscan as <-. exists ts, src, backup. by rewrite Hoc.
Qed.

Lemma repair_state_scan_raised (py_repr : json -> string) fs name ts src backup :
  identity_absent (extract_cwd_and_id_from_jsonl (fs_read fs name)) = false ->
  ts_prefix_from_name name = Some ts ->
  head (order_candidates (fs_glob fs (backup_pattern ts))) = Some src ->
  fs_read fs src = Some backup ->
  is_log backup = false ->
  repair_state_of py_repr fs name = ScanRaised AttributeError.
Proof.
  intros Hid Hts Hhd Hb Hl. unfold repair_state_of. rewrite Hid, Hts.
  destruct (order_candidates _) as [|c cs]; [discriminate|]. injection Hhd as ->.
  by rewrite Hb, collect_spec, Hl.
Qed.

Lemma process_jsonl_raises_inv
    (py_repr : json -> string) (encodable : json -> bool)
    (fs : filesystem) (jsonl_path : string) (dry_run : bool) (e : exn) :
  fst (process_jsonl py_repr encodable fs jsonl_path dry_run) = Raise e <->
  identity_absent (extract_cwd_and_id_from_jsonl (fs_read fs jsonl_path)) = false /\
  exists ts,
    ts_prefix_from_name jsonl_path = Some ts /\
    (e = ValueError /\
     has_double_star ts = true /\
     snd (process_jsonl py_repr encodable fs jsonl_path dry_run) = fs
     \/
     e = AttributeError /\
     has_double_star ts = false /\
     (exists src backup,
        head (order_candidates (fs_glob fs (backup_pattern ts))) = Some src /\
        fs_read fs src = Some backup /\
        is_log backup = false) /\
     snd (process_jsonl py_repr encodable fs jsonl_path dry_run) = fs
     \/
     e = UnicodeEncodeError /\
     has_double_star ts = false /\
     dry_run = false /\
     exists merged obj rest,
       repair_state_of py_repr fs jsonl_path = Repaired merged /\
       merged = writable_prefix encodable merged ++ obj :: rest /\
       encodable obj = false /\
       snd (process_jsonl py_repr encodable fs jsonl_path dry_run)
       = fs_put jsonl_path (writable_prefix encodable merged) fs).
Proof.
  rewrite process_jsonl_states.
  pose proof (repair_state_cases py_repr fs jsonl_path) as Hcases. simpl in Hcases.
  split.
  - destruct (repair_state_of py_repr fs jsonl_path) as [| | | |e'|merged] eqn:Hst;
      try discriminate.
    + destruct Hcases as (Hid & ts & Hts & _). rewrite (star_prefix_ts _ _ Hts).
      destruct (has_double_star ts) eqn:Hstar; [|discriminate].
      intros [= <-]. split; [done|]. exists ts. split; [done|]. by left.
    + destruct Hcases as (Hid & ts & src & Hts & _). rewrite (star_prefix_ts _ _ Hts).
      destruct (has_double_star ts) eqn:Hstar; [|discriminate].
      intros [= <-]. split; [done|]. exists ts. split; [done|]. by left.
    + destruct Hcases as (Hid & ts & src & backup & Hts & Hhd & Hb & Hl & ->).
      rewrite (star_prefix_ts _ _ Hts).
      destruct (has_double_star ts) eqn:Hstar; intros [= <-]; (split; [done|]);
        exists ts; (split; [done|]); [by left|].
      right. left. repeat split; try done. by exists src, backup.
    + destruct Hcases as (Hid & ts & src & r & rs & Hts & _).
      rewrite (star_prefix_ts _ _ Hts).
      destruct (has_double_star ts) eqn:Hstar.
      { intros [= <-]. split; [done|]. exists ts. split; [done|]. by left. }
      destruct dry_run; [discriminate|].
      destruct (forallb encodable merged) eqn:Hall; [discriminate|].
      intros [= <-]. split; [done|]. exists ts. split; [done|]. right. right.
      destruct (writable_prefix_stops encodable merged Hall) as (obj & rest & Hm & Hobj & _).
      repeat split; try done. by exists merged, obj, rest.
  - intros (Hid & ts & Hts & Hcase). rewrite (star_prefix_ts _ _ Hts).
    destruct Hcase as [(-> & Hstar & _)|[(-> & Hstar & (src & backup & Hhd & Hb & Hl) & _)|
                        (-> & Hstar & -> & merged & obj & rest & Hst & Hm & Hobj & _)]].
    + rewrite Hstar.
      destruct (repair_state_of py_repr fs jsonl_path); try done.
      * by rewrite Hcases in Hid.
      * destruct Hcases as [_ Hnone]. by rewrite Hnone in Hts.
    + by rewrite (repair_state_scan_raised py_repr _ _ _ _ _ Hid Hts Hhd Hb Hl), Hstar.
    + rewrite Hst, Hstar.
      assert (forallb encodable merged = false) as ->; [|done].
      rewrite Hm, forallb_app. simpl. by rewrite Hobj, andb_false_r.
Qed.

(** X12: the repair of a file raises in three cases, and in no other.
    The timestamp prefix of the name holds [**]: [glob] refuses the
    pattern with a [ValueError] (line 137).  Or the chosen backup holds a
    parseable line that is no Record: the scanner's [obj.get] or
    [payload.get] fails with an [AttributeError] (lines 98-103).  In both
    the directory is left as it was.  Or, the run not being a dry run, a
    merged document cannot be encoded: the write fails with a
    [UnicodeEncodeError] (line 173) after the target was emptied, and the
    target holds the merged documents before that one.  In particular
    [candidates[0]] (line 143) never raises, and the second opening of the
    target (line 156) never fails.  (A file of the model exists, and can
    then be read and written, or does not exist: failures of the operating
    system are outside it.) *)
Theorem process_jsonl_raises_iff
    (py_repr : json -> string) (encodable : json -> bool)
    (fs : filesystem) (jsonl_path : string) (dry_run : bool) (e : exn) :
  fst (process_jsonl py_repr encodable fs jsonl_path dry_run) = Raise e <->
  identity_absent (extract_cwd_and_id_from_jsonl (fs_read fs jsonl_path)) = false /\
  exists ts,
    ts_prefix_from_name jsonl_path = Some ts /\
    (e = ValueError /\
     has_double_star ts = true /\
     snd (process_jsonl py_repr encodable fs jsonl_path dry_run) = fs
     \/
     e = AttributeError /\
     has_double_star ts = false /\
     (exists src backup,
        head (order_candidates (fs_glob fs (backup_pattern ts))) = Some src /\
        fs_read fs src = Some backup /\
        is_log backup = false) /\
     snd (process_jsonl py_repr encodable fs jsonl_path dry_run) = fs
     \/
     e = UnicodeEncodeError /\
     has_double_star ts = false /\
     dry_run = false /\
     exists merged obj rest,
       repair_state_of py_repr fs jsonl_path = Repaired merged /\
       merged = writable_prefix encodable merged ++ obj :: rest /\
       encodable obj = false /\
       snd (process_jsonl py_repr encodable fs jsonl_path dry_run)
       = fs_put jsonl_path (writable_prefix encodable merged) fs).
Proof. apply process_jsonl_raises_inv. Qed.

(** X13: what a successful repair writes.  The file read again has a
    document on every line and at least one: the blank and the unparseable
    lines the target held are not written back.  No two of the documents
    have the same canonical serialisation; every document the target held
    is there, up to the order of its fields; every document written could
    be encoded and is one the target held or a Record of one of the backups
    [glob] returned, rehydrated with the target's identity. *)
Theorem process_jsonl_written
    (py_repr : json -> string) (encodable : json -> bool)
    (fs : filesystem) (jsonl_path : string) (fs' : filesystem) :
  process_jsonl py_repr encodable fs jsonl_path false = (Ok true, fs') ->
  exists fh merged,
    fs_read fs jsonl_path = Some fh /\
    fs_read fs' jsonl_path = Some (map Doc merged) /\
    (Blank ∉ map Doc merged) /\
    (Malformed ∉ map Doc merged) /\
    merged <> [] /\
    NoDup (map dumps_sorted merged) /\
    (forall d, d ∈ docs fh -> dumps_sorted d ∈ map dumps_sorted merged) /\
    (forall m, m ∈ merged ->
       encodable m = true /\
       (m ∈ docs fh \/
        exists ts src backup b,
          ts_prefix_from_name jsonl_path = Some ts /\
          src ∈ fs_glob fs (backup_pattern ts) /\
          fs_read fs src = Some backup /\
          Doc b ∈ backup /\
          update_cwd_and_id b (fst (extract_cwd_and_id_from_jsonl (Some fh)))
                              (snd (extract_cwd_and_id_from_jsonl (Some fh))) = Ok m)).
Proof.
  intros Hrun.
  destruct (process_jsonl_true_inv py_repr encodable _ _ _ _ Hrun)
    as (fh & c & i & ts & src & rest & r & rs &
        Hread & Hid & Hc & Hi & Hts & Hstar & Hoc & Hscan & [|Hall] & ->); [done|].
  exists fh, (merge (map (rehydrate c i) (r :: rs)) (docs fh)).
  split; [done|]. split; [apply fs_put_read|].
  split; [by intros (? & ? & _)%list_elem_of_fmap|].
  split; [by intros (? & ? & _)%list_elem_of_fmap|].
  rewrite forallb_forall in Hall.
  unfold merge in *. rewrite dedup_first_occurrences in *.
  split.
  { intros Hnil. cbn [map app] in Hnil. by rewrite first_occurrences_cons in Hnil. }
  split; [apply first_occurrences_NoDup|].
  split.
  - intros d Hd. apply first_occurrences_keys. rewrite map_app, elem_of_app. right.
    by apply list_elem_of_fmap_2.
  - intros m Hm. split; [by apply Hall, list_elem_of_In|].
    apply first_occurrences_elem, elem_of_app in Hm as [Hm|Hm]; [right | by left].
    apply list_elem_of_fmap in Hm as (b & -> & Hb).
    destruct (collect_ok_some py_repr _ _ _ _ Hscan) as (backup & Hsrc & Hlog & Hsub).
    pose proof (collect_ok_records py_repr _ _ _ Hscan) as Hrecs.
    rewrite Forall_forall in Hrecs.
    exists ts, src, backup, b. split; [done|].
    split; [by eapply order_candidates_elem|]. split; [done|]. split.
    + apply (elem_of_sublist _ _ _ Hb) in Hsub. clear -Hsub.
      induction backup as [|[| |o] backup IH]; simpl in Hsub.
      * by apply elem_of_nil in Hsub.
      * right. auto.
      * right. auto.
      * apply elem_of_cons in Hsub as [->|Hsub]; [left | right; auto].
    + rewrite Hid. simpl. by apply rehydrate_spec, Hrecs.
Qed.

Lemma process_jsonl_written_witness :
  let fs := sample_fs [Doc (session_meta "/work/proj" "T1"); Malformed; Doc (data_record 7)]
                      sample_backup in
  exists merged,
    fs_read (snd (process_jsonl sample_repr all_encodable fs target_name false)) target_name
    = Some (map Doc merged) /\
    (Malformed ∉ map Doc merged) /\
    NoDup (map dumps_sorted merged) /\
    dumps_sorted (data_record 7) ∈ map dumps_sorted merged.
Proof.
  intros fs.
  destruct (process_jsonl_written sample_repr all_encodable fs target_name
              (snd (process_jsonl sample_repr all_encodable fs target_name false)) eq_refl)
    as (fh & merged & Hfh & Hread & _ & Hmal & _ & Hnodup & Hkeep & _).
  exists merged. split; [exact Hread|]. split; [exact Hmal|]. split; [exact Hnodup|].
  apply Hkeep. injection Hfh as <-. right. left.
Defined.

(** X14: a successful repair leaves the target its identity: the
    extractor, run on the file as written, returns the cwd and id it
    returned before (so the file can be repaired again, and the repair
    never turns it into one of another session). *)
Theorem process_jsonl_keeps_identity
    (py_repr : json -> string) (encodable : json -> bool)
    (fs : filesystem) (jsonl_path : string) (dry_run : bool) (fs' : filesystem) :
  process_jsonl py_repr encodable fs jsonl_path dry_run = (Ok true, fs') ->
  extract_cwd_and_id_from_jsonl (fs_read fs' jsonl_path)
  = extract_cwd_and_id_from_jsonl (fs_read fs jsonl_path) /\
  identity_absent (extract_cwd_and_id_from_jsonl (fs_read fs' jsonl_path)) = false.
Proof.
  intros Hrun.
  destruct (process_jsonl_true_inv py_repr encodable _ _ _ _ Hrun)
    as (fh & c & i & ts & src & rest & r & rs &
        Hread & Hid & Hc & Hi & Hts & Hstar & Hoc & Hscan & _ & ->).
  assert (extract_cwd_and_id_from_jsonl
            (fs_read (if dry_run then fs
                      else fs_put jsonl_path (merge (map (rehydrate c i) (r :: rs)) (docs fh)) fs)
                     jsonl_path) = (c, i)) as ->.
  { destruct dry_run; [by rewrite Hread|]. rewrite fs_put_read.
    apply extract_merged; [done | done |]. by eapply collect_ok_records. }
  rewrite Hread, Hid. split; [done|]. unfold identity_absent. simpl. by rewrite Hc, Hi.
Qed.

Lemma process_jsonl_keeps_identity_witness :
  let fs := sample_fs [Doc (data_record 7); Doc (session_meta "/Work/Proj/" "T1")]
                      sample_backup in
  extract_cwd_and_id_from_jsonl
    (fs_read (snd (process_jsonl sample_repr all_encodable fs target_name false)) target_name)
  = (JStr "/Work/Proj/", JStr "T1").
Proof.
  intros fs.
  exact (proj1 (process_jsonl_keeps_identity sample_repr all_encodable fs target_name false
                  (snd (process_jsonl sample_repr all_encodable fs target_name false)) eq_refl)).
Defined.

(** X15: repairing is idempotent.  Where the target is not itself among
    the backups globbed for it, a second repair after a successful one
    succeeds again and writes the file it finds. *)
Theorem process_jsonl_idempotent
    (py_repr : json -> string) (encodable : json -> bool)
    (fs : filesystem) (jsonl_path : string) (fs1 : filesystem) :
  (forall ts, ts_prefix_from_name jsonl_path = Some ts ->
              jsonl_path ∉ fs_glob fs (backup_pattern ts)) ->
  process_jsonl py_repr encodable fs jsonl_path false = (Ok true, fs1) ->
  exists fs2,
    process_jsonl py_repr encodable fs1 jsonl_path false = (Ok true, fs2) /\
    (forall n, fs_read fs2 n = fs_read fs1 n) /\
    fs_glob fs2 = fs_glob fs1.
Proof.
  intros Hfresh Hrun.
  destruct (process_jsonl_true_inv py_repr encodable _ _ _ _ Hrun)
    as (fh & c & i & ts & src & rest & r & rs &
        Hread & Hid & Hc & Hi & Hts & Hstar & Hoc & Hscan & [|Hall] & ->); [done|].
  set (merged := merge (map (rehydrate c i) (r :: rs)) (docs fh)) in *.
  pose proof (collect_ok_records py_repr _ _ _ Hscan) as Hrecs.
  assert (src <> jsonl_path) as Hne.
  { intros ->. eapply Hfresh; [exact Hts|]. by eapply order_candidates_elem. }
  eexists. split.
  - eapply (process_jsonl_true_intro py_repr encodable _ _ false (map Doc merged)
              c i ts src rest r rs).
    + apply fs_put_read.
    + by apply extract_merged.
    + done.
    + done.
    + done.
    + done.
    + exact Hoc.
    + by rewrite fs_put_read_ne.
    + right. subst merged. by rewrite merge_absorb.
  - split; [|done]. intros n. cbn [fs_read fs_put].
    destruct (String.eqb n jsonl_path); [|done].
    subst merged. by rewrite merge_absorb.
Qed.

Lemma process_jsonl_idempotent_witness :
  let fs := sample_fs [Doc (session_meta "/work/proj" "T1"); Doc (data_record 7)] sample_backup in
  let fs1 := snd (process_jsonl sample_repr all_encodable fs target_name false) in
  exists fs2,
    process_jsonl sample_repr all_encodable fs1 target_name false = (Ok true, fs2) /\
    fs_read fs2 target_name = fs_read fs1 target_name.
Proof.
  intros fs fs1.
  destruct (process_jsonl_idempotent sample_repr all_encodable fs target_name fs1)
    as (fs2 & H1 & H2 & _).
  - intros ts [= <-]. vm_compute. intros H. by apply list_elem_of_singleton in H.
  - reflexivity.
  - exists fs2. split; [exact H1|]. apply H2.
Defined.

(** ** The batch driver *)

Lemma endswith_split s suffix :
  endswith s suffix = true -> exists pre, s = pre +:+ suffix.
Proof.
  unfold endswith. intros [_ He%String.eqb_eq]%andb_prop.
  exists (PyStr.slice_to (String.length s - String.length suffix) s).
  rewrite <- He at 2. symmetry. apply slice_to_from.
Qed.

Lemma endswith_append pre suffix : endswith (pre +:+ suffix) suffix = true.
Proof.
  unfold endswith. rewrite length_append. apply andb_true_intro. split.
  - apply Nat.leb_le. lia.
  - replace (String.length pre + String.length suffix - String.length suffix)
      with (String.length pre) by lia.
    rewrite slice_from_append. apply String.eqb_refl.
Qed.

Lemma get_lower n s : String.get n (PyStr.lower s) = PyStr.lower_char <$> String.get n s.
Proof.
  revert n. induction s as [|c s IH]; intros [|n]; simpl; auto.
Qed.

Lemma get_last pre suffix n :
  String.get (String.length pre + n) (pre +:+ suffix) = String.get n suffix.
Proof. rewrite Nat.add_comm. symmetry. apply append_correct2. Qed.

(** A name that ends in [.jsonl], in whatever letter case, does not end in
    [.mixed.bak]. *)
Lemma jsonl_not_backup s :
  endswith (PyStr.lower s) ".jsonl" = true -> endswith s ".mixed.bak" = false.
Proof.
  intros [pre Hpre]%endswith_split.
  destruct (endswith s ".mixed.bak") eqn:Hbak; [exfalso|done].
  apply endswith_split in Hbak as [pre' ->].
  pose proof (f_equal String.length Hpre) as Hlen.
  rewrite PyStrFacts.length_lower, !length_append in Hlen. simpl in Hlen.
  pose proof (get_lower (String.length pre' + 9) (pre' +:+ ".mixed.bak")) as Hget.
  rewrite Hpre, get_last in Hget.
  replace (String.length pre' + 9) with (String.length pre + 5) in Hget by lia.
  rewrite get_last in Hget. discriminate.
Qed.

Section BatchFacts.
Variable py_repr : json -> string.
Variable encodable : json -> bool.

Lemma process_path_eq t jsonl dry_run :
  process_path py_repr encodable t jsonl dry_run =
  (fst (process_jsonl py_repr encodable (day_dir t (parent jsonl)) (name jsonl) dry_run),
   set_dir (parent jsonl)
           (snd (process_jsonl py_repr encodable (day_dir t (parent jsonl)) (name jsonl) dry_run)) t).
Proof. unfold process_path. by destruct (process_jsonl _ _ _ _). Qed.

Lemma main_loop_cons jsonl files dry_run t total repaired :
  main_loop py_repr encodable (jsonl :: files) dry_run t total repaired =
  match fst (process_path py_repr encodable t jsonl dry_run) with
  | Raise e => (Raise e, snd (process_path py_repr encodable t jsonl dry_run))
  | Ok ok =>
      main_loop py_repr encodable files dry_run (snd (process_path py_repr encodable t jsonl dry_run))
                (total + 1) (if ok then repaired + 1 else repaired)
  end.
Proof. cbn [main_loop]. by destruct (process_path py_repr encodable t jsonl dry_run) as [[ok|e] t']. Qed.

Lemma main_loop_app xs ys dry_run t total repaired :
  main_loop py_repr encodable (xs ++ ys) dry_run t total repaired =
  match main_loop py_repr encodable xs dry_run t total repaired with
  | (Raise e, t') => (Raise e, t')
  | (Ok (total', repaired'), t') => main_loop py_repr encodable ys dry_run t' total' repaired'
  end.
Proof.
  revert t total repaired. induction xs as [|x xs IH]; intros t total repaired; [done|].
  cbn [app]. rewrite !main_loop_cons.
  destruct (fst (process_path py_repr encodable t x dry_run)) as [ok|e]; [apply IH | done].
Qed.

Lemma main_loop_counts files dry_run t total repaired total' repaired' t' :
  main_loop py_repr encodable files dry_run t total repaired = (Ok (total', repaired'), t') ->
  total' = total + length files /\
  repaired <= repaired' <= repaired + length files.
Proof.
  revert t total repaired. induction files as [|x files IH]; intros t total repaired.
  - intros [= <- <- <-]. simpl. lia.
  - rewrite main_loop_cons.
    destruct (fst (process_path py_repr encodable t x dry_run)) as [ok|e]; [|discriminate].
    intros [-> Hrep]%IH. simpl. destruct ok; lia.
Qed.

(** What every processed file preserves, the loop preserves. *)
Lemma main_loop_invariant (P : tree -> Prop) files dry_run t total repaired :
  P t ->
  (forall t1 jsonl, jsonl ∈ files -> P t1 -> P (snd (process_path py_repr encodable t1 jsonl dry_run))) ->
  P (snd (main_loop py_repr encodable files dry_run t total repaired)).
Proof.
  revert t total repaired. induction files as [|x files IH]; intros t total repaired Ht Hstep;
    [done|].
  rewrite main_loop_cons.
  assert (P (snd (process_path py_repr encodable t x dry_run))) as Hx by (apply Hstep; [left | done]).
  destruct (fst (process_path py_repr encodable t x dry_run)) as [ok|e]; [|done].
  apply IH; [done|]. intros t1 jsonl Hin. apply Hstep. by right.
Qed.

Lemma main_tree dry_run t :
  snd (main py_repr encodable dry_run t) =
  if root_exists t then snd (main_loop py_repr encodable (iter_jsonl_files t) dry_run t 0 0) else t.
Proof.
  unfold main. destruct (root_exists t); [|done]. simpl.
  by destruct (main_loop _ _ _ _ _ _) as [[[total repaired]|e] t'].
Qed.

Lemma main_invariant (P : tree -> Prop) dry_run t :
  P t ->
  (forall t1 jsonl, jsonl ∈ iter_jsonl_files t ->
                    P t1 -> P (snd (process_path py_repr encodable t1 jsonl dry_run))) ->
  P (snd (main py_repr encodable dry_run t)).
Proof.
  intros Ht Hstep. rewrite main_tree. destruct (root_exists t); [|done].
  by apply main_loop_invariant.
Qed.

Lemma iter_jsonl_files_elem t p :
  p ∈ iter_jsonl_files t <->
  p ∈ root_rglob t "rollout-*.jsonl" /\ endswith (name p) ".mixed.bak" = false.
Proof.
  unfold iter_jsonl_files. by rewrite !list_elem_of_In, filter_In, negb_true_iff.
Qed.

Lemma process_jsonl_dry fs name : snd (process_jsonl py_repr encodable fs name true) = fs.
Proof.
  rewrite process_jsonl_states.
  by destruct (repair_state_of py_repr fs name), (star_prefix name).
Qed.

Lemma process_jsonl_frame_fs fs name dry_run :
  (forall pat,
     fs_glob (snd (process_jsonl py_repr encodable fs name dry_run)) pat = fs_glob fs pat) /\
  (forall n,
     n <> name ->
     fs_read (snd (process_jsonl py_repr encodable fs name dry_run)) n = fs_read fs n).
Proof.
  destruct (process_jsonl_no_write py_repr encodable fs name dry_run)
    as [->|(_ & merged & _ & _ & ->)]; [done|].
  split; [done|]. intros n Hn. by apply fs_put_read_ne.
Qed.

Lemma day_dir_set_dir d fs t d0 :
  day_dir (set_dir d fs t) d0 = if String.eqb d0 d then fs else day_dir t d0.
Proof. reflexivity. Qed.

(** The state is settled by the target, the backups globbed for it and
    the names [glob] returns. *)
Lemma repair_state_ext fs1 fs2 name :
  (forall pat, fs_glob fs1 pat = fs_glob fs2 pat) ->
  fs_read fs1 name = fs_read fs2 name ->
  (forall ts src, src ∈ fs_glob fs1 (backup_pattern ts) -> fs_read fs1 src = fs_read fs2 src) ->
  repair_state_of py_repr fs1 name = repair_state_of py_repr fs2 name.
Proof.
  intros Hglob Hread Hsrc. unfold repair_state_of. rewrite <- Hread.
  destruct (identity_absent _); [done|].
  destruct (ts_prefix_from_name name) as [ts|]; [|done].
  rewrite <- Hglob.
  destruct (order_candidates _) as [|src rest] eqn:Hoc; [done|].
  by rewrite <- (Hsrc ts src (order_candidates_elem _ _ _ Hoc)).
Qed.

Lemma process_jsonl_verdict fs name dry_run :
  fst (process_jsonl py_repr encodable fs name dry_run) =
  match repair_state_of py_repr fs name with
  | NoIdentity | NoTimestamp => Ok false
  | NoCandidate | NoMatchingRecords =>
      if star_prefix name then Raise ValueError else Ok false
  | ScanRaised e => if star_prefix name then Raise ValueError else Raise e
  | Repaired merged =>
      if star_prefix name then Raise ValueError
      else if dry_run || forallb encodable merged then Ok true
      else Raise UnicodeEncodeError
  end.
Proof.
  rewrite process_jsonl_states.
  destruct (repair_state_of py_repr fs name) as [| | | |e|merged], (star_prefix name); try done.
  destruct dry_run; [done|]. simpl. by destruct (forallb encodable merged).
Qed.

(** The run that writes gives the verdict of the dry run, unless its
    write fails. *)
Lemma process_jsonl_verdict_dry fs name :
  fst (process_jsonl py_repr encodable fs name false)
  = fst (process_jsonl py_repr encodable fs name true) \/
  fst (process_jsonl py_repr encodable fs name false) = Raise UnicodeEncodeError /\
  fst (process_jsonl py_repr encodable fs name true) = Ok true.
Proof.
  rewrite !process_jsonl_verdict.
  destruct (repair_state_of py_repr fs name) as [| | | |e|merged], (star_prefix name); auto.
  simpl. destruct (forallb encodable merged); auto.
Qed.

Lemma writable_prefix_elem merged m :
  m ∈ writable_prefix encodable merged -> m ∈ merged /\ encodable m = true.
Proof.
  induction merged as [|obj merged IH]; simpl; [by intros ?%elem_of_nil|].
  destruct (encodable obj) eqn:Hobj; [|by intros ?%elem_of_nil].
  intros [->|Hm]%elem_of_cons; [split; [by left | done]|].
  destruct (IH Hm). split; [by right | done].
Qed.

(** The repair keeps a directory of logs a directory of logs, also when
    its write fails, and on such a directory it raises nothing but what
    [glob] and the write raise. *)
Lemma process_jsonl_logs fs name dry_run :
  (forall n fh, fs_read fs n = Some fh -> is_log fh = true) ->
  (forall n fh, fs_read (snd (process_jsonl py_repr encodable fs name dry_run)) n = Some fh ->
                is_log fh = true) /\
  (star_prefix name = false ->
   dry_run = true \/ (forall obj, encodable obj = true) ->
   exists ok, fst (process_jsonl py_repr encodable fs name dry_run) = Ok ok).
Proof.
  intros Hlogs. split.
  - destruct (process_jsonl_no_write py_repr encodable fs name dry_run)
      as [->|(_ & merged & Hst & _ & ->)]; [done|].
    intros n fh'. cbn [snd fs_read fs_put].
    destruct (String.eqb n name); [|apply Hlogs].
    intros [= <-]. unfold is_log. rewrite docs_map_Doc. apply forallb_forall.
    intros m [Hm _]%list_elem_of_In%writable_prefix_elem.
    pose proof (repair_state_cases py_repr fs name) as Hcases. rewrite Hst in Hcases.
    destruct Hcases as (_ & ts & src & r & rs & _ & _ & Hscan & ->).
    unfold merge in Hm. rewrite dedup_first_occurrences in Hm.
    apply first_occurrences_elem, elem_of_app in Hm as [Hm|Hm].
    + pose proof (rehydrate_records
                    (fst (extract_cwd_and_id_from_jsonl (fs_read fs name)))
                    (snd (extract_cwd_and_id_from_jsonl (fs_read fs name)))
                    _ (collect_ok_records py_repr _ _ _ Hscan)) as HR.
      rewrite Forall_forall in HR. by apply HR.
    + destruct (fs_read fs name) as [fh|] eqn:Hread; [|by apply elem_of_nil in Hm].
      pose proof (is_log_records fh (Hlogs _ _ Hread)) as Hfh.
      rewrite Forall_forall in Hfh. by apply Hfh.
  - intros Hstar Hwrite.
    destruct (fst (process_jsonl py_repr encodable fs name dry_run)) as [ok|e] eqn:Hv;
      [by exists ok|].
    apply process_jsonl_raises_inv in Hv as (_ & ts & Hts & Hcase).
    rewrite (star_prefix_ts _ _ Hts) in Hstar.
    destruct Hcase as [(_ & ? & _)|[(_ & _ & (src & backup & _ & Hb & Hl) & _)|
                        (_ & _ & -> & merged & obj & rest & _ & _ & Hobj & _)]].
    + congruence.
    + by rewrite (Hlogs _ _ Hb) in Hl.
    + destruct Hwrite as [|Hall]; [done|]. by rewrite Hall in Hobj.
Qed.

Lemma main_loop_raise_split files dry_run t total repaired e t' :
  main_loop py_repr encodable files dry_run t total repaired = (Raise e, t') ->
  exists before jsonl rest counts t1,
    files = before ++ jsonl :: rest /\
    main_loop py_repr encodable before dry_run t total repaired = (Ok counts, t1) /\
    fst (process_jsonl py_repr encodable (day_dir t1 (parent jsonl)) (name jsonl) dry_run)
    = Raise e /\
    t' = snd (process_path py_repr encodable t1 jsonl dry_run).
Proof.
  revert t total repaired. induction files as [|x files IH]; intros t total repaired;
    [discriminate|].
  rewrite main_loop_cons.
  destruct (fst (process_path py_repr encodable t x dry_run)) as [ok|e'] eqn:Hx.
  - intros (before & jsonl & rest & counts & t1 & -> & Hloop & Hraise & Ht')%IH.
    exists (x :: before), jsonl, rest, counts, t1. split; [done|]. split; [|done].
    by rewrite main_loop_cons, Hx.
  - intros [= <- <-]. exists [], x, files, (total, repaired), t.
    split; [done|]. split; [done|]. by rewrite process_path_eq in Hx.
Qed.

Lemma main_loop_logs files dry_run t total repaired :
  (forall d n fh, fs_read (day_dir t d) n = Some fh -> is_log fh = true) ->
  Forall (fun p => star_prefix (name p) = false) files ->
  dry_run = true \/ (forall obj, encodable obj = true) ->
  exists counts t',
    main_loop py_repr encodable files dry_run t total repaired = (Ok counts, t') /\
    (forall d n fh, fs_read (day_dir t' d) n = Some fh -> is_log fh = true).
Proof.
  intros Hlogs Hstars Hwrite. revert t total repaired Hlogs.
  induction Hstars as [|x files Hx _ IH]; intros t total repaired Hlogs.
  - by exists (total, repaired), t.
  - rewrite main_loop_cons, process_path_eq. cbn [fst snd].
    destruct (process_jsonl_logs (day_dir t (parent x)) (name x) dry_run (Hlogs _))
      as [Hlogs' Hok].
    destruct (Hok Hx Hwrite) as [ok ->].
    apply IH. intros d n fh. rewrite day_dir_set_dir.
    destruct (String.eqb d (parent x)); [apply Hlogs' | apply Hlogs].
Qed.

(** The dry run and the run that writes give every file the same verdict,
    until a write fails, where the files to come, and the backups globbed
    for them, are not among the files written before. *)
Lemma main_loop_dry_vs_real files td tr total repaired :
  NoDup files ->
  (forall d pat, fs_glob (day_dir tr d) pat = fs_glob (day_dir td d) pat) ->
  (forall p, p ∈ files ->
     fs_read (day_dir tr (parent p)) (name p) = fs_read (day_dir td (parent p)) (name p)) ->
  (forall p ts src, p ∈ files -> src ∈ fs_glob (day_dir td (parent p)) (backup_pattern ts) ->
     fs_read (day_dir tr (parent p)) src = fs_read (day_dir td (parent p)) src) ->
  (forall p ts, p ∈ files -> name p ∉ fs_glob (day_dir td (parent p)) (backup_pattern ts)) ->
  fst (main_loop py_repr encodable files false tr total repaired)
  = fst (main_loop py_repr encodable files true td total repaired) \/
  fst (main_loop py_repr encodable files false tr total repaired) = Raise UnicodeEncodeError.
Proof.
  revert td tr total repaired.
  induction files as [|x files IH]; intros td tr total repaired Hnd Hglob Hread Hsrc Hfresh;
    [by left|].
  apply NoDup_cons in Hnd as [Hx Hnd].
  rewrite !main_loop_cons, !process_path_eq. cbn [fst snd].
  assert (fst (process_jsonl py_repr encodable (day_dir td (parent x)) (name x) true)
          = fst (process_jsonl py_repr encodable (day_dir tr (parent x)) (name x) true)) as ->.
  { rewrite !process_jsonl_verdict.
    rewrite (repair_state_ext (day_dir tr (parent x)) (day_dir td (parent x)) (name x)); [done|..].
    - intros pat. apply Hglob.
    - apply Hread. by left.
    - intros ts src Hin. apply (Hsrc x ts); [by left|]. by rewrite <- Hglob. }
  destruct (process_jsonl_verdict_dry (day_dir tr (parent x)) (name x)) as [->|[-> _]];
    [|by right].
  destruct (fst (process_jsonl py_repr encodable (day_dir tr (parent x)) (name x) true))
    as [ok|e]; [|by left].
  rewrite process_jsonl_dry.
  destruct (process_jsonl_frame_fs (day_dir tr (parent x)) (name x) false) as [Fglob Fread].
  apply IH; [done|..].
  - intros d pat. rewrite !day_dir_set_dir.
    destruct (String.eqb d (parent x)) eqn:Hd; [|apply Hglob].
    apply String.eqb_eq in Hd as ->. rewrite Fglob. apply Hglob.
  - intros p Hp. rewrite !day_dir_set_dir.
    destruct (String.eqb (parent p) (parent x)) eqn:Hd; [|apply Hread; by right].
    apply String.eqb_eq in Hd. rewrite Fread.
    + rewrite <- Hd. apply Hread. by right.
    + intros Hn. apply Hx. destruct p, x; simpl in *; by subst.
  - intros p ts src Hp. rewrite !day_dir_set_dir.
    destruct (String.eqb (parent p) (parent x)) eqn:Hd; [|apply Hsrc; by right].
    apply String.eqb_eq in Hd. intros Hin. rewrite Fread.
    + rewrite <- Hd. apply (Hsrc p ts); [by right|]. by rewrite Hd.
    + intros ->. apply (Hfresh x ts); [by left | done].
  - intros p ts Hp. rewrite !day_dir_set_dir.
    destruct (String.eqb (parent p) (parent x)) eqn:Hd; [|apply Hfresh; by right].
    apply String.eqb_eq in Hd. rewrite <- Hd. apply Hfresh. by right.
Qed.

End BatchFacts.

(** X16: the exclusion of lines 180-181 never excludes a file whose name
    ends in [.jsonl], in whatever letter case.  Where [rglob] yields only
    such names, as its pattern asks, [iter_jsonl_files] yields what [rglob]
    yields. *)
Theorem iter_jsonl_files_excludes_nothing (t : tree) :
  Forall (fun p => endswith (PyStr.lower (name p)) ".jsonl" = true)
         (root_rglob t "rollout-*.jsonl") ->
  iter_jsonl_files t = root_rglob t "rollout-*.jsonl".
Proof.
  unfold iter_jsonl_files.
  induction 1 as [|p ps Hp _ IH]; [done|].
  cbn [List.filter]. by rewrite (jsonl_not_backup _ Hp), IH.
Qed.

Lemma iter_jsonl_files_excludes_nothing_witness :
  let files := [{| parent := "2025/01/02"; name := target_name |};
                {| parent := "2025/01/02"; name := "rollout-2025-01-02T03-04-05-x.JSONL" |}] in
  iter_jsonl_files (sample_tree (sample_fs [] []) files) = files.
Proof.
  intros files.
  apply (iter_jsonl_files_excludes_nothing (sample_tree (sample_fs [] []) files)).
  repeat constructor.
Defined.

Lemma process_jsonl_raises_which
    (py_repr : json -> string) (encodable : json -> bool) fs name dry_run e :
  fst (process_jsonl py_repr encodable fs name dry_run) = Raise e ->
  e = ValueError \/ e = AttributeError \/ e = UnicodeEncodeError /\ dry_run = false.
Proof.
  intros (_ & ts & _ & [(-> & _)|[(-> & _)|(-> & _ & -> & _)]])%process_jsonl_raises_inv; auto.
Qed.

(** X17: the status [main] returns.  Without the root it returns 1,
    printing nothing on standard output and touching nothing; with the
    root it returns 0, whatever the verdicts of the files, unless the
    repair of a file raises, and then the exception leaves [main] and no
    summary is printed: a [ValueError] of [glob], an [AttributeError] of
    the scanner or, the run not being a dry run, a [UnicodeEncodeError] of
    the write. *)
Theorem main_exit_status
    (py_repr : json -> string) (encodable : json -> bool) (dry_run : bool) (t : tree) :
  (root_exists t = false -> main py_repr encodable dry_run t = (Ok 1%Z, [], t)) /\
  (root_exists t = true ->
   fst (fst (main py_repr encodable dry_run t)) = Ok 0%Z \/
   exists e,
     fst (main py_repr encodable dry_run t) = (Raise e, []) /\
     (e = ValueError \/ e = AttributeError \/ e = UnicodeEncodeError /\ dry_run = false)) /\
  (fst (fst (main py_repr encodable dry_run t)) = Ok 1%Z <-> root_exists t = false).
Proof.
  unfold main. destruct (root_exists t); simpl.
  - split; [discriminate|].
    destruct (main_loop py_repr encodable (iter_jsonl_files t) dry_run t 0 0)
      as [[[total repaired]|e] t'] eqn:Hloop; simpl.
    + split; [by left|]. split; discriminate.
    + split; [|split; discriminate]. intros _. right. exists e. split; [done|].
      apply main_loop_raise_split in Hloop as (? & jsonl & ? & ? & t1 & _ & _ & Hraise & _).
      by eapply process_jsonl_raises_which.
  - split; [done|]. split; [discriminate|]. done.
Qed.

(** X18: the summary.  When [main] returns 0 it has printed one line: the
    number of files [iter_jsonl_files] yields, and a number of repaired
    files that is not greater. *)
Theorem main_summary
    (py_repr : json -> string) (encodable : json -> bool) (dry_run : bool) (t : tree) (out : list string) (t' : tree) :
  main py_repr encodable dry_run t = (Ok 0%Z, out, t') ->
  exists repaired,
    repaired <= length (iter_jsonl_files t) /\
    out = ["Scanned " +:+ str_of_nat (length (iter_jsonl_files t)) +:+
           " jsonl files; repaired " +:+ str_of_nat repaired].
Proof.
  unfold main. destruct (root_exists t); simpl; [|discriminate].
  destruct (main_loop py_repr encodable (iter_jsonl_files t) dry_run t 0 0)
    as [[[total repaired]|e] t1] eqn:Hloop; [|discriminate].
  intros [= <- <-]. apply main_loop_counts in Hloop as [-> Hrep].
  exists repaired. split; [lia | done].
Qed.

Lemma main_summary_witness :
  let t := sample_tree (sample_fs [Doc (session_meta "/work/proj" "T1")] sample_backup)
             [{| parent := "d"; name := target_name |};
              {| parent := "d"; name := "rollout-short.jsonl" |}] in
  exists repaired,
    repaired <= 2 /\
    snd (fst (main sample_repr all_encodable false t)) =
    ["Scanned 2 jsonl files; repaired " +:+ str_of_nat repaired].
Proof.
  intros t.
  exact (main_summary sample_repr all_encodable false t _
           (snd (main sample_repr all_encodable false t)) eq_refl).
Defined.

(** X19: an exception ends the batch.  [main] raises exactly when the
    repair of some file raises after the files before it were processed;
    the files after it are not processed.  The tree [main] leaves is the
    tree the files before left, but for the target of that file when it is
    the write that raised: that target was emptied and partly written. *)
Theorem main_aborts_on_exception
    (py_repr : json -> string) (encodable : json -> bool)
    (dry_run : bool) (t : tree) (e : exn) :
  fst (fst (main py_repr encodable dry_run t)) = Raise e <->
  root_exists t = true /\
  exists before jsonl rest counts t1,
    iter_jsonl_files t = before ++ jsonl :: rest /\
    main_loop py_repr encodable before dry_run t 0 0 = (Ok counts, t1) /\
    fst (process_jsonl py_repr encodable (day_dir t1 (parent jsonl)) (name jsonl) dry_run)
    = Raise e /\
    snd (main py_repr encodable dry_run t)
    = snd (process_path py_repr encodable t1 jsonl dry_run) /\
    (forall d n,
       d <> parent jsonl \/ n <> name jsonl ->
       fs_read (day_dir (snd (main py_repr encodable dry_run t)) d) n
       = fs_read (day_dir t1 d) n) /\
    (e <> UnicodeEncodeError ->
     forall d, day_dir (snd (main py_repr encodable dry_run t)) d = day_dir t1 d).
Proof.
  unfold main. destruct (root_exists t); simpl; [|split; [discriminate | by intros [? _]]].
  split.
  - destruct (main_loop py_repr encodable (iter_jsonl_files t) dry_run t 0 0)
      as [[[total repaired]|e'] t'] eqn:Hloop; [discriminate|].
    simpl. intros [= ->]. split; [done|].
    apply main_loop_raise_split in Hloop
      as (before & jsonl & rest & counts & t1 & Hfiles & Hbefore & Hraise & ->).
    exists before, jsonl, rest, counts, t1.
    split; [done|]. split; [done|]. split; [done|]. split; [done|].
    rewrite process_path_eq. cbn [snd].
    destruct (process_jsonl_frame_fs py_repr encodable
                (day_dir t1 (parent jsonl)) (name jsonl) dry_run) as [_ Fread].
    split.
    + intros d n Hdn. rewrite day_dir_set_dir.
      destruct (String.eqb d (parent jsonl)) eqn:Hd; [|done].
      apply String.eqb_eq in Hd as ->. apply Fread. by destruct Hdn.
    + intros Hne d. rewrite day_dir_set_dir.
      destruct (String.eqb d (parent jsonl)) eqn:Hd; [|done].
      apply String.eqb_eq in Hd as ->.
      apply process_jsonl_raises_inv in Hraise
        as (_ & ts & _ & [(_ & _ & ->)|[(_ & _ & _ & ->)|(-> & _)]]); done.
  - intros (_ & before & jsonl & rest & [a b] & t1 & -> & Hbefore & Hraise & _).
    rewrite main_loop_app, Hbefore, main_loop_cons, process_path_eq. cbn [fst snd].
    by rewrite Hraise.
Qed.

(** X20: a dry run changes nothing: every directory of the tree [main]
    leaves is the directory it found. *)
Theorem main_dry_run_unchanged
    (py_repr : json -> string) (encodable : json -> bool) (t : tree) :
  let t' := snd (main py_repr encodable true t) in
  root_exists t' = root_exists t /\
  (forall pat, root_rglob t' pat = root_rglob t pat) /\
  (forall d, day_dir t' d = day_dir t d).
Proof.
  apply (main_invariant py_repr encodable
           (fun t1 => root_exists t1 = root_exists t /\
                      (forall pat, root_rglob t1 pat = root_rglob t pat) /\
                      (forall d, day_dir t1 d = day_dir t d))); [done|].
  intros t1 jsonl _ (Hroot & Hglob & Hdir). rewrite process_path_eq. cbn [snd].
  split; [done|]. split; [done|]. intros d.
  rewrite day_dir_set_dir, process_jsonl_dry.
  destruct (String.eqb d (parent jsonl)) eqn:Hd; [|done].
  apply String.eqb_eq in Hd as ->. apply Hdir.
Qed.

(** X21: [main] writes the files it lists and no other: what [glob] and
    [rglob] return is what they returned, a file that [iter_jsonl_files]
    does not yield reads as before, and so does, whatever [rglob] yields,
    every file whose name ends in [.mixed.bak]: no backup is overwritten. *)
Theorem main_writes_targets_only
    (py_repr : json -> string) (encodable : json -> bool) (dry_run : bool) (t : tree) :
  let t' := snd (main py_repr encodable dry_run t) in
  root_exists t' = root_exists t /\
  (forall pat, root_rglob t' pat = root_rglob t pat) /\
  (forall d pat, fs_glob (day_dir t' d) pat = fs_glob (day_dir t d) pat) /\
  (forall d n,
     (forall p, p ∈ iter_jsonl_files t -> parent p = d -> name p <> n) ->
     fs_read (day_dir t' d) n = fs_read (day_dir t d) n) /\
  (forall d n,
     endswith n ".mixed.bak" = true ->
     fs_read (day_dir t' d) n = fs_read (day_dir t d) n).
Proof.
  intros t'.
  assert (root_exists t' = root_exists t /\
          (forall pat, root_rglob t' pat = root_rglob t pat) /\
          (forall d pat, fs_glob (day_dir t' d) pat = fs_glob (day_dir t d) pat) /\
          (forall d n,
             (forall p, p ∈ iter_jsonl_files t -> parent p = d -> name p <> n) ->
             fs_read (day_dir t' d) n = fs_read (day_dir t d) n)) as (H1 & H2 & H3 & H4).
  { subst t'.
    apply (main_invariant py_repr encodable
             (fun t1 => root_exists t1 = root_exists t /\
                (forall pat, root_rglob t1 pat = root_rglob t pat) /\
                (forall d pat, fs_glob (day_dir t1 d) pat = fs_glob (day_dir t d) pat) /\
                (forall d n,
                   (forall p, p ∈ iter_jsonl_files t -> parent p = d -> name p <> n) ->
                   fs_read (day_dir t1 d) n = fs_read (day_dir t d) n))); [done|].
    intros t1 jsonl Hin (Hroot & Hrglob & Hglob & Hread). rewrite process_path_eq. cbn [snd].
    destruct (process_jsonl_frame_fs py_repr encodable
                (day_dir t1 (parent jsonl)) (name jsonl) dry_run)
      as [Fglob Fread].
    split; [done|]. split; [done|]. split.
    - intros d pat. rewrite day_dir_set_dir.
      destruct (String.eqb d (parent jsonl)) eqn:Hd; [|apply Hglob].
      apply String.eqb_eq in Hd as ->. rewrite Fglob. apply Hglob.
    - intros d n Hn. rewrite day_dir_set_dir.
      destruct (String.eqb d (parent jsonl)) eqn:Hd; [|by apply Hread].
      apply String.eqb_eq in Hd as ->. rewrite Fread; [by apply Hread|].
      intros ->. by apply (Hn jsonl). }
  repeat split; try done.
  intros d n Hbak. apply H4. intros p [_ Hp]%iter_jsonl_files_elem _ Hn. congruence.
Qed.

(** A write that fails in [main] met a document that cannot be encoded. *)
Lemma main_write_failure
    (py_repr : json -> string) (encodable : json -> bool) (dry_run : bool) (t : tree) e :
  fst (fst (main py_repr encodable dry_run t)) = Raise e ->
  e = UnicodeEncodeError ->
  exists obj, encodable obj = false.
Proof.
  unfold main. destruct (root_exists t); simpl; [|discriminate].
  destruct (main_loop py_repr encodable (iter_jsonl_files t) dry_run t 0 0)
    as [[[total repaired]|e'] t'] eqn:Hloop; [discriminate|].
  simpl. intros [= ->] ->.
  apply main_loop_raise_split in Hloop as (? & jsonl & ? & ? & t1 & _ & _ & Hraise & _).
  apply process_jsonl_raises_inv in Hraise
    as (_ & ts & _ & [(? & _)|[(? & _)|(_ & _ & _ & merged & obj & rest & _ & _ & Hobj & _)]]);
    [discriminate | discriminate |]. by exists obj.
Qed.

(** X22: on a tree of logs [main] raises nothing, if no name has [**] in
    its timestamp prefix and the run is a dry run or every document can be
    encoded.  Where every parseable line of every file is a Record, [main]
    then returns its status, 0 with the root and 1 without, and every file
    of the tree it leaves is a log again. *)
Theorem main_total_on_logs
    (py_repr : json -> string) (encodable : json -> bool) (dry_run : bool) (t : tree) :
  (forall d n fh, fs_read (day_dir t d) n = Some fh -> is_log fh = true) ->
  Forall (fun p => star_prefix (name p) = false) (iter_jsonl_files t) ->
  dry_run = true \/ (forall obj, encodable obj = true) ->
  fst (fst (main py_repr encodable dry_run t)) = Ok (if root_exists t then 0%Z else 1%Z) /\
  (forall d n fh,
     fs_read (day_dir (snd (main py_repr encodable dry_run t)) d) n = Some fh ->
     is_log fh = true).
Proof.
  intros Hlogs Hstars Hwrite. unfold main. destruct (root_exists t); simpl; [|done].
  destruct (main_loop_logs py_repr encodable (iter_jsonl_files t) dry_run t 0 0
              Hlogs Hstars Hwrite)
    as ([total repaired] & t' & -> & Hlogs').
  done.
Qed.

Lemma main_total_on_logs_witness :
  let t := sample_tree (sample_fs [Doc (session_meta "/work/proj" "T1")] sample_backup)
             [{| parent := "d"; name := target_name |}] in
  fst (fst (main sample_repr all_encodable false t)) = Ok 0%Z.
Proof.
  intros t. apply (main_total_on_logs sample_repr all_encodable false t).
  - intros d n fh. cbn [t sample_tree day_dir sample_fs fs_read].
    destruct (String.eqb n target_name); [by intros [= <-]|].
    destruct (String.eqb n backup_name); [by intros [= <-] | discriminate].
  - repeat constructor.
  - by right.
Defined.

(** X23: the dry run tells what the run that writes will do, short of a
    failing write.  Where [rglob] yields no path twice and no file it
    yields is globbed as a backup in its directory, [main] without
    [--dry-run] returns the status and prints the summary it returns and
    prints with it, or raises the same exception, unless a write fails with
    a [UnicodeEncodeError]; where every document can be encoded there is no
    such failure. *)
Theorem main_dry_run_predicts
    (py_repr : json -> string) (encodable : json -> bool) (t : tree) :
  NoDup (iter_jsonl_files t) ->
  (forall p ts, p ∈ iter_jsonl_files t ->
                name p ∉ fs_glob (day_dir t (parent p)) (backup_pattern ts)) ->
  (fst (main py_repr encodable false t) = fst (main py_repr encodable true t) \/
   fst (main py_repr encodable false t) = (Raise UnicodeEncodeError, [])) /\
  ((forall obj, encodable obj = true) ->
   fst (main py_repr encodable false t) = fst (main py_repr encodable true t)).
Proof.
  intros Hnd Hfresh.
  assert (fst (main py_repr encodable false t) = fst (main py_repr encodable true t) \/
          fst (main py_repr encodable false t) = (Raise UnicodeEncodeError, [])) as Hsame.
  { unfold main. destruct (root_exists t); simpl; [|by left].
    pose proof (main_loop_dry_vs_real py_repr encodable (iter_jsonl_files t) t t 0 0 Hnd
                  (fun _ _ => eq_refl) (fun _ _ => eq_refl) (fun _ _ _ _ _ => eq_refl) Hfresh)
      as Hsame.
    destruct (main_loop py_repr encodable (iter_jsonl_files t) true t 0 0) as [[[a b]|e] t1];
      destruct (main_loop py_repr encodable (iter_jsonl_files t) false t 0 0)
        as [[[a' b']|e'] t2];
      simpl in *; destruct Hsame as [Hsame|Hsame]; try discriminate;
      (left; congruence) || (right; congruence). }
  split; [exact Hsame|]. intros Hall.
  destruct Hsame as [Hsame|Hraise]; [exact Hsame|]. exfalso.
  destruct (main_write_failure py_repr encodable false t UnicodeEncodeError)
    as (obj & Hobj); [by rewrite Hraise | done |]. by rewrite Hall in Hobj.
Qed.

Lemma main_dry_run_predicts_witness :
  let t := sample_tree (sample_fs [Doc (session_meta "/work/proj" "T1")] sample_backup)
             [{| parent := "d"; name := target_name |};
              {| parent := "d"; name := "rollout-short.jsonl" |}] in
  fst (main sample_repr all_encodable false t) = fst (main sample_repr all_encodable true t).
Proof.
  intros t. apply (main_dry_run_predicts sample_repr all_encodable t).
  - vm_compute. repeat constructor; intros H;
      repeat (apply elem_of_cons in H as [H|H]; [discriminate|]); by apply elem_of_nil in H.
  - intros p ts Hp.
    cbn [t sample_tree day_dir sample_fs fs_glob].
    destruct (String.eqb _ _); [|apply not_elem_of_nil].
    intros Hin%list_elem_of_singleton. revert Hin.
    vm_compute in Hp. repeat (apply elem_of_cons in Hp as [->|Hp]; [discriminate|]).
    by apply elem_of_nil in Hp.
  - done.
Defined.

(** ** The identity extractor: what follows the identity *)

(** X24: the extractor reads no further than the first session-identity
    record.  A file that gives an identity gives the same one whatever
    lines, parseable or not, are appended to it. *)
Theorem extract_stable_under_append (fh rest : list line) :
  identity_absent (extract_cwd_and_id_from_jsonl (Some fh)) = false ->
  extract_cwd_and_id_from_jsonl (Some (fh ++ rest)) = extract_cwd_and_id_from_jsonl (Some fh).
Proof.
  destruct (extract_cwd_and_id_from_jsonl (Some fh)) as [c i] eqn:Hid.
  unfold identity_absent. cbn [fst snd].
  intros [Hc _]%orb_false_elim. apply negb_false_iff in Hc.
  destruct (extract_inv fh c i Hid Hc) as (before & sm & after & -> & Hb & Hr & Hk & _).
  rewrite <- app_assoc.
  change ((Doc sm :: after) ++ rest) with (Doc sm :: after ++ rest).
  rewrite (extract_first_session_meta before sm (after ++ rest) Hb Hr Hk).
  by rewrite (extract_first_session_meta before sm after Hb Hr Hk) in Hid.
Qed.

Lemma extract_stable_under_append_witness :
  extract_cwd_and_id_from_jsonl
    (Some ([Blank; Doc (session_meta "/work/proj" "T1")] ++ [Malformed; Doc (JList [])]))
  = extract_cwd_and_id_from_jsonl (Some [Blank; Doc (session_meta "/work/proj" "T1")]).
Proof.
  exact (extract_stable_under_append [Blank; Doc (session_meta "/work/proj" "T1")]
           [Malformed; Doc (JList [])] eq_refl).
Defined.
